(** * The overlay and history engine of the photo editor

    A shallow embedding of the state handling of [App.tsx],
    [InteractiveText.tsx] and [InteractiveComponent.tsx]: the geometry
    resolver, the undo/redo history, the text and component overlays, the
    canvas resizer and the compositor; of the handlers of [RatioPanel.tsx],
    [ComponentPanel.tsx] and [LifestylePanel.tsx]; and of the response
    handling of [geminiService.ts].

    A React handler closes over the state of the render it was created in
    and schedules updates with the [set...] functions; an event is modelled
    as a function from the state the handler sees to the state after its
    updates are committed.  What the browser supplies (decoded images, the
    clock, the outcome of a remote call) is an explicit argument.  A handler
    that waits for the browser is followed from its start to the end of its
    callback, with no other event in between. *)

From Stdlib Require Import ZArith QArith Qround Qabs Qminmax Lqa Lia.
From Stdlib Require Import List String Ascii Bool DecimalString.
From Stdlib Require Import Floats Uint63.
From Stdlib Require DecimalZ DecimalPos.
Import ListNotations.

Set Implicit Arguments.

Open Scope string_scope.

(** ** JavaScript numbers

    The handlers compute with [number].  The arithmetic they use is
    collected in an interface with two instances: exact rationals, over
    which the algebraic properties are proved, and binary64 floats, the
    numbers the program runs on, over which scenarios whose values are all
    representable are evaluated.  An equation proved over the rationals
    holds over binary64 up to rounding. *)

Declare Scope js_scope.
Delimit Scope js_scope with js.

Class Number (N : Type) : Type := {
  ofZ : Z -> N;
  add : N -> N -> N;
  sub : N -> N -> N;
  mul : N -> N -> N;
  div : N -> N -> N;
  neg : N -> N;
  (** [x < y]; [x > y] is [y < x] *)
  ltb : N -> N -> bool;
  Math_abs : N -> N;
  Math_max : N -> N -> N;
  Math_min : N -> N -> N;
  (** nearest integer, a tie goes up *)
  Math_round : N -> N
}.

Notation "x + y" := (add x y) : js_scope.
Notation "x - y" := (sub x y) : js_scope.
Notation "x * y" := (mul x y) : js_scope.
Notation "x / y" := (div x y) : js_scope.
Notation "x <? y" := (ltb x y) : js_scope.
Notation "x >? y" := (ltb y x) : js_scope.
Notation "- x" := (neg x) : js_scope.

(** The literal [0.5]. *)
Definition half {N} `{Number N} : N := (ofZ 1 / ofZ 2)%js.

(** Exact rational arithmetic. *)
Definition Qltb (x y : Q) : bool := negb (Qle_bool y x).

Definition Qround_half_up (x : Q) : Q := inject_Z (Qfloor (x + (1 # 2))).

#[export] Instance Q_Number : Number Q := {|
  ofZ := inject_Z;
  add := Qplus;
  sub := Qminus;
  mul := Qmult;
  div := Qdiv;
  neg := Qopp;
  ltb := Qltb;
  Math_abs := Qabs;
  Math_max := Qmax;
  Math_min := Qmin;
  Math_round := Qround_half_up
|}.

(** IEEE 754 binary64, the representation of a JavaScript [number]. *)
Module F64.

(** The double nearest to the integer [z], a tie going to the even
    significand, and an infinity beyond the range of the doubles. *)
Definition ofZ (z : Z) : float :=
  SF2Prim (binary_normalize prec emax z 0 false).

Definition is_nan (x : float) : bool := negb (PrimFloat.eqb x x).

Definition two52 : float := ofZ (2 ^ 52).

(** Largest integer not above [x]; a float of magnitude [2^52] or more is
    an integer already. *)
Definition floor (x : float) : float :=
  if PrimFloat.ltb (PrimFloat.abs x) two52 then
    let r := if PrimFloat.ltb x PrimFloat.zero
             then PrimFloat.add (PrimFloat.sub x two52) two52
             else PrimFloat.sub (PrimFloat.add x two52) two52 in
    if PrimFloat.ltb x r then PrimFloat.sub r PrimFloat.one else r
  else x.

(** [Math.round]: the nearest integer, a tie goes up. *)
Definition round (x : float) : float :=
  let f := floor x in
  let r :=
    if PrimFloat.ltb (PrimFloat.sub x f)
                     (PrimFloat.div PrimFloat.one PrimFloat.two)
    then f else PrimFloat.add f PrimFloat.one in
  (* a zero takes the sign of [x] *)
  if PrimFloat.eqb r PrimFloat.zero then PrimFloat.mul x PrimFloat.zero else r.

(** [Math.max] and [Math.min]: [NaN] if an argument is, and [+0] above
    [-0]. *)
Definition max (x y : float) : float :=
  if is_nan x || is_nan y then PrimFloat.nan
  else if PrimFloat.ltb x y then y
  else if PrimFloat.ltb y x then x
  else if PrimFloat.eqb x PrimFloat.zero then PrimFloat.add x y
  else x.

Definition min (x y : float) : float :=
  if is_nan x || is_nan y then PrimFloat.nan
  else if PrimFloat.ltb y x then y
  else if PrimFloat.ltb x y then x
  else if PrimFloat.eqb x PrimFloat.zero
       then PrimFloat.opp (PrimFloat.add (PrimFloat.opp x) (PrimFloat.opp y))
  else x.

End F64.

#[export] Instance float_Number : Number float := {|
  ofZ := F64.ofZ;
  add := PrimFloat.add;
  sub := PrimFloat.sub;
  mul := PrimFloat.mul;
  div := PrimFloat.div;
  neg := PrimFloat.opp;
  ltb := PrimFloat.ltb;
  Math_abs := PrimFloat.abs;
  Math_max := F64.max;
  Math_min := F64.min;
  Math_round := F64.round
|}.

(** [Math.PI] and the sine and cosine behind [CanvasRenderingContext2D.rotate]. *)
Class Trig (N : Type) : Type := {
  Math_PI : N;
  Math_cos : N -> N;
  Math_sin : N -> N
}.

(** Angles counted so that [Math_PI] is two quarter turns, with the exact
    sine and cosine of a whole number of quarter turns.  Between quarter
    turns the two functions are constant; only whole quarter turns are
    evaluated with this instance. *)
Definition quarter_cos (a : Q) : Q :=
  match (Qfloor a mod 4)%Z with
  | 0%Z => 1
  | 2%Z => - (1)
  | _ => 0
  end.

Definition quarter_sin (a : Q) : Q :=
  match (Qfloor a mod 4)%Z with
  | 1%Z => 1
  | 3%Z => - (1)
  | _ => 0
  end.

Definition quarter_turns : Trig Q := {|
  Math_PI := 2;
  Math_cos := quarter_cos;
  Math_sin := quarter_sin
|}.

(** ** Browser values *)

Record File : Type := { fileName : string }.

Record MouseEvent (N : Type) : Type := {
  clientX : N;
  clientY : N
}.

(** The part of [getBoundingClientRect()] the click handler reads. *)
Record DOMRect (N : Type) : Type := {
  rectLeft : N;
  rectTop : N
}.

(** The four properties of the image element the resolver reads. *)
Record HTMLImageElement (N : Type) : Type := {
  naturalWidth : N;
  naturalHeight : N;
  clientWidth : N;
  clientHeight : N
}.

(** A decoded [new Image()]. *)
Record LoadedImage (N : Type) : Type := {
  imageSrc : string;
  imageNaturalWidth : N;
  imageNaturalHeight : N
}.

(** A value is falsy when it is [null] or the empty string. *)
Definition truthy (v : option string) : bool :=
  match v with
  | None => false
  | Some u => negb (String.eqb u EmptyString)
  end.

(** [Array.prototype.slice(start, end)]: a negative bound counts from the
    end, and both bounds are clamped to the array. *)
Definition slice {A : Type} (a : list A) (start end_ : Z) : list A :=
  let len := Z.of_nat (List.length a) in
  let k := if (start <? 0)%Z then Z.max (len + start) 0 else Z.min start len in
  let final := if (end_ <? 0)%Z then Z.max (len + end_) 0 else Z.min end_ len in
  firstn (Z.to_nat (final - k)) (skipn (Z.to_nat k) a).

(** [a[i]] for an integer [i]: [undefined] outside the array. *)
Definition index {A : Type} (a : list A) (i : Z) : option A :=
  if (i <? 0)%Z then None else nth_error a (Z.to_nat i).

(** The decimal form a template literal gives an integer. *)
Definition toString (n : Z) : string := NilZero.string_of_int (Z.to_int n).

(** [s.split(sep)] for a separator of one character: the pieces between the
    separators, in order; never the empty array. *)
Fixpoint split (sep : ascii) (s : string) : list string :=
  match s with
  | EmptyString => [EmptyString]
  | String c rest =>
    if Ascii.eqb c sep then EmptyString :: split sep rest
    else
      match split sep rest with
      | piece :: pieces => String c piece :: pieces
      | [] => [String c EmptyString]
      end
  end.

(** [a.join(sep)] *)
Fixpoint join (sep : string) (a : list string) : string :=
  match a with
  | [] => EmptyString
  | piece :: rest =>
    match rest with
    | [] => piece
    | _ :: _ => (piece ++ sep ++ join sep rest)%string
    end
  end.

(** ** The 2D drawing context

    The transformation calls of [CanvasRenderingContext2D] multiply the
    current transformation matrix on the right, so the call made last is the
    one applied first to what is drawn.  A context keeps its calls, and each
    drawing call records the matrix in force. *)
Module Canvas.

Section Numbers.
Context {N : Type} `{Number N}.

(** The matrix [[a c e] [b d f] [0 0 1]]. *)
Record Matrix : Type := {
  a : N; b : N; c : N; d : N; e : N; f : N
}.

Definition identity : Matrix :=
  {| a := ofZ 1; b := ofZ 0; c := ofZ 0; d := ofZ 1; e := ofZ 0; f := ofZ 0 |}.

Definition multiply (m n : Matrix) : Matrix :=
  {| a := (a m * a n + c m * b n)%js;
     b := (b m * a n + d m * b n)%js;
     c := (a m * c n + c m * d n)%js;
     d := (b m * c n + d m * d n)%js;
     e := (a m * e n + c m * f n + e m)%js;
     f := (b m * e n + d m * f n + f m)%js |}.

(** Where the matrix puts the point [(px, py)]. *)
Definition transformPoint (m : Matrix) (p : N * N) : N * N :=
  let '(px, py) := p in
  ((a m * px + c m * py + e m)%js, (b m * px + d m * py + f m)%js).

Record Font : Type := {
  fontStyle : string;
  fontWeight : string;
  fontSizePx : N;
  fontFamily : string
}.

Inductive Call : Type :=
| save
| restore
| translate (x y : N)
| rotate (angle : N)
| scale (x y : N)
| fillRect (fillStyle : string) (transform : Matrix) (x y w h : N)
| drawImage (image : LoadedImage N) (transform : Matrix) (dx dy : N)
    (size : option (N * N))
| fillText (fillStyle : string) (font : Font) (textAlign : string)
    (textBaseline : string) (transform : Matrix) (text : string) (x y : N).

Record Context2D : Type := {
  width : N;
  height : N;
  transform : Matrix;
  saved : list Matrix;
  calls : list Call
}.

(** [document.createElement('canvas')] with its dimensions set. *)
Definition create (width height : N) : Context2D :=
  {| width := width; height := height; transform := identity;
     saved := []; calls := [] |}.

Definition call (k : Call) (m : Matrix) (stack : list Matrix) (ctx : Context2D)
  : Context2D :=
  {| width := width ctx; height := height ctx; transform := m;
     saved := stack; calls := (calls ctx ++ [k])%list |}.

Definition ctx_save (ctx : Context2D) : Context2D :=
  call save (transform ctx) (transform ctx :: saved ctx) ctx.

Definition ctx_restore (ctx : Context2D) : Context2D :=
  match saved ctx with
  | [] => call restore (transform ctx) [] ctx
  | m :: stack => call restore m stack ctx
  end.

Definition ctx_translate (x y : N) (ctx : Context2D) : Context2D :=
  call (translate x y)
       (multiply (transform ctx)
          {| a := ofZ 1; b := ofZ 0; c := ofZ 0; d := ofZ 1; e := x; f := y |})
       (saved ctx) ctx.

Definition ctx_rotate `{Trig N} (angle : N) (ctx : Context2D) : Context2D :=
  call (rotate angle)
       (multiply (transform ctx)
          {| a := Math_cos angle; b := Math_sin angle;
             c := (- Math_sin angle)%js; d := Math_cos angle;
             e := ofZ 0; f := ofZ 0 |})
       (saved ctx) ctx.

Definition ctx_scale (x y : N) (ctx : Context2D) : Context2D :=
  call (scale x y)
       (multiply (transform ctx)
          {| a := x; b := ofZ 0; c := ofZ 0; d := y; e := ofZ 0; f := ofZ 0 |})
       (saved ctx) ctx.

Definition ctx_fillRect (fillStyle : string) (x y w h : N) (ctx : Context2D)
  : Context2D :=
  call (fillRect fillStyle (transform ctx) x y w h)
       (transform ctx) (saved ctx) ctx.

Definition ctx_drawImage (image : LoadedImage N) (dx dy : N)
    (size : option (N * N)) (ctx : Context2D) : Context2D :=
  call (drawImage image (transform ctx) dx dy size)
       (transform ctx) (saved ctx) ctx.

Definition ctx_fillText (fillStyle : string) (font : Font)
    (textAlign textBaseline text : string) (x y : N) (ctx : Context2D)
  : Context2D :=
  call (fillText fillStyle font textAlign textBaseline
          (transform ctx) text x y)
       (transform ctx) (saved ctx) ctx.

End Numbers.

Arguments Matrix N : clear implicits.
Arguments Font N : clear implicits.
Arguments Call N : clear implicits.
Arguments Context2D N : clear implicits.

End Canvas.

(** ** The overlay records ([InteractiveText.tsx]) *)

Inductive FontWeight : Type := weight_normal | weight_bold.
Inductive FontStyle : Type := style_normal | style_italic.

Definition FontWeight_toString (w : FontWeight) : string :=
  match w with weight_normal => "normal" | weight_bold => "bold" end.

Definition FontStyle_toString (st : FontStyle) : string :=
  match st with style_normal => "normal" | style_italic => "italic" end.

Module ActiveText.

Record t (N : Type) : Type := {
  text : string;
  fontFamily : string;
  (** in display pixels *)
  fontSize : N;
  fontWeight : FontWeight;
  fontStyle : FontStyle;
  color : string;
  (** in natural image coordinates *)
  x : N;
  y : N;
  (** in display coordinates, relative to the image container *)
  displayX : N;
  displayY : N
}.

End ActiveText.

Module ComponentLayer.

Record t (N : Type) : Type := {
  id : string;
  src : string;
  originalFile : File;
  (** centre, as a fraction of the container *)
  x : N;
  y : N;
  scale : N;
  (** degrees *)
  rotation : N;
  flipH : bool;
  flipV : bool
}.

End ComponentLayer.

Record Geometry (N : Type) : Type := {
  renderedWidth : N;
  renderedHeight : N;
  offsetX : N;
  offsetY : N;
  scale : N
}.

(** ** [InteractiveText.tsx] *)
Module InteractiveText.

Section Numbers.
Context {N : Type} `{Number N}.

Definition getRenderedImageGeometry (imageElement : HTMLImageElement N)
  : Geometry N :=
  let naturalAspectRatio :=
    (naturalWidth imageElement / naturalHeight imageElement)%js in
  let clientAspectRatio :=
    (clientWidth imageElement / clientHeight imageElement)%js in
  let '(renderedWidth, renderedHeight, offsetX, offsetY) :=
    if (naturalAspectRatio >? clientAspectRatio)%js then
      let renderedWidth := clientWidth imageElement in
      let renderedHeight := (clientWidth imageElement / naturalAspectRatio)%js in
      let offsetX := ofZ 0 in
      let offsetY := ((clientHeight imageElement - renderedHeight) / ofZ 2)%js in
      (renderedWidth, renderedHeight, offsetX, offsetY)
    else
      let renderedHeight := clientHeight imageElement in
      let renderedWidth := (clientHeight imageElement * naturalAspectRatio)%js in
      let offsetY := ofZ 0 in
      let offsetX := ((clientWidth imageElement - renderedWidth) / ofZ 2)%js in
      (renderedWidth, renderedHeight, offsetX, offsetY) in
  let scale := (naturalWidth imageElement / renderedWidth)%js in
  {| renderedWidth := renderedWidth; renderedHeight := renderedHeight;
     offsetX := offsetX; offsetY := offsetY; scale := scale |}.

(** [dragStart.current] *)
Record DragStart : Type := {
  mouseX : N;
  mouseY : N;
  textX : N;
  textY : N
}.

(** [resizeStart.current] *)
Record ResizeStart : Type := {
  x : N;
  y : N;
  fontSize : N
}.

(** The state and the refs of one mounted component. *)
Record Local : Type := {
  isDragging : bool;
  isResizing : bool;
  dragStart : DragStart;
  resizeStart : ResizeStart
}.

Definition mount : Local :=
  {| isDragging := false; isResizing := false;
     dragStart := {| mouseX := ofZ 0; mouseY := ofZ 0;
                     textX := ofZ 0; textY := ofZ 0 |};
     resizeStart := {| x := ofZ 0; y := ofZ 0; fontSize := ofZ 0 |} |}.

Definition handleDragStart (textData : ActiveText.t N) (e : MouseEvent N)
    (local : Local) : Local :=
  {| isDragging := true; isResizing := isResizing local;
     dragStart := {| mouseX := clientX e; mouseY := clientY e;
                     textX := ActiveText.displayX textData;
                     textY := ActiveText.displayY textData |};
     resizeStart := resizeStart local |}.

Definition handleResizeStart (textData : ActiveText.t N) (e : MouseEvent N)
    (local : Local) : Local :=
  {| isDragging := isDragging local; isResizing := true;
     dragStart := dragStart local;
     resizeStart := {| x := clientX e; y := clientY e;
                       fontSize := ActiveText.fontSize textData |} |}.

(** The drag branch of [handleMouseMove]: the record handed to [onUpdate]. *)
Definition dragUpdate (local : Local) (textData : ActiveText.t N)
    (geometry : Geometry N) (e : MouseEvent N) : ActiveText.t N :=
  let dx := (clientX e - mouseX (dragStart local))%js in
  let dy := (clientY e - mouseY (dragStart local))%js in
  let newDisplayX := (textX (dragStart local) + dx)%js in
  let newDisplayY := (textY (dragStart local) + dy)%js in
  let newDisplayX :=
    Math_max (offsetX geometry)
      (Math_min newDisplayX (renderedWidth geometry + offsetX geometry)%js) in
  let newDisplayY :=
    Math_max (offsetY geometry)
      (Math_min newDisplayY (renderedHeight geometry + offsetY geometry)%js) in
  let imageRelativeX := (newDisplayX - offsetX geometry)%js in
  let imageRelativeY := (newDisplayY - offsetY geometry)%js in
  {| ActiveText.text := ActiveText.text textData;
     ActiveText.fontFamily := ActiveText.fontFamily textData;
     ActiveText.fontSize := ActiveText.fontSize textData;
     ActiveText.fontWeight := ActiveText.fontWeight textData;
     ActiveText.fontStyle := ActiveText.fontStyle textData;
     ActiveText.color := ActiveText.color textData;
     ActiveText.displayX := newDisplayX;
     ActiveText.displayY := newDisplayY;
     ActiveText.x := (imageRelativeX * scale geometry)%js;
     ActiveText.y := (imageRelativeY * scale geometry)%js |}.

(** The resize branch. *)
Definition resizeUpdate (local : Local) (textData : ActiveText.t N)
    (e : MouseEvent N) : ActiveText.t N :=
  let dx := (clientX e - x (resizeStart local))%js in
  let dy := (clientY e - y (resizeStart local))%js in
  let delta := if (Math_abs dx >? Math_abs dy)%js then dx else dy in
  let newFontSize :=
    Math_max (ofZ 8) (fontSize (resizeStart local) + delta * half)%js in
  {| ActiveText.text := ActiveText.text textData;
     ActiveText.fontFamily := ActiveText.fontFamily textData;
     ActiveText.fontSize := newFontSize;
     ActiveText.fontWeight := ActiveText.fontWeight textData;
     ActiveText.fontStyle := ActiveText.fontStyle textData;
     ActiveText.color := ActiveText.color textData;
     ActiveText.displayX := ActiveText.displayX textData;
     ActiveText.displayY := ActiveText.displayY textData;
     ActiveText.x := ActiveText.x textData;
     ActiveText.y := ActiveText.y textData |}.

(** The window's [mousemove] listener: the records passed to [onUpdate], in
    the order of the calls. *)
Definition handleMouseMove (local : Local) (textData : ActiveText.t N)
    (imageRef : HTMLImageElement N) (e : MouseEvent N)
  : list (ActiveText.t N) :=
  let geometry := getRenderedImageGeometry imageRef in
  ((if isDragging local then [dragUpdate local textData geometry e] else [])
   ++
   (if isResizing local then [resizeUpdate local textData e] else []))%list.

Definition handleMouseUp (local : Local) : Local :=
  {| isDragging := false; isResizing := false;
     dragStart := dragStart local; resizeStart := resizeStart local |}.

End Numbers.

Arguments DragStart N : clear implicits.
Arguments ResizeStart N : clear implicits.
Arguments Local N : clear implicits.

End InteractiveText.

(** ** [InteractiveComponent.tsx] *)
Module InteractiveComponent.

Section Numbers.
Context {N : Type} `{Number N}.

(** This copy of the resolver returns no [scale]. *)
Record Geometry : Type := {
  renderedWidth : N;
  renderedHeight : N;
  offsetX : N;
  offsetY : N
}.

Definition getRenderedImageGeometry (imageElement : HTMLImageElement N)
  : Geometry :=
  let naturalAspectRatio :=
    (naturalWidth imageElement / naturalHeight imageElement)%js in
  let clientAspectRatio :=
    (clientWidth imageElement / clientHeight imageElement)%js in
  if (naturalAspectRatio >? clientAspectRatio)%js then
    let renderedWidth := clientWidth imageElement in
    let renderedHeight := (clientWidth imageElement / naturalAspectRatio)%js in
    let offsetX := ofZ 0 in
    let offsetY := ((clientHeight imageElement - renderedHeight) / ofZ 2)%js in
    {| renderedWidth := renderedWidth; renderedHeight := renderedHeight;
       offsetX := offsetX; offsetY := offsetY |}
  else
    let renderedHeight := clientHeight imageElement in
    let renderedWidth := (clientHeight imageElement * naturalAspectRatio)%js in
    let offsetY := ofZ 0 in
    let offsetX := ((clientWidth imageElement - renderedWidth) / ofZ 2)%js in
    {| renderedWidth := renderedWidth; renderedHeight := renderedHeight;
       offsetX := offsetX; offsetY := offsetY |}.

(** [dragStart.current] *)
Record DragStart : Type := {
  mouseX : N;
  mouseY : N;
  componentX : N;
  componentY : N
}.

Record Local : Type := {
  isDragging : bool;
  dragStart : DragStart
}.

Definition mount : Local :=
  {| isDragging := false;
     dragStart := {| mouseX := ofZ 0; mouseY := ofZ 0;
                     componentX := ofZ 0; componentY := ofZ 0 |} |}.

(** Where the layer is shown. *)
Definition displayX (data : ComponentLayer.t N) (geometry : Geometry) : N :=
  (offsetX geometry + ComponentLayer.x data * renderedWidth geometry)%js.

Definition displayY (data : ComponentLayer.t N) (geometry : Geometry) : N :=
  (offsetY geometry + ComponentLayer.y data * renderedHeight geometry)%js.

(** [onSelect] is the caller's; the local part of [handleDragStart]. *)
Definition handleDragStart (data : ComponentLayer.t N) (e : MouseEvent N)
    (local : Local) : Local :=
  {| isDragging := true;
     dragStart := {| mouseX := clientX e; mouseY := clientY e;
                     componentX := ComponentLayer.x data;
                     componentY := ComponentLayer.y data |} |}.

(** The position before the clamp. *)
Definition draggedTo (local : Local) (geometry : Geometry) (e : MouseEvent N)
  : N * N :=
  let dx := (clientX e - mouseX (dragStart local))%js in
  let dy := (clientY e - mouseY (dragStart local))%js in
  let newX := (componentX (dragStart local) + dx / renderedWidth geometry)%js in
  let newY := (componentY (dragStart local) + dy / renderedHeight geometry)%js in
  (newX, newY).

(** The window's [mousemove] listener: the layer passed to [onUpdate], if
    any. *)
Definition handleMouseMove (local : Local) (data : ComponentLayer.t N)
    (imageRef : HTMLImageElement N) (e : MouseEvent N)
  : option (ComponentLayer.t N) :=
  let geometry := getRenderedImageGeometry imageRef in
  if isDragging local then
    let '(newX, newY) := draggedTo local geometry e in
    (* Constrain to 0-1 range *)
    let newX := Math_max (ofZ 0) (Math_min (ofZ 1) newX) in
    let newY := Math_max (ofZ 0) (Math_min (ofZ 1) newY) in
    Some {| ComponentLayer.id := ComponentLayer.id data;
            ComponentLayer.src := ComponentLayer.src data;
            ComponentLayer.originalFile := ComponentLayer.originalFile data;
            ComponentLayer.x := newX;
            ComponentLayer.y := newY;
            ComponentLayer.scale := ComponentLayer.scale data;
            ComponentLayer.rotation := ComponentLayer.rotation data;
            ComponentLayer.flipH := ComponentLayer.flipH data;
            ComponentLayer.flipV := ComponentLayer.flipV data |}
  else None.

Definition handleMouseUp (local : Local) : Local :=
  {| isDragging := false; dragStart := dragStart local |}.

End Numbers.

Arguments Geometry N : clear implicits.
Arguments DragStart N : clear implicits.
Arguments Local N : clear implicits.

End InteractiveComponent.

(** ** [App.tsx] *)
Module App.

Inductive Tool : Type := ratio | component | lifestyle | text | adjustment.

(** How a promise settles; [message] is [err.message]. *)
Inductive Settled (A : Type) : Type :=
| resolved (value : A)
| rejected (message : option string).

Arguments rejected {A} message.

Section Numbers.
Context {N : Type} `{Number N}.

(** What becomes of [img.src = ...]: the decoded size, or an error event. *)
Inductive ImageLoad : Type :=
| onload (naturalWidth naturalHeight : N)
| onerror.

(** What becomes of the drawing in the merge: [getContext('2d')] gives
    nothing, a canvas call throws, or all calls return. *)
Inductive Drawing : Type := no_context | draw_throws | draws.

(** The [useState] cells of the component. *)
Record State : Type := {
  originalImage : option File;
  history : list string;
  historyIndex : Z;
  activeTool : Tool;
  isLoading : bool;
  error : option string;
  activeText : option (ActiveText.t N);
  textSuggestions : list string;
  isSuggestingText : bool;
  componentLayers : list (ComponentLayer.t N);
  activeComponentId : option string
}.

(** The state updaters. *)
Definition setOriginalImage (v : option File) (s : State) : State :=
  {| originalImage := v;
     history := history s;
     historyIndex := historyIndex s;
     activeTool := activeTool s;
     isLoading := isLoading s;
     error := error s;
     activeText := activeText s;
     textSuggestions := textSuggestions s;
     isSuggestingText := isSuggestingText s;
     componentLayers := componentLayers s;
     activeComponentId := activeComponentId s |}.

Definition setHistory (v : list string) (s : State) : State :=
  {| originalImage := originalImage s;
     history := v;
     historyIndex := historyIndex s;
     activeTool := activeTool s;
     isLoading := isLoading s;
     error := error s;
     activeText := activeText s;
     textSuggestions := textSuggestions s;
     isSuggestingText := isSuggestingText s;
     componentLayers := componentLayers s;
     activeComponentId := activeComponentId s |}.

Definition setHistoryIndex (v : Z) (s : State) : State :=
  {| originalImage := originalImage s;
     history := history s;
     historyIndex := v;
     activeTool := activeTool s;
     isLoading := isLoading s;
     error := error s;
     activeText := activeText s;
     textSuggestions := textSuggestions s;
     isSuggestingText := isSuggestingText s;
     componentLayers := componentLayers s;
     activeComponentId := activeComponentId s |}.

Definition setActiveTool (v : Tool) (s : State) : State :=
  {| originalImage := originalImage s;
     history := history s;
     historyIndex := historyIndex s;
     activeTool := v;
     isLoading := isLoading s;
     error := error s;
     activeText := activeText s;
     textSuggestions := textSuggestions s;
     isSuggestingText := isSuggestingText s;
     componentLayers := componentLayers s;
     activeComponentId := activeComponentId s |}.

Definition setIsLoading (v : bool) (s : State) : State :=
  {| originalImage := originalImage s;
     history := history s;
     historyIndex := historyIndex s;
     activeTool := activeTool s;
     isLoading := v;
     error := error s;
     activeText := activeText s;
     textSuggestions := textSuggestions s;
     isSuggestingText := isSuggestingText s;
     componentLayers := componentLayers s;
     activeComponentId := activeComponentId s |}.

Definition setError (v : option string) (s : State) : State :=
  {| originalImage := originalImage s;
     history := history s;
     historyIndex := historyIndex s;
     activeTool := activeTool s;
     isLoading := isLoading s;
     error := v;
     activeText := activeText s;
     textSuggestions := textSuggestions s;
     isSuggestingText := isSuggestingText s;
     componentLayers := componentLayers s;
     activeComponentId := activeComponentId s |}.

Definition setActiveText (v : option (ActiveText.t N)) (s : State) : State :=
  {| originalImage := originalImage s;
     history := history s;
     historyIndex := historyIndex s;
     activeTool := activeTool s;
     isLoading := isLoading s;
     error := error s;
     activeText := v;
     textSuggestions := textSuggestions s;
     isSuggestingText := isSuggestingText s;
     componentLayers := componentLayers s;
     activeComponentId := activeComponentId s |}.

Definition setTextSuggestions (v : list string) (s : State) : State :=
  {| originalImage := originalImage s;
     history := history s;
     historyIndex := historyIndex s;
     activeTool := activeTool s;
     isLoading := isLoading s;
     error := error s;
     activeText := activeText s;
     textSuggestions := v;
     isSuggestingText := isSuggestingText s;
     componentLayers := componentLayers s;
     activeComponentId := activeComponentId s |}.

Definition setIsSuggestingText (v : bool) (s : State) : State :=
  {| originalImage := originalImage s;
     history := history s;
     historyIndex := historyIndex s;
     activeTool := activeTool s;
     isLoading := isLoading s;
     error := error s;
     activeText := activeText s;
     textSuggestions := textSuggestions s;
     isSuggestingText := v;
     componentLayers := componentLayers s;
     activeComponentId := activeComponentId s |}.

Definition setComponentLayers (v : list (ComponentLayer.t N)) (s : State) : State :=
  {| originalImage := originalImage s;
     history := history s;
     historyIndex := historyIndex s;
     activeTool := activeTool s;
     isLoading := isLoading s;
     error := error s;
     activeText := activeText s;
     textSuggestions := textSuggestions s;
     isSuggestingText := isSuggestingText s;
     componentLayers := v;
     activeComponentId := activeComponentId s |}.

Definition setActiveComponentId (v : option string) (s : State) : State :=
  {| originalImage := originalImage s;
     history := history s;
     historyIndex := historyIndex s;
     activeTool := activeTool s;
     isLoading := isLoading s;
     error := error s;
     activeText := activeText s;
     textSuggestions := textSuggestions s;
     isSuggestingText := isSuggestingText s;
     componentLayers := componentLayers s;
     activeComponentId := v |}.

Definition initial : State :=
  {| originalImage := None; history := []; historyIndex := -1;
     activeTool := ratio; isLoading := false; error := None;
     activeText := None; textSuggestions := []; isSuggestingText := false;
     componentLayers := []; activeComponentId := None |}.

Definition displayedImage (s : State) : option string :=
  match index (history s) (historyIndex s) with
  | Some url => if truthy (Some url) then Some url else None
  | None => None
  end.

Definition activeComponent (s : State) : option (ComponentLayer.t N) :=
  find (fun c => match activeComponentId s with
                 | Some i => String.eqb (ComponentLayer.id c) i
                 | None => false
                 end)
       (componentLayers s).

Definition handleReset (s : State) : State :=
  setActiveComponentId None
  (setComponentLayers []
  (setIsSuggestingText false
  (setTextSuggestions []
  (setActiveText None
  (setError None
  (setIsLoading false
  (setActiveTool ratio
  (setHistoryIndex (-1)
  (setHistory []
  (setOriginalImage None s)))))))))).

Definition pushToHistory (imageDataUrl : string) (s : State) : State :=
  let s1 := setError None s in
  let newHistory :=
    (slice (history s) 0 (historyIndex s + 1) ++ [imageDataUrl])%list in
  let s2 := setHistory newHistory s1 in
  setHistoryIndex (Z.of_nat (List.length newHistory) - 1) s2.

Definition handleFileSelect (files : option (list File))
    (read : Settled string) (s : State) : State :=
  match files with
  | Some (file :: _) =>
    let s := setError None (setIsLoading true (setOriginalImage (Some file) s)) in
    let s :=
      match read with
      | resolved dataUrl =>
        setActiveComponentId None
        (setComponentLayers []
        (setTextSuggestions []
        (setActiveText None
        (setActiveTool ratio
        (setHistoryIndex 0
        (setHistory [dataUrl] s))))))
      | rejected _ => setError (Some "Could not load image file.") s
      end in
    setIsLoading false s
  | _ => s
  end.

Definition handleUndo (s : State) : State :=
  if (historyIndex s >? 0)%Z then
    setActiveComponentId None
    (setComponentLayers []
    (setActiveText None
    (setHistoryIndex (historyIndex s - 1) s)))
  else s.

Definition handleRedo (s : State) : State :=
  if (historyIndex s <? Z.of_nat (List.length (history s)) - 1)%Z then
    setActiveComponentId None
    (setComponentLayers []
    (setActiveText None
    (setHistoryIndex (historyIndex s + 1) s)))
  else s.

(** The anchor element that [handleDownload] builds and clicks. *)
Record Download : Type := { href : string; download : string }.

Definition handleDownload (s : State) : option Download :=
  match displayedImage s with
  | None => None
  | Some displayedImage =>
    let stem :=
      match originalImage s with
      | Some file =>
        Some (join "." (slice (split "." (fileName file)) 0 (-1)))
      | None => None
      end in
    let originalName :=
      match stem with
      | Some name => if truthy (Some name) then name else "image"
      | None => "image"
      end in
    Some {| href := displayedImage;
            download := (originalName ++ "-editphoto-edited.png")%string |}
  end.

(** [err.message || fallback] *)
Definition messageOr (message : option string) (fallback : string) : string :=
  match message with
  | Some m => if truthy (Some m) then m else fallback
  | None => fallback
  end.

(** [generateAdjustedImage] is the remote collaborator; [outcome] is how its
    promise settles. *)
Definition handleApplyAdjustment (prompt : string) (outcome : Settled string)
    (s : State) : State :=
  match originalImage s with
  | None => s
  | Some _ =>
    let s := setError None (setIsLoading true s) in
    let s :=
      match outcome with
      | resolved adjustedImageUrl => pushToHistory adjustedImageUrl s
      | rejected message =>
        setError
          (Some (messageOr message
             "An unknown error occurred while applying the adjustment.")) s
      end in
    setIsLoading false s
  end.

(** The canvas the [onload] callback of [handleApplyRatio] draws. *)
Definition ratioCanvas (img : LoadedImage N) (aspectRatio : N)
  : Canvas.Context2D N :=
  let originalWidth := imageNaturalWidth img in
  let originalHeight := imageNaturalHeight img in
  let originalAspectRatio := (originalWidth / originalHeight)%js in
  let '(newWidth, newHeight) :=
    if (aspectRatio >? originalAspectRatio)%js then
      let newHeight := originalHeight in
      let newWidth := (newHeight * aspectRatio)%js in
      (newWidth, newHeight)
    else
      let newWidth := originalWidth in
      let newHeight := (newWidth / aspectRatio)%js in
      (newWidth, newHeight) in
  let newWidth := Math_round newWidth in
  let newHeight := Math_round newHeight in
  let ctx := Canvas.create newWidth newHeight in
  let ctx := Canvas.ctx_fillRect "#FFFFFF" (ofZ 0) (ofZ 0) newWidth newHeight ctx in
  let x := ((newWidth - originalWidth) / ofZ 2)%js in
  let y := ((newHeight - originalHeight) / ofZ 2)%js in
  Canvas.ctx_drawImage img x y None ctx.

(** [canvas.toDataURL('image/png')] *)
Variable toDataURL : Canvas.Context2D N -> string.

Definition handleApplyRatio (aspectRatio : option N) (load : ImageLoad)
    (context2d : bool) (s : State) : State :=
  match displayedImage s, aspectRatio with
  | Some displayedImage, Some aspectRatio =>
    let s := setError None (setIsLoading true s) in
    match load with
    | onload naturalWidth naturalHeight =>
      let img := {| imageSrc := displayedImage;
                    imageNaturalWidth := naturalWidth;
                    imageNaturalHeight := naturalHeight |} in
      if context2d then
        let newImageDataUrl := toDataURL (ratioCanvas img aspectRatio) in
        setIsLoading false (pushToHistory newImageDataUrl s)
      else
        setIsLoading false
          (setError (Some "Could not create canvas context.") s)
    | onerror =>
      setIsLoading false
        (setError (Some "Could not load current image for processing.") s)
    end
  | _, _ => s
  end.

Definition getRenderedImageGeometry
    (imageElement : option (HTMLImageElement N)) : option (Geometry N) :=
  match imageElement with
  | None => None
  | Some imageElement =>
    let naturalAspectRatio :=
      (naturalWidth imageElement / naturalHeight imageElement)%js in
    let clientAspectRatio :=
      (clientWidth imageElement / clientHeight imageElement)%js in
    let '(renderedWidth, renderedHeight, offsetX, offsetY) :=
      if (naturalAspectRatio >? clientAspectRatio)%js then
        let renderedWidth := clientWidth imageElement in
        let renderedHeight :=
          (clientWidth imageElement / naturalAspectRatio)%js in
        let offsetX := ofZ 0 in
        let offsetY :=
          ((clientHeight imageElement - renderedHeight) / ofZ 2)%js in
        (renderedWidth, renderedHeight, offsetX, offsetY)
      else
        let renderedHeight := clientHeight imageElement in
        let renderedWidth :=
          (clientHeight imageElement * naturalAspectRatio)%js in
        let offsetY := ofZ 0 in
        let offsetX :=
          ((clientWidth imageElement - renderedWidth) / ofZ 2)%js in
        (renderedWidth, renderedHeight, offsetX, offsetY) in
    let scale := (naturalWidth imageElement / renderedWidth)%js in
    Some {| renderedWidth := renderedWidth; renderedHeight := renderedHeight;
            offsetX := offsetX; offsetY := offsetY; scale := scale |}
  end.

Definition isText (tool : Tool) : bool :=
  match tool with text => true | _ => false end.

Definition isNull {A : Type} (v : option A) : bool :=
  match v with None => true | Some _ => false end.

Definition handleImageClick (imageRef : option (HTMLImageElement N))
    (containerRect : DOMRect N) (e : MouseEvent N) (s : State) : State :=
  if negb (isText (activeTool s)) || isNull imageRef
     || negb (isNull (activeText s)) then s
  else
    match getRenderedImageGeometry imageRef with
    | None => s
    | Some geometry =>
      let displayX := (clientX e - rectLeft containerRect)%js in
      let displayY := (clientY e - rectTop containerRect)%js in
      let imageRelativeX := (displayX - offsetX geometry)%js in
      let imageRelativeY := (displayY - offsetY geometry)%js in
      if (imageRelativeX <? ofZ 0)%js
         || (imageRelativeX >? renderedWidth geometry)%js
         || (imageRelativeY <? ofZ 0)%js
         || (imageRelativeY >? renderedHeight geometry)%js
      then s (* Click was outside the actual image *)
      else
        setActiveText
          (Some {| ActiveText.text := "Your Text Here";
                   ActiveText.fontFamily := "Roboto";
                   ActiveText.fontSize := ofZ 50;
                   ActiveText.fontWeight := weight_bold;
                   ActiveText.fontStyle := style_normal;
                   ActiveText.color := "#FFFFFF";
                   ActiveText.displayX := displayX;
                   ActiveText.displayY := displayY;
                   ActiveText.x := (imageRelativeX * scale geometry)%js;
                   ActiveText.y := (imageRelativeY * scale geometry)%js |}) s
    end.

(** The canvas the [onload] callback of [handleAddText] draws. *)
Definition textCanvas (img : LoadedImage N) (activeText : ActiveText.t N)
    (geometry : Geometry N) : Canvas.Context2D N :=
  let ctx := Canvas.create (imageNaturalWidth img) (imageNaturalHeight img) in
  let ctx := Canvas.ctx_drawImage img (ofZ 0) (ofZ 0) None ctx in
  let fontScale := scale geometry in
  Canvas.ctx_fillText (ActiveText.color activeText)
    {| Canvas.fontStyle := FontStyle_toString (ActiveText.fontStyle activeText);
       Canvas.fontWeight := FontWeight_toString (ActiveText.fontWeight activeText);
       Canvas.fontSizePx := (ActiveText.fontSize activeText * fontScale)%js;
       Canvas.fontFamily := ActiveText.fontFamily activeText |}
    "center" "middle" (ActiveText.text activeText)
    (ActiveText.x activeText) (ActiveText.y activeText) ctx.

Definition handleAddText (imageRef : option (HTMLImageElement N))
    (context2d : bool) (load : ImageLoad) (s : State) : State :=
  match displayedImage s, activeText s, imageRef with
  | Some displayedImage, Some activeText, Some _ =>
    if negb context2d then s
    else
      match load with
      | onload naturalWidth naturalHeight =>
        let img := {| imageSrc := displayedImage;
                      imageNaturalWidth := naturalWidth;
                      imageNaturalHeight := naturalHeight |} in
        match getRenderedImageGeometry imageRef with
        | None => s
        | Some geometry =>
          let newImageDataUrl :=
            toDataURL (textCanvas img activeText geometry) in
          setActiveText None (pushToHistory newImageDataUrl s)
        end
      | onerror => s
      end
  | _, _, _ => s
  end.

(** [suggestTextForImage] is the remote collaborator. *)
Definition handleSuggestText (outcome : Settled (list string)) (s : State)
  : State :=
  match originalImage s with
  | None => s
  | Some _ =>
    let s := setTextSuggestions [] (setIsSuggestingText true s) in
    let s :=
      match outcome with
      | resolved suggestions => setTextSuggestions suggestions s
      | rejected message =>
        setError (Some (messageOr message "Failed to get AI suggestions.")) s
      end in
    setIsSuggestingText false s
  end.

Definition handleSelectSuggestion (imageRef : option (HTMLImageElement N))
    (suggestion : string) (s : State) : State :=
  match imageRef with
  | None => s
  | Some _ =>
    match activeText s with
    | Some activeText =>
      setTextSuggestions []
        (setActiveText
           (Some {| ActiveText.text := suggestion;
                    ActiveText.fontFamily := ActiveText.fontFamily activeText;
                    ActiveText.fontSize := ActiveText.fontSize activeText;
                    ActiveText.fontWeight := ActiveText.fontWeight activeText;
                    ActiveText.fontStyle := ActiveText.fontStyle activeText;
                    ActiveText.color := ActiveText.color activeText;
                    ActiveText.x := ActiveText.x activeText;
                    ActiveText.y := ActiveText.y activeText;
                    ActiveText.displayX := ActiveText.displayX activeText;
                    ActiveText.displayY := ActiveText.displayY activeText |}) s)
    | None =>
      match getRenderedImageGeometry imageRef with
      | None => s
      | Some geometry =>
        let centerX :=
          (offsetX geometry + renderedWidth geometry / ofZ 2)%js in
        let centerY :=
          (offsetY geometry + renderedHeight geometry / ofZ 2)%js in
        setTextSuggestions []
          (setActiveText
             (Some {| ActiveText.text := suggestion;
                      ActiveText.fontFamily := "Roboto";
                      ActiveText.fontSize := ofZ 60;
                      ActiveText.fontWeight := weight_bold;
                      ActiveText.fontStyle := style_normal;
                      ActiveText.color := "#FFFFFF";
                      ActiveText.displayX := centerX;
                      ActiveText.displayY := centerY;
                      ActiveText.x :=
                        ((centerX - offsetX geometry) * scale geometry)%js;
                      ActiveText.y :=
                        ((centerY - offsetY geometry) * scale geometry)%js |})
             s)
      end
    end
  end.

Definition handleApplyLifestyleImage (imageDataUrl : string) (s : State)
  : State :=
  pushToHistory imageDataUrl s.

(** [read] is how [fileToDataUrl(file)] settles and [now] what [Date.now()]
    returns. *)
Definition handleComponentUpload (file : File) (read : Settled string)
    (now : Z) (s : State) : State :=
  match read with
  | resolved dataUrl =>
    let newComponent :=
      {| ComponentLayer.id := ("comp_" ++ toString now)%string;
         ComponentLayer.src := dataUrl;
         ComponentLayer.originalFile := file;
         ComponentLayer.x := half;
         ComponentLayer.y := half;
         ComponentLayer.scale := half;
         ComponentLayer.rotation := ofZ 0;
         ComponentLayer.flipH := false;
         ComponentLayer.flipV := false |} in
    setActiveComponentId (Some (ComponentLayer.id newComponent))
      (setComponentLayers (componentLayers s ++ [newComponent])%list s)
  | rejected _ =>
    setError (Some "Could not load component image file.") s
  end.

Definition handleComponentUpdate (updatedLayer : ComponentLayer.t N)
    (s : State) : State :=
  setComponentLayers
    (map (fun c => if String.eqb (ComponentLayer.id c)
                                 (ComponentLayer.id updatedLayer)
                   then updatedLayer else c)
         (componentLayers s)) s.

Definition handleDeleteComponent (s : State) : State :=
  match activeComponentId s with
  | Some i =>
    if truthy (Some i) then
      setActiveComponentId None
        (setComponentLayers
           (filter (fun c => negb (String.eqb (ComponentLayer.id c) i))
                   (componentLayers s)) s)
    else s
  | None => s
  end.

(** The canvas the merge draws once both images are loaded. *)
Definition mergeCanvas `{Trig N} (baseImage componentImage : LoadedImage N)
    (activeComponent : ComponentLayer.t N) : Canvas.Context2D N :=
  let ctx := Canvas.create (imageNaturalWidth baseImage)
                           (imageNaturalHeight baseImage) in
  (* 1. Draw base image *)
  let ctx := Canvas.ctx_drawImage baseImage (ofZ 0) (ofZ 0) None ctx in
  (* 2. Calculate component transformations *)
  let centerX :=
    (ComponentLayer.x activeComponent * imageNaturalWidth baseImage)%js in
  let centerY :=
    (ComponentLayer.y activeComponent * imageNaturalHeight baseImage)%js in
  let componentAspectRatio :=
    (imageNaturalWidth componentImage / imageNaturalHeight componentImage)%js in
  let baseWidthReference := imageNaturalWidth baseImage in
  let scaledWidth :=
    (baseWidthReference * ComponentLayer.scale activeComponent)%js in
  let drawWidth := scaledWidth in
  let drawHeight := (scaledWidth / componentAspectRatio)%js in
  (* 3. Apply transformations and draw component *)
  let ctx := Canvas.ctx_save ctx in
  let ctx := Canvas.ctx_translate centerX centerY ctx in
  let ctx :=
    Canvas.ctx_rotate
      (ComponentLayer.rotation activeComponent * Math_PI / ofZ 180)%js ctx in
  let ctx :=
    Canvas.ctx_scale
      (if ComponentLayer.flipH activeComponent then ofZ (-1) else ofZ 1)
      (if ComponentLayer.flipV activeComponent then ofZ (-1) else ofZ 1) ctx in
  let ctx :=
    Canvas.ctx_drawImage componentImage
      ((- drawWidth) / ofZ 2)%js ((- drawHeight) / ofZ 2)%js
      (Some (drawWidth, drawHeight)) ctx in
  Canvas.ctx_restore ctx.

(** [loadBase] and [loadComponent] are what becomes of the two images.  The
    promises of [loadImages] resolve on [onload] and have no [onerror]: when
    an image fails to load, [Promise.all] never settles and neither the
    [then] nor the [catch] callback runs. *)
Definition handleMergeComponent `{Trig N}
    (imageRef : option (HTMLImageElement N))
    (loadBase loadComponent : ImageLoad) (drawing : Drawing) (s : State)
  : State :=
  match displayedImage s, activeComponent s, imageRef with
  | Some displayedImage, Some activeComponent, Some _ =>
    let s := setIsLoading true s in
    match loadBase, loadComponent with
    | onload baseWidth baseHeight, onload componentWidth componentHeight =>
      let baseImage := {| imageSrc := displayedImage;
                          imageNaturalWidth := baseWidth;
                          imageNaturalHeight := baseHeight |} in
      let componentImage :=
        {| imageSrc := ComponentLayer.src activeComponent;
           imageNaturalWidth := componentWidth;
           imageNaturalHeight := componentHeight |} in
      match drawing with
      | no_context =>
        setIsLoading false
          (setError (Some "Could not create canvas context.") s)
      | draw_throws =>
        setIsLoading false
          (setError (Some "Failed to load images for merging.") s)
      | draws =>
        let newImageDataUrl :=
          toDataURL (mergeCanvas baseImage componentImage activeComponent) in
        setIsLoading false
          (handleDeleteComponent (pushToHistory newImageDataUrl s))
      end
    | _, _ => s
    end
  | _, _, _ => s
  end.

Definition switchTool (tool : Tool) (s : State) : State :=
  setActiveComponentId None (setActiveText None (setActiveTool tool s)).

(** [onUpdate={setActiveText}]: the updates of one [mousemove] are applied in
    the order of the calls. *)
Definition onTextUpdate (updates : list (ActiveText.t N)) (s : State) : State :=
  fold_left (fun s newData => setActiveText (Some newData) s) updates s.

(** The [disabled] attributes of the undo, redo and download buttons. *)
Definition undoDisabled (s : State) : bool := (historyIndex s <=? 0)%Z.

Definition redoDisabled (s : State) : bool :=
  (historyIndex s >=? Z.of_nat (List.length (history s)) - 1)%Z.

Definition downloadDisabled (s : State) : bool :=
  negb (truthy (displayedImage s)).

End Numbers.

Arguments State N : clear implicits.
Arguments ImageLoad N : clear implicits.

End App.

(** ** [RatioPanel.tsx] *)
Module RatioPanel.

Inductive AspectRatioPreset : Type :=
| preset_1_1 | preset_16_9 | preset_9_16 | custom.

Definition AspectRatioPreset_eqb (a b : AspectRatioPreset) : bool :=
  match a, b with
  | preset_1_1, preset_1_1 | preset_16_9, preset_16_9
  | preset_9_16, preset_9_16 | custom, custom => true
  | _, _ => false
  end.

Section Numbers.
Context {N : Type} `{Number N}.

Record Preset : Type := { name : AspectRatioPreset; value : option N }.

Definition presets : list Preset :=
  [ {| name := preset_1_1; value := Some (ofZ 1) |};
    {| name := preset_16_9; value := Some (ofZ 16 / ofZ 9)%js |};
    {| name := preset_9_16; value := Some (ofZ 9 / ofZ 16)%js |} ].

(** The [useState] cells.  The two numbers are integers: they start at 16
    and 9 and the inputs store [parseInt(e.target.value, 10) || 0]. *)
Record State : Type := {
  activePreset : option AspectRatioPreset;
  customWidth : Z;
  customHeight : Z
}.

Definition initial : State :=
  {| activePreset := None; customWidth := 16; customHeight := 9 |}.

Definition setActivePreset (v : option AspectRatioPreset) (s : State)
  : State :=
  {| activePreset := v; customWidth := customWidth s;
     customHeight := customHeight s |}.

(** [parsed] is what [parseInt] gives: an integer, or [None] for [NaN]. *)
Definition orZero (parsed : option Z) : Z :=
  match parsed with
  | Some n => if (n =? 0)%Z then 0%Z else n
  | None => 0%Z
  end.

Definition onCustomWidthChange (parsed : option Z) (s : State) : State :=
  {| activePreset := activePreset s; customWidth := orZero parsed;
     customHeight := customHeight s |}.

Definition onCustomHeightChange (parsed : option Z) (s : State) : State :=
  {| activePreset := activePreset s; customWidth := customWidth s;
     customHeight := orZero parsed |}.

(** The call [handleApply] makes to [onApplyRatio], if it makes one. *)
Definition handleApply (s : State) : option (option N) :=
  match activePreset s with
  | Some custom =>
    if (customWidth s >? 0)%Z && (customHeight s >? 0)%Z then
      Some (Some (ofZ (customWidth s) / ofZ (customHeight s))%js)
    else None
  | _ =>
    let selectedPreset :=
      find (fun p => match activePreset s with
                     | Some a => AspectRatioPreset_eqb (name p) a
                     | None => false
                     end) presets in
    match selectedPreset with
    | Some selectedPreset => Some (value selectedPreset)
    | None => None
    end
  end.

Definition isCustom (v : option AspectRatioPreset) : bool :=
  match v with Some custom => true | _ => false end.

Definition isApplyDisabled (isLoading : bool) (s : State) : bool :=
  isLoading || App.isNull (activePreset s)
  || (isCustom (activePreset s)
      && ((customWidth s =? 0)%Z || (customHeight s =? 0)%Z
          || (customWidth s <=? 0)%Z || (customHeight s <=? 0)%Z)).

End Numbers.

Arguments State : clear implicits.

End RatioPanel.

(** ** [geminiService.ts] *)
Module geminiService.

(** What a call gives: the value it returns, or the message of the [Error]
    it throws. *)
Inductive Outcome (A : Type) : Type :=
| returns (value : A)
| throws (message : string).

Arguments throws {A} message.

(** The promise of an [async] function whose body gives [o]. *)
Definition settle {A : Type} (o : Outcome A) : App.Settled A :=
  match o with
  | returns v => App.resolved v
  | throws message => App.rejected (Some message)
  end.

(** The fields of a response that the service reads; each may be missing. *)
Record Blob : Type := { mimeType : option string; data : option string }.

Record Part : Type := { inlineData : option Blob }.

Record Content : Type := { parts : option (list Part) }.

Record Candidate : Type := {
  content : option Content;
  finishReason : option string
}.

Record PromptFeedback : Type := {
  blockReason : option string;
  blockReasonMessage : option string
}.

Record GenerateContentResponse : Type := {
  promptFeedback : option PromptFeedback;
  candidates : option (list Candidate);
  text : option string
}.

(** [a?.f]: the field of [a], or [undefined] when [a] is. *)
Definition chain {A B : Type} (a : option A) (f : A -> option B) : option B :=
  match a with
  | Some v => f v
  | None => None
  end.

(** What a template literal writes for a value that may be [undefined]. *)
Definition template (v : option string) : string :=
  match v with
  | Some u => u
  | None => "undefined"
  end.

(** The double quote. *)
Definition quote : string := String "034"%char EmptyString.

(** The characters that [.] of a regular expression does not match. *)
Definition isLineTerminator (c : ascii) : bool :=
  Ascii.eqb c "010"%char || Ascii.eqb c "013"%char.

(** [(.*?);] from the start of [s]: the shortest run without a line
    terminator that a semicolon follows. *)
Fixpoint upToSemicolon (s : string) : option string :=
  match s with
  | EmptyString => None
  | String c rest =>
    if Ascii.eqb c ";"%char then Some EmptyString
    else if isLineTerminator c then None
    else option_map (String c) (upToSemicolon rest)
  end.

(** The group of [s.match(/:(.*?);/)]: the match is tried at each colon from
    the left. *)
Fixpoint mimeMatch (s : string) : option string :=
  match s with
  | EmptyString => None
  | String c rest =>
    if Ascii.eqb c ":"%char then
      match upToSemicolon rest with
      | Some group => Some group
      | None => mimeMatch rest
      end
    else mimeMatch rest
  end.

(** [read] is how the promise around the [FileReader] settles. *)
Definition fileToPart (read : App.Settled string) : App.Settled Part :=
  match read with
  | App.rejected error => App.rejected error
  | App.resolved dataUrl =>
    let arr := split ","%char dataUrl in
    match arr with
    | first :: second :: _ =>
      match mimeMatch first with
      | Some group =>
        if truthy (Some group) then
          App.resolved
            {| inlineData :=
                 Some {| mimeType := Some group; data := Some second |} |}
        else App.rejected (Some "Could not parse MIME type from data URL")
      | None => App.rejected (Some "Could not parse MIME type from data URL")
      end
    | _ => App.rejected (Some "Invalid data URL")
    end
  end.

Definition isSome {A : Type} (v : option A) : bool :=
  match v with Some _ => true | None => false end.

Section Builtins.
(** [String.prototype.trim] *)
Variable trim : string -> string.

Definition handleApiResponse (response : GenerateContentResponse)
    (context : string) : Outcome string :=
  (* 1. Check for prompt blocking first *)
  let blocked :=
    match promptFeedback response with
    | Some feedback =>
      if truthy (blockReason feedback) then Some feedback else None
    | None => None
    end in
  match blocked with
  | Some feedback =>
    let errorMessage :=
      ("Request was blocked. Reason: " ++ template (blockReason feedback)
       ++ ". "
       ++ (if truthy (blockReasonMessage feedback)
           then template (blockReasonMessage feedback) else EmptyString))%string in
    throws errorMessage
  | None =>
    (* 2. Try to find the image part *)
    let first := chain (candidates response) (fun cs => index cs 0) in
    let imagePartFromResponse :=
      chain (chain (chain first content) parts)
            (find (fun part => isSome (inlineData part))) in
    match chain imagePartFromResponse inlineData with
    | Some blob =>
      returns ("data:" ++ template (mimeType blob) ++ ";base64,"
               ++ template (data blob))%string
    | None =>
      (* 3. If no image, check for other reasons *)
      let finishReason := chain first finishReason in
      if truthy finishReason
         && negb (String.eqb (template finishReason) "STOP") then
        throws ("Image generation for " ++ context
                ++ " stopped unexpectedly. Reason: " ++ template finishReason
                ++ ". This often relates to safety settings.")%string
      else
        let textFeedback := option_map trim (text response) in
        throws ("The AI model did not return an image for the " ++ context
                ++ ". "
                ++ (if truthy textFeedback then
                      "The model responded with text: " ++ quote
                      ++ template textFeedback ++ quote
                    else
                      "This can happen due to safety filters or if the request is too complex. Please try rephrasing your prompt to be more direct."))%string
    end
  end.

(** [read] is how the file is read and [answer] how
    [ai.models.generateContent] settles. *)
Definition generateAdjustedImage (read : App.Settled string)
    (answer : App.Settled GenerateContentResponse) : App.Settled string :=
  match fileToPart read with
  | App.rejected error => App.rejected error
  | App.resolved originalImagePart =>
    match answer with
    | App.rejected error => App.rejected error
    | App.resolved response =>
      settle (handleApiResponse response "adjustment")
    end
  end.

Definition generateLifestyleImage (read : App.Settled string)
    (answer : App.Settled GenerateContentResponse) : App.Settled string :=
  match fileToPart read with
  | App.rejected error => App.rejected error
  | App.resolved originalImagePart =>
    match answer with
    | App.rejected error => App.rejected error
    | App.resolved response =>
      settle (handleApiResponse response "lifestyle image")
    end
  end.

End Builtins.

End geminiService.

(** ** [LifestylePanel.tsx] *)
Module LifestylePanel.

Record AnalysisResult : Type := {
  description : string;
  ideas : list string
}.

(** The [useState] cells of the panel. *)
Record State : Type := {
  productInfo : string;
  analysis : option AnalysisResult;
  detailedPrompt : string;
  isAnalyzing : bool;
  isGeneratingPrompt : bool;
  isGeneratingImage : bool;
  error : option string
}.

Definition initial : State :=
  {| productInfo := EmptyString; analysis := None;
     detailedPrompt := EmptyString; isAnalyzing := false;
     isGeneratingPrompt := false; isGeneratingImage := false;
     error := None |}.

Definition setProductInfo (v : string) (p : State) : State :=
  {| productInfo := v; analysis := analysis p;
     detailedPrompt := detailedPrompt p; isAnalyzing := isAnalyzing p;
     isGeneratingPrompt := isGeneratingPrompt p;
     isGeneratingImage := isGeneratingImage p; error := error p |}.

Definition setAnalysis (v : option AnalysisResult) (p : State) : State :=
  {| productInfo := productInfo p; analysis := v;
     detailedPrompt := detailedPrompt p; isAnalyzing := isAnalyzing p;
     isGeneratingPrompt := isGeneratingPrompt p;
     isGeneratingImage := isGeneratingImage p; error := error p |}.

Definition setDetailedPrompt (v : string) (p : State) : State :=
  {| productInfo := productInfo p; analysis := analysis p;
     detailedPrompt := v; isAnalyzing := isAnalyzing p;
     isGeneratingPrompt := isGeneratingPrompt p;
     isGeneratingImage := isGeneratingImage p; error := error p |}.

Definition setIsAnalyzing (v : bool) (p : State) : State :=
  {| productInfo := productInfo p; analysis := analysis p;
     detailedPrompt := detailedPrompt p; isAnalyzing := v;
     isGeneratingPrompt := isGeneratingPrompt p;
     isGeneratingImage := isGeneratingImage p; error := error p |}.

Definition setIsGeneratingPrompt (v : bool) (p : State) : State :=
  {| productInfo := productInfo p; analysis := analysis p;
     detailedPrompt := detailedPrompt p; isAnalyzing := isAnalyzing p;
     isGeneratingPrompt := v;
     isGeneratingImage := isGeneratingImage p; error := error p |}.

Definition setIsGeneratingImage (v : bool) (p : State) : State :=
  {| productInfo := productInfo p; analysis := analysis p;
     detailedPrompt := detailedPrompt p; isAnalyzing := isAnalyzing p;
     isGeneratingPrompt := isGeneratingPrompt p;
     isGeneratingImage := v; error := error p |}.

Definition setError (v : option string) (p : State) : State :=
  {| productInfo := productInfo p; analysis := analysis p;
     detailedPrompt := detailedPrompt p; isAnalyzing := isAnalyzing p;
     isGeneratingPrompt := isGeneratingPrompt p;
     isGeneratingImage := isGeneratingImage p; error := v |}.

(** [outcome] is how [analyzeProductForLifestyleIdeas] settles. *)
Definition handleGetIdeas (outcome : App.Settled AnalysisResult) (p : State)
  : State :=
  let p :=
    setDetailedPrompt EmptyString
      (setAnalysis None (setError None (setIsAnalyzing true p))) in
  let p :=
    match outcome with
    | App.resolved result => setAnalysis (Some result) p
    | App.rejected message =>
      setError (Some (App.messageOr message "Failed to get ideas from AI.")) p
    end in
  setIsAnalyzing false p.

(** [outcome] is how [createImagePromptFromIdea] settles. *)
Definition handleSelectIdea (idea : string) (outcome : App.Settled string)
    (p : State) : State :=
  match analysis p with
  | None => p
  | Some _ =>
    let p := setError None (setIsGeneratingPrompt true p) in
    let p :=
      match outcome with
      | App.resolved prompt => setDetailedPrompt prompt p
      | App.rejected message =>
        setError
          (Some (App.messageOr message "Failed to generate a detailed prompt."))
          p
      end in
    setIsGeneratingPrompt false p
  end.

(** [outcome] is how [generateLifestyleImage] settles; the session [s] is
    what [onApplyLifestyleImage] acts on. *)
Definition handleGenerateImage {N : Type} (outcome : App.Settled string)
    (p : State) (s : App.State N) : State * App.State N :=
  if negb (truthy (Some (detailedPrompt p))) then (p, s)
  else
    let p := setError None (setIsGeneratingImage true p) in
    match outcome with
    | App.resolved newImage =>
      (setIsGeneratingImage false p, App.handleApplyLifestyleImage newImage s)
    | App.rejected message =>
      (setIsGeneratingImage false
         (setError
            (Some (App.messageOr message
                     "Failed to generate the lifestyle image.")) p),
       s)
    end.

Definition anyProcessRunning (isLoading : bool) (p : State) : bool :=
  isLoading || isAnalyzing p || isGeneratingPrompt p || isGeneratingImage p.

End LifestylePanel.

(** ** [ComponentPanel.tsx] *)
Module ComponentPanel.

Section Numbers.
Context {N : Type}.

(** The keys that the controls of the panel change, each with its value. *)
Inductive Change : Type :=
| scale (value : N)
| rotation (value : N)
| flipH (value : bool)
| flipV (value : bool).

(** [{ ...activeComponent, [key]: value }] *)
Definition assign (activeComponent : ComponentLayer.t N) (change : Change)
  : ComponentLayer.t N :=
  {| ComponentLayer.id := ComponentLayer.id activeComponent;
     ComponentLayer.src := ComponentLayer.src activeComponent;
     ComponentLayer.originalFile := ComponentLayer.originalFile activeComponent;
     ComponentLayer.x := ComponentLayer.x activeComponent;
     ComponentLayer.y := ComponentLayer.y activeComponent;
     ComponentLayer.scale :=
       match change with
       | scale value => value
       | _ => ComponentLayer.scale activeComponent
       end;
     ComponentLayer.rotation :=
       match change with
       | rotation value => value
       | _ => ComponentLayer.rotation activeComponent
       end;
     ComponentLayer.flipH :=
       match change with
       | flipH value => value
       | _ => ComponentLayer.flipH activeComponent
       end;
     ComponentLayer.flipV :=
       match change with
       | flipV value => value
       | _ => ComponentLayer.flipV activeComponent
       end |}.

(** The call [handleTransformChange] makes to [onComponentChange], if it
    makes one. *)
Definition handleTransformChange
    (activeComponent : option (ComponentLayer.t N)) (change : Change)
  : option (ComponentLayer.t N) :=
  match activeComponent with
  | Some layer => Some (assign layer change)
  | None => None
  end.

(** The [onClick] of the two flip buttons, shown for an active component. *)
Definition onFlipHClick (activeComponent : option (ComponentLayer.t N))
  : option (ComponentLayer.t N) :=
  match activeComponent with
  | Some layer =>
    handleTransformChange activeComponent
      (flipH (negb (ComponentLayer.flipH layer)))
  | None => None
  end.

Definition onFlipVClick (activeComponent : option (ComponentLayer.t N))
  : option (ComponentLayer.t N) :=
  match activeComponent with
  | Some layer =>
    handleTransformChange activeComponent
      (flipV (negb (ComponentLayer.flipV layer)))
  | None => None
  end.

(** The call [handleFileChange] makes to [onUpload], if it makes one. *)
Definition handleFileChange (files : option (list File)) : option File :=
  match files with
  | Some (file :: _) => Some file
  | _ => None
  end.

End Numbers.

End ComponentPanel.

(** ** Properties *)

(** An image element with positive dimensions. *)
Definition positive_dimensions (img : HTMLImageElement Q) : Prop :=
  0 < naturalWidth img /\ 0 < naturalHeight img /\
  0 < clientWidth img /\ 0 < clientHeight img.

Definition exactly_one (P R : Prop) : Prop := (P /\ ~ R) \/ (~ P /\ R).

(** The cursor is [-1] on the empty history and an index of it otherwise. *)
Definition cursor_in_range {N : Type} (s : App.State N) : Prop :=
  (-1 <= App.historyIndex s < Z.of_nat (List.length (App.history s)))%Z.

(** Pushing snapshots one after the other, as successive edits do. *)
Definition pushAll {N : Type} (snapshots : list string) (s : App.State N)
  : App.State N :=
  fold_left (fun s url => App.pushToHistory url s) snapshots s.

(** The two coordinate pairs of an active text agree under a geometry. *)
Definition coordinates_agree {N : Type} `{Number N} (g : Geometry N)
    (t : ActiveText.t N) : Prop :=
  ActiveText.x t = ((ActiveText.displayX t - offsetX g) * scale g)%js /\
  ActiveText.y t = ((ActiveText.displayY t - offsetY g) * scale g)%js.

(** Two active texts that differ in their [text] at most. *)
Definition same_but_text {N : Type} (t u : ActiveText.t N) : Prop :=
  ActiveText.fontFamily t = ActiveText.fontFamily u /\
  ActiveText.fontSize t = ActiveText.fontSize u /\
  ActiveText.fontWeight t = ActiveText.fontWeight u /\
  ActiveText.fontStyle t = ActiveText.fontStyle u /\
  ActiveText.color t = ActiveText.color u /\
  ActiveText.x t = ActiveText.x u /\
  ActiveText.y t = ActiveText.y u /\
  ActiveText.displayX t = ActiveText.displayX u /\
  ActiveText.displayY t = ActiveText.displayY u.

(** Points of the plane up to equality of rationals. *)
Definition point_eq (p q : Q * Q) : Prop :=
  fst p == fst q /\ snd p == snd q.

(** What turning, mirroring and placing an image do to a point of it, given
    as an offset from the centre of the image; [cosA] and [sinA] are the
    cosine and the sine of the angle, with the canvas's orientation. *)
Definition rotateBy (cosA sinA : Q) (p : Q * Q) : Q * Q :=
  (cosA * fst p - sinA * snd p, sinA * fst p + cosA * snd p).

Definition flipBy (sx sy : Q) (p : Q * Q) : Q * Q :=
  (sx * fst p, sy * snd p).

Definition placeAt (centre : Q * Q) (p : Q * Q) : Q * Q :=
  (fst centre + fst p, snd centre + snd p).

(** The image is turned first and the turned image is mirrored. *)
Definition rotate_then_flip (centre : Q * Q) (cosA sinA sx sy : Q) (p : Q * Q)
  : Q * Q :=
  placeAt centre (flipBy sx sy (rotateBy cosA sinA p)).

(** The image is mirrored first and the mirrored image is turned. *)
Definition flip_then_rotate (centre : Q * Q) (cosA sinA sx sy : Q) (p : Q * Q)
  : Q * Q :=
  placeAt centre (rotateBy cosA sinA (flipBy sx sy p)).

(** The matrix under which the merge draws the component: that of the last
    [drawImage] call. *)
Definition componentTransform {N : Type} (canvas : Canvas.Context2D N)
  : option (Canvas.Matrix N) :=
  match rev (Canvas.calls canvas) with
  | Canvas.restore :: Canvas.drawImage _ m _ _ _ :: _ => Some m
  | _ => None
  end.

(** The flip factor of [ctx.scale]. *)
Definition flipFactor (flip : bool) : Q := if flip then - (1) else 1.

(** A commit-class operation that leaves the history store as it was. *)
Definition history_unchanged {N : Type} (s s' : App.State N) : Prop :=
  App.history s' = App.history s /\ App.historyIndex s' = App.historyIndex s.

(** The ids of the layers, in the order of the collection. *)
Definition layerIds {N : Type} (s : App.State N) : list string :=
  map (fun c => ComponentLayer.id c) (App.componentLayers s).

(** Uploads that all load, each with the file, its data URL and the reading
    of the clock when it was added. *)
Definition uploadAll {N : Type} `{Number N}
    (uploads : list (File * string * Z)) (s : App.State N) : App.State N :=
  fold_left
    (fun s '(file, dataUrl, now) =>
       App.handleComponentUpload file (App.resolved dataUrl) now s)
    uploads s.

(** A session in the middle of an edit: one snapshot, the text tool with an
    active text, and one uploaded layer, selected. *)
Definition editingSession : App.State Q :=
  {| App.originalImage := Some {| fileName := "photo.png" |};
     App.history := ["data:image/png;base64,PHOTO"];
     App.historyIndex := 0;
     App.activeTool := App.text;
     App.isLoading := false;
     App.error := None;
     App.activeText :=
       Some {| ActiveText.text := "Summer Sale";
               ActiveText.fontFamily := "Roboto";
               ActiveText.fontSize := 50;
               ActiveText.fontWeight := weight_bold;
               ActiveText.fontStyle := style_normal;
               ActiveText.color := "#FFFFFF";
               ActiveText.x := 500; ActiveText.y := 500;
               ActiveText.displayX := 250; ActiveText.displayY := 250 |};
     App.textSuggestions := [];
     App.isSuggestingText := false;
     App.componentLayers :=
       [{| ComponentLayer.id := "comp_1700000000000";
           ComponentLayer.src := "data:image/png;base64,LOGO";
           ComponentLayer.originalFile := {| fileName := "logo.png" |};
           ComponentLayer.x := 1 / 2; ComponentLayer.y := 1 / 2;
           ComponentLayer.scale := 1 / 2; ComponentLayer.rotation := 0;
           ComponentLayer.flipH := false; ComponentLayer.flipV := false |}];
     App.activeComponentId := Some "comp_1700000000000" |}.

(** The image element that shows the snapshot of [editingSession]. *)
Definition editingImage : HTMLImageElement Q :=
  {| naturalWidth := 1000; naturalHeight := 1000;
     clientWidth := 500; clientHeight := 500 |}.

(** A stand-in for the PNG encoder. *)
Definition encodePng (canvas : Canvas.Context2D Q) : string :=
  "data:image/png;base64,CANVAS".

(** ** The session as a state machine *)

(** The history is empty with the cursor at [-1], or the cursor is an index
    of it. *)
Definition history_invariant {N : Type} (s : App.State N) : Prop :=
  (App.history s = [] /\ App.historyIndex s = (-1)%Z) \/
  (0 <= App.historyIndex s < Z.of_nat (List.length (App.history s)))%Z.

(** What can happen to a session: a command of the interface together with
    what the browser answers. *)
Inductive Event (N : Type) : Type :=
| Reset
| FileSelect (files : option (list File)) (read : App.Settled string)
| Undo
| Redo
| ApplyAdjustment (prompt : string) (outcome : App.Settled string)
| ApplyRatio (aspectRatio : option N) (load : App.ImageLoad N)
    (context2d : bool)
| ImageClick (imageRef : option (HTMLImageElement N))
    (containerRect : DOMRect N) (e : MouseEvent N)
| AddText (imageRef : option (HTMLImageElement N)) (context2d : bool)
    (load : App.ImageLoad N)
| SuggestText (outcome : App.Settled (list string))
| SelectSuggestion (imageRef : option (HTMLImageElement N))
    (suggestion : string)
| SetActiveText (newData : option (ActiveText.t N))
| ApplyLifestyleImage (imageDataUrl : string)
| ComponentUpload (file : File) (read : App.Settled string) (now : Z)
| ComponentUpdate (updatedLayer : ComponentLayer.t N)
| SelectComponent (id : string)
| DeleteComponent
| MergeComponent (imageRef : option (HTMLImageElement N))
    (loadBase loadComponent : App.ImageLoad N) (drawing : App.Drawing)
| SwitchTool (tool : App.Tool).

Arguments Reset {N}.
Arguments Undo {N}.
Arguments Redo {N}.
Arguments DeleteComponent {N}.
Arguments FileSelect {N} files read.
Arguments ApplyAdjustment {N} prompt outcome.
Arguments SuggestText {N} outcome.
Arguments ApplyLifestyleImage {N} imageDataUrl.
Arguments SelectComponent {N} id.
Arguments SwitchTool {N} tool.
Arguments ComponentUpload {N} file read now.

Section Machine.
Context {N : Type} `{Number N} `{Trig N}.
Variable toDataURL : Canvas.Context2D N -> string.

Definition step (s : App.State N) (ev : Event N) : App.State N :=
  match ev with
  | Reset => App.handleReset s
  | FileSelect files read => App.handleFileSelect files read s
  | Undo => App.handleUndo s
  | Redo => App.handleRedo s
  | ApplyAdjustment prompt outcome => App.handleApplyAdjustment prompt outcome s
  | ApplyRatio aspectRatio load context2d =>
    App.handleApplyRatio toDataURL aspectRatio load context2d s
  | ImageClick imageRef containerRect e =>
    App.handleImageClick imageRef containerRect e s
  | AddText imageRef context2d load =>
    App.handleAddText toDataURL imageRef context2d load s
  | SuggestText outcome => App.handleSuggestText outcome s
  | SelectSuggestion imageRef suggestion =>
    App.handleSelectSuggestion imageRef suggestion s
  | SetActiveText newData => App.setActiveText newData s
  | ApplyLifestyleImage imageDataUrl =>
    App.handleApplyLifestyleImage imageDataUrl s
  | ComponentUpload file read now => App.handleComponentUpload file read now s
  | ComponentUpdate updatedLayer => App.handleComponentUpdate updatedLayer s
  | SelectComponent id => App.setActiveComponentId (Some id) s
  | DeleteComponent => App.handleDeleteComponent s
  | MergeComponent imageRef loadBase loadComponent drawing =>
    App.handleMergeComponent toDataURL imageRef loadBase loadComponent
      drawing s
  | SwitchTool tool => App.switchTool tool s
  end.

Definition run (events : list (Event N)) (s : App.State N) : App.State N :=
  fold_left step events s.

End Machine.

(** The overlays are gone: no active text, no layers, no selection. *)
Definition overlays_cleared {N : Type} (s : App.State N) : Prop :=
  App.activeText s = None /\ App.componentLayers s = [] /\
  App.activeComponentId s = None.

(** The test of the id-keyed lookups: the layer has the id [i]. *)
Definition idIs {N : Type} (i : string) (c : ComponentLayer.t N) : bool :=
  String.eqb (ComponentLayer.id c) i.

(** [url] was pushed on [s]: the snapshots up to the cursor are kept, [url]
    follows them and is the one shown, and the error slot is empty. *)
Definition pushed {N : Type} (url : string) (s s' : App.State N) : Prop :=
  App.history s'
  = (firstn (Z.to_nat (App.historyIndex s + 1)) (App.history s) ++ [url])%list /\
  App.historyIndex s' = (App.historyIndex s + 1)%Z /\
  index (App.history s') (App.historyIndex s') = Some url /\
  App.error s' = None.


(** The character [c] does not occur in [s]. *)
Fixpoint lacks (c : ascii) (s : string) : bool :=
  match s with
  | EmptyString => true
  | String d rest => negb (Ascii.eqb d c) && lacks c rest
  end.

(** The first candidate of a response. *)
Definition firstCandidate (response : geminiService.GenerateContentResponse)
  : option geminiService.Candidate :=
  match geminiService.candidates response with
  | Some (c :: _) => Some c
  | _ => None
  end.

(** The prompt of a response was blocked: its feedback names a reason. *)
Definition blocked (response : geminiService.GenerateContentResponse) : bool :=
  match geminiService.promptFeedback response with
  | Some feedback => truthy (geminiService.blockReason feedback)
  | None => false
  end.

(** The data URL of an image blob. *)
Definition dataUrlOf (mime data : string) : string :=
  ("data:" ++ mime ++ ";base64," ++ data)%string.

(** A MIME type that can stand in a data URL: not empty, and free of
    semicolons, commas and line ends. *)
Definition plainMime (mime : string) : bool :=
  negb (String.eqb mime EmptyString)
  && lacks ";" mime && lacks "," mime && lacks "010" mime && lacks "013" mime.

(** The component panel as [App] mounts it: [activeComponent] is the active
    component of the session and [onComponentChange] is
    [handleComponentUpdate]. *)
Definition onComponentChange {N : Type} (call : option (ComponentLayer.t N))
    (s : App.State N) : App.State N :=
  match call with
  | Some layer => App.handleComponentUpdate layer s
  | None => s
  end.

Definition panelChange {N : Type} (change : ComponentPanel.Change)
    (s : App.State N) : App.State N :=
  onComponentChange
    (ComponentPanel.handleTransformChange (App.activeComponent s) change) s.

Definition panelFlipH {N : Type} (s : App.State N) : App.State N :=
  onComponentChange (ComponentPanel.onFlipHClick (App.activeComponent s)) s.

Definition panelFlipV {N : Type} (s : App.State N) : App.State N :=
  onComponentChange (ComponentPanel.onFlipVClick (App.activeComponent s)) s.
(** ** The geometry resolver *)

Lemma Qltb_lt (x y : Q) : Qltb x y = true <-> x < y.
Proof.
  unfold Qltb. rewrite negb_true_iff, <- not_true_iff_false, Qle_bool_iff.
  split; [apply Qnot_le_lt | apply Qlt_not_le].
Qed.

Lemma Qltb_ge (x y : Q) : Qltb x y = false <-> y <= x.
Proof.
  unfold Qltb. rewrite negb_false_iff. apply Qle_bool_iff.
Qed.

(** A square image in a square box: both offsets are zero, not exactly
    one. *)
Lemma square_image_both_offsets_zero :
  let img := {| naturalWidth := 100; naturalHeight := 100;
                clientWidth := 100; clientHeight := 100 |} in
  exists g, App.getRenderedImageGeometry (Some img) = Some g /\
    ~ exactly_one (offsetX g == 0) (offsetY g == 0).
Proof.
  eexists. split; [reflexivity |].
  intros [[_ Hy] | [Hx _]]; [apply Hy | apply Hx]; reflexivity.
Qed.

(** The same element on binary64. *)
Example square_image_binary64 :
  option_map (fun g => (renderedWidth g, renderedHeight g, offsetX g, offsetY g))
    (App.getRenderedImageGeometry
       (Some {| naturalWidth := 100%float; naturalHeight := 100%float;
                clientWidth := 100%float; clientHeight := 100%float |}))
  = Some (100, 100, 0, 0)%float.
Proof. vm_compute. reflexivity. Qed.

Example round_binary64 :
  map F64.round [2.5; -2.5; 0x1.fffffffffffffp-2; 1777.5; -0x1p-2]%float
  = [3; -2; 0; 1778; -0]%float.
Proof. vm_compute. reflexivity. Qed.

(** Cross-multiplication for the aspect-ratio test. *)
Lemma Qdiv_lt_cross (a b c d : Q) :
  0 < b -> 0 < d -> (a / b < c / d <-> a * d < c * b).
Proof.
  intros Hb Hd.
  assert (Hbd : 0 < b * d) by (apply Qmult_lt_0_compat; assumption).
  assert (Ea : a * d == (a / b) * (b * d)) by (field; lra).
  assert (Ec : c * b == (c / d) * (b * d)) by (field; lra).
  rewrite Ea, Ec. split; intro Hlt.
  - apply Qmult_lt_r; assumption.
  - apply Qmult_lt_r in Hlt; assumption.
Qed.
(** [lra] takes a division by the constant 2 only as a product. *)
Ltac halves := unfold Qdiv in *; change (/ 2) with (1 # 2) in *.
(** What the resolver computes on positive dimensions, whichever copy. *)
Section GeometryFacts.
Variables nw nh cw ch : Q.
Hypothesis Hdims : 0 < nw /\ 0 < nh /\ 0 < cw /\ 0 < ch.
Lemma wide_branch_letterbox :
    cw / ch < nw / nh ->
    0 < (ch - cw / (nw / nh)) / 2 /\
    ((ch - cw / (nw / nh)) / 2) * 2 + cw / (nw / nh) == ch /\
    ~ nw * ch == nh * cw.
  Proof.
    destruct Hdims as (Hnw & Hnh & Hcw & Hch).
    intros Hlt. apply (proj1 (Qdiv_lt_cross cw nw Hch Hnh)) in Hlt.
    assert (Hpos : cw / (nw / nh) < ch).
    { assert (E : cw / (nw / nh) == cw * nh / nw) by (field; split; lra).
      rewrite E. apply Qlt_shift_div_r; [assumption | lra]. }
    set (rh := cw / (nw / nh)) in *.
    clearbody rh. halves. split; [|split]; lra.
  Qed.

Lemma tall_branch_pillarbox :
    nw / nh <= cw / ch ->
    0 <= (cw - ch * (nw / nh)) / 2 /\
    ((cw - ch * (nw / nh)) / 2) * 2 + ch * (nw / nh) == cw /\
    ((cw - ch * (nw / nh)) / 2 == 0 <-> nw * ch == nh * cw).
  Proof.
    destruct Hdims as (Hnw & Hnh & Hcw & Hch).
    intros Hle.
    assert (Hcross : nw * ch <= cw * nh).
    { apply Qnot_lt_le. intro Hlt.
      apply (proj2 (Qdiv_lt_cross cw nw Hch Hnh)) in Hlt.
      apply Qlt_not_le in Hlt. apply Hlt. exact Hle. }
    assert (E : ch * (nw / nh) * nh == ch * nw) by (field; lra).
    set (rw := ch * (nw / nh)) in *. clearbody rw.
    assert (Hle' : rw <= cw).
    { apply Qnot_lt_le. intro Hlt.
      assert (cw * nh < rw * nh) by (apply Qmult_lt_r; assumption). lra. }
    halves. split; [|split; [|split]]; try lra.
    - intro Hz. assert (Hq : rw == cw) by lra. rewrite Hq in E. lra.
    - intro Heq. assert (Hq : rw * nh == cw * nh) by lra.
      apply Qmult_inj_r in Hq; lra.
  Qed.
End GeometryFacts.

(** On binary64 an image shown at its own aspect ratio can be computed a
    hair wider than its box: 1000 x 1920 in 500 x 960 gives a rendered width
    of 500.00000000000006 and an [offsetX] of -2.84e-14, next to an
    [offsetY] that is zero. *)
Example equal_ratios_binary64 :
  option_map
    (fun g =>
       (PrimFloat.ltb 500%float (renderedWidth g),
        PrimFloat.ltb (offsetX g) 0%float,
        PrimFloat.eqb (offsetY g) 0%float, renderedHeight g))
    (App.getRenderedImageGeometry
       (Some {| naturalWidth := 1000%float; naturalHeight := 1920%float;
                clientWidth := 500%float; clientHeight := 960%float |}))
  = Some (true, true, true, 960%float).
Proof. vm_compute. reflexivity. Qed.

(** C2, amended.  On any numbers, binary64 included, the resolver of
    [App.tsx] returns a record in which at least one offset is the constant
    zero: [offsetX] when the natural aspect ratio is greater than the
    client's, [offsetY] otherwise; the other offset is half of what the
    rendered size leaves of the client size, and the copy in
    [InteractiveComponent.tsx] returns the same four values.  On positive
    dimensions and in exact arithmetic the image is centred on both axes:
    twice the offset plus the rendered size is the client size. *)
Theorem geometry_letterbox_centred
    (N : Type) `{Number N} (element : HTMLImageElement N)
    (img : HTMLImageElement Q) :
  (exists g,
     App.getRenderedImageGeometry (Some element) = Some g /\
     (offsetX g = ofZ 0 \/ offsetY g = ofZ 0) /\
     (if (naturalWidth element / naturalHeight element
          >? clientWidth element / clientHeight element)%js
      then offsetX g = ofZ 0 /\ renderedWidth g = clientWidth element /\
           offsetY g
           = ((clientHeight element - renderedHeight g) / ofZ 2)%js
      else offsetY g = ofZ 0 /\ renderedHeight g = clientHeight element /\
           offsetX g
           = ((clientWidth element - renderedWidth g) / ofZ 2)%js)) /\
  (let g := InteractiveComponent.getRenderedImageGeometry element in
   App.getRenderedImageGeometry (Some element)
   = Some (InteractiveText.getRenderedImageGeometry element) /\
   (InteractiveComponent.renderedWidth g, InteractiveComponent.renderedHeight g,
    InteractiveComponent.offsetX g, InteractiveComponent.offsetY g)
   = (renderedWidth (InteractiveText.getRenderedImageGeometry element),
      renderedHeight (InteractiveText.getRenderedImageGeometry element),
      offsetX (InteractiveText.getRenderedImageGeometry element),
      offsetY (InteractiveText.getRenderedImageGeometry element))) /\
  (positive_dimensions img ->
   (exists g, App.getRenderedImageGeometry (Some img) = Some g /\
      offsetX g * 2 + renderedWidth g == clientWidth img /\
      offsetY g * 2 + renderedHeight g == clientHeight img) /\
   (let g := InteractiveComponent.getRenderedImageGeometry img in
    InteractiveComponent.offsetX g * 2 + InteractiveComponent.renderedWidth g
      == clientWidth img /\
    InteractiveComponent.offsetY g * 2 + InteractiveComponent.renderedHeight g
      == clientHeight img)).
Proof.
  split; [| split].
  - unfold App.getRenderedImageGeometry.
    destruct (naturalWidth element / naturalHeight element
              >? clientWidth element / clientHeight element)%js;
      eexists; (split; [reflexivity |]); cbn.
    + split; [left; reflexivity |]. repeat split.
    + split; [right; reflexivity |]. repeat split.
  - cbn zeta.
    unfold App.getRenderedImageGeometry,
      InteractiveText.getRenderedImageGeometry,
      InteractiveComponent.getRenderedImageGeometry.
    destruct (naturalWidth element / naturalHeight element
              >? clientWidth element / clientHeight element)%js;
      split; reflexivity.
  - destruct img as [nw nh cw ch]. unfold positive_dimensions. cbn.
    intros Hdims.
    unfold App.getRenderedImageGeometry,
      InteractiveComponent.getRenderedImageGeometry.
    cbn [naturalWidth naturalHeight clientWidth clientHeight
         ltb div sub mul ofZ Q_Number].
    destruct (Qltb (cw / ch) (nw / nh)) eqn:Hcmp.
    + apply Qltb_lt in Hcmp.
      destruct (wide_branch_letterbox Hdims Hcmp) as (_ & Hsum & _).
      split; [eexists; split; [reflexivity |] |]; cbn;
        (split; [ring | exact Hsum]).
    + apply Qltb_ge in Hcmp.
      destruct (tall_branch_pillarbox Hdims Hcmp) as (_ & Hsum & _).
      split; [eexists; split; [reflexivity |] |]; cbn;
        (split; [exact Hsum | ring]).
Qed.

Lemma geometry_letterbox_centred_witness :
  let img := {| naturalWidth := 1600; naturalHeight := 900;
                clientWidth := 800; clientHeight := 600 |} in
  positive_dimensions img /\
  exists g, App.getRenderedImageGeometry (Some img) = Some g /\
    offsetX g * 2 + renderedWidth g == clientWidth img /\
    offsetY g * 2 + renderedHeight g == clientHeight img.
Proof.
  intro img.
  assert (Hpos : positive_dimensions img)
    by (unfold positive_dimensions; cbn; repeat split; reflexivity).
  split; [exact Hpos |].
  destruct (proj2 (proj2 (@geometry_letterbox_centred Q _ img img)) Hpos)
    as [(g & Hg & Hx & Hy) _].
  exists g. repeat split; assumption.
Defined.

(** ** The history store *)

Section History.
Context {N : Type}.
Implicit Types s : App.State N.

Lemma slice_prefix (A : Type) (a : list A) (k : Z) :
  (0 <= k <= Z.of_nat (List.length a))%Z ->
  slice a 0 k = firstn (Z.to_nat k) a.
Proof.
  intros Hk. unfold slice.
  replace (0 <? 0)%Z with false by reflexivity.
  destruct (k <? 0)%Z eqn:Hneg; [apply Z.ltb_lt in Hneg; lia |].
  rewrite Z.min_l by lia. rewrite Z.min_l by lia.
  rewrite Z.sub_0_r. reflexivity.
Qed.

Lemma pushToHistory_spec (url : string) s :
  cursor_in_range s ->
  App.history (App.pushToHistory url s) =
    (firstn (Z.to_nat (App.historyIndex s + 1)) (App.history s) ++ [url])%list /\
  App.historyIndex (App.pushToHistory url s) = (App.historyIndex s + 1)%Z.
Proof.
  intros [Hlo Hhi]. unfold App.pushToHistory. cbn.
  rewrite slice_prefix by lia. split; [reflexivity |].
  rewrite length_app, length_firstn. cbn. lia.
Qed.

Lemma pushToHistory_in_range (url : string) s :
  cursor_in_range s -> cursor_in_range (App.pushToHistory url s).
Proof.
  intros Hr. destruct (pushToHistory_spec url Hr) as [Hh Hi].
  unfold cursor_in_range in *. rewrite Hh, Hi, length_app, length_firstn.
  cbn. lia.
Qed.

Lemma pushAll_at_end (snapshots : list string) s :
  App.historyIndex s = (Z.of_nat (List.length (App.history s)) - 1)%Z ->
  App.history (pushAll snapshots s) = (App.history s ++ snapshots)%list /\
  App.historyIndex (pushAll snapshots s) =
    (Z.of_nat (List.length (App.history s ++ snapshots)) - 1)%Z.
Proof.
  revert s. induction snapshots as [| url rest IH]; intros s Hend.
  - cbn. rewrite app_nil_r. split; [reflexivity | exact Hend].
  - cbn [pushAll fold_left].
    assert (Hr : cursor_in_range s) by (unfold cursor_in_range; lia).
    destruct (pushToHistory_spec url Hr) as [Hh Hi].
    assert (Hfull : App.history (App.pushToHistory url s)
                    = (App.history s ++ [url])%list).
    { rewrite Hh. f_equal. apply firstn_all2. lia. }
    destruct (IH (App.pushToHistory url s)) as [IHh IHi].
    + rewrite Hi, Hfull, length_app. cbn. lia.
    + fold (pushAll rest (App.pushToHistory url s)).
      rewrite IHh, IHi, Hfull, <- app_assoc. split; reflexivity.
Qed.

Lemma pushAll_initial (snapshots : list string) :
  App.history (pushAll snapshots (App.initial (N := N))) = snapshots /\
  App.historyIndex (pushAll snapshots (App.initial (N := N))) =
    (Z.of_nat (List.length snapshots) - 1)%Z.
Proof.
  apply (@pushAll_at_end snapshots App.initial). reflexivity.
Qed.

Lemma handleUndo_history s : App.history (App.handleUndo s) = App.history s.
Proof.
  unfold App.handleUndo. destruct (App.historyIndex s >? 0)%Z; reflexivity.
Qed.

Lemma handleUndo_index s :
  App.historyIndex (App.handleUndo s) =
    if (App.historyIndex s >? 0)%Z then (App.historyIndex s - 1)%Z
    else App.historyIndex s.
Proof.
  unfold App.handleUndo. destruct (App.historyIndex s >? 0)%Z; reflexivity.
Qed.

Lemma undo_times (K : nat) s :
  (Z.of_nat K <= App.historyIndex s)%Z ->
  App.history (Nat.iter K App.handleUndo s) = App.history s /\
  App.historyIndex (Nat.iter K App.handleUndo s) =
    (App.historyIndex s - Z.of_nat K)%Z.
Proof.
  induction K as [| K IH]; intros HK.
  - cbn. split; [reflexivity | lia].
  - destruct IH as [IHh IHi]; [lia |].
    change (Nat.iter (S K) App.handleUndo s)
      with (App.handleUndo (Nat.iter K App.handleUndo s)).
    rewrite handleUndo_history, handleUndo_index, IHh, IHi.
    split; [reflexivity |].
    destruct (Z.gtb_spec (App.historyIndex s - Z.of_nat K) 0); lia.
Qed.

End History.

(** C1.  On a history of [N] snapshots with the cursor on the last one, as
    [N] pushes leave it, undoing [K] times ([0 <= K <= N-1]) and pushing one
    snapshot drops every snapshot beyond the cursor before appending: the
    first [N-K] snapshots are kept and the new one follows them, the length
    is [N-K+1], and the cursor is on the new last element. *)
Theorem push_after_undo_discards_redo_branch
    (N : Type) (s : App.State N) (snapshots : list string) (K : nat)
    (url : string) :
  App.history s = snapshots ->
  App.historyIndex s = (Z.of_nat (List.length snapshots) - 1)%Z ->
  (K <= List.length snapshots - 1)%nat ->
  snapshots <> [] ->
  let s' := App.pushToHistory url (Nat.iter K App.handleUndo s) in
  App.history s' = (firstn (List.length snapshots - K) snapshots ++ [url])%list /\
  List.length (App.history s') = (List.length snapshots - K + 1)%nat /\
  App.historyIndex s' = (Z.of_nat (List.length (App.history s')) - 1)%Z /\
  index (App.history s') (App.historyIndex s') = Some url.
Proof.
  intros Hh Hi HK Hne s'.
  assert (Hlen : (1 <= List.length snapshots)%nat).
  { destruct snapshots; [contradiction | cbn; lia]. }
  destruct (@undo_times N K s) as [Uh Ui]; [lia |].
  assert (Hr : cursor_in_range (Nat.iter K App.handleUndo s)).
  { unfold cursor_in_range. rewrite Uh, Ui, Hh, Hi. lia. }
  destruct (pushToHistory_spec url Hr) as [Ph Pi].
  fold s' in Ph, Pi. rewrite Uh, Ui, Hh, Hi in Ph. rewrite Ui, Hi in Pi.
  replace (Z.to_nat (Z.of_nat (List.length snapshots) - 1 - Z.of_nat K + 1))
    with (List.length snapshots - K)%nat in Ph by lia.
  assert (Hl : List.length (App.history s') = (List.length snapshots - K + 1)%nat).
  { rewrite Ph, length_app, length_firstn. cbn. lia. }
  split; [exact Ph |]. split; [exact Hl |]. split; [rewrite Pi, Hl; lia |].
  rewrite Pi. unfold index.
  destruct (Z.ltb_spec (Z.of_nat (List.length snapshots) - 1 - Z.of_nat K + 1) 0);
    [lia |].
  rewrite Ph, nth_error_app2 by (rewrite length_firstn; lia).
  rewrite length_firstn.
  replace (Z.to_nat (Z.of_nat (List.length snapshots) - 1 - Z.of_nat K + 1)
           - Nat.min (List.length snapshots - K) (List.length snapshots))%nat
    with 0%nat by lia.
  reflexivity.
Qed.

Lemma push_after_undo_discards_redo_branch_witness :
  let s := pushAll ["a"; "b"; "c"; "d"] (App.initial (N := Q)) in
  let s' := App.pushToHistory "e" (Nat.iter 2 App.handleUndo s) in
  App.history s' = ["a"; "b"; "e"] /\ App.historyIndex s' = 2%Z.
Proof.
  intros s s'.
  destruct (@push_after_undo_discards_redo_branch Q s ["a"; "b"; "c"; "d"] 2 "e")
    as (Hh & _ & Hi & _).
  - reflexivity.
  - reflexivity.
  - cbn. lia.
  - discriminate.
  - split; [exact Hh | exact Hi].
Defined.

(** C9.  [handleUndo] with the cursor at or below [0] and [handleRedo] with
    the cursor at or beyond the last index return the state they were given:
    history, cursor and overlays are unchanged.  Both are total functions, so
    neither call can throw; the empty history, with cursor [-1], is at both
    boundaries. *)
Theorem undo_redo_noop_at_boundaries (N : Type) (s : App.State N) :
  ((App.historyIndex s <= 0)%Z -> App.handleUndo s = s) /\
  ((Z.of_nat (List.length (App.history s)) - 1 <= App.historyIndex s)%Z ->
   App.handleRedo s = s) /\
  (App.history s = [] -> App.historyIndex s = (-1)%Z ->
   App.handleUndo s = s /\ App.handleRedo s = s).
Proof.
  assert (HU : (App.historyIndex s <= 0)%Z -> App.handleUndo s = s).
  { intros Hle. unfold App.handleUndo.
    destruct (Z.gtb_spec (App.historyIndex s) 0); [lia | reflexivity]. }
  assert (HR : (Z.of_nat (List.length (App.history s)) - 1 <= App.historyIndex s)%Z
               -> App.handleRedo s = s).
  { intros Hle. unfold App.handleRedo.
    destruct (Z.ltb_spec (App.historyIndex s)
                (Z.of_nat (List.length (App.history s)) - 1));
      [lia | reflexivity]. }
  split; [exact HU |]. split; [exact HR |].
  intros He Hi. split; [apply HU | apply HR; rewrite He; cbn]; lia.
Qed.

Lemma undo_redo_noop_at_boundaries_witness :
  App.handleUndo (App.initial (N := Q)) = App.initial /\
  App.handleRedo (App.initial (N := Q)) = App.initial /\
  (let s := pushAll ["a"; "b"] (App.initial (N := Q)) in App.handleRedo s = s) /\
  (let s := pushAll ["a"] (App.initial (N := Q)) in App.handleUndo s = s).
Proof.
  destruct (undo_redo_noop_at_boundaries (App.initial (N := Q))) as (_ & _ & He).
  destruct (He eq_refl eq_refl) as [HU HR].
  split; [exact HU |]. split; [exact HR |]. split.
  - intro s.
    apply (proj1 (proj2 (undo_redo_noop_at_boundaries s))). cbn. lia.
  - intro s. apply (proj1 (undo_redo_noop_at_boundaries s)). cbn. lia.
Defined.

(** ** The text overlay *)

Section TextOverlay.
Context {N : Type} `{Number N}.

Lemma App_geometry_is_InteractiveText_geometry (img : HTMLImageElement N) :
  App.getRenderedImageGeometry (Some img)
  = Some (InteractiveText.getRenderedImageGeometry img).
Proof.
  unfold App.getRenderedImageGeometry, InteractiveText.getRenderedImageGeometry.
  destruct (clientWidth img / clientHeight img
            <? naturalWidth img / naturalHeight img)%js; reflexivity.
Qed.

Lemma click_places_text (imageRef : option (HTMLImageElement N))
    (containerRect : DOMRect N) (e : MouseEvent N) (s : App.State N)
    (t : ActiveText.t N) :
  App.activeText s = None ->
  App.activeText (App.handleImageClick imageRef containerRect e s) = Some t ->
  exists g, App.getRenderedImageGeometry imageRef = Some g /\
    coordinates_agree g t /\
    ActiveText.displayX t = (clientX e - rectLeft containerRect)%js /\
    ActiveText.displayY t = (clientY e - rectTop containerRect)%js /\
    ActiveText.fontSize t = ofZ 50.
Proof.
  intros Hnone. unfold App.handleImageClick.
  destruct (negb (App.isText (App.activeTool s)) || App.isNull imageRef
            || negb (App.isNull (App.activeText s)));
    [rewrite Hnone; discriminate |].
  destruct (App.getRenderedImageGeometry imageRef) as [g |];
    [| rewrite Hnone; discriminate].
  match goal with
  | |- context [if ?guard then _ else _] => destruct guard
  end; [rewrite Hnone; discriminate |].
  cbn. intros Ht. injection Ht as <-.
  exists g. repeat split; reflexivity.
Qed.

Lemma suggestion_places_text (imageRef : option (HTMLImageElement N))
    (suggestion : string) (s : App.State N) (t : ActiveText.t N) :
  App.activeText s = None ->
  App.activeText (App.handleSelectSuggestion imageRef suggestion s) = Some t ->
  exists g, App.getRenderedImageGeometry imageRef = Some g /\
    coordinates_agree g t /\
    ActiveText.displayX t = (offsetX g + renderedWidth g / ofZ 2)%js /\
    ActiveText.displayY t = (offsetY g + renderedHeight g / ofZ 2)%js /\
    ActiveText.text t = suggestion /\
    ActiveText.fontSize t = ofZ 60.
Proof.
  intros Hnone. unfold App.handleSelectSuggestion.
  destruct imageRef as [img |]; [| rewrite Hnone; discriminate].
  rewrite Hnone.
  destruct (App.getRenderedImageGeometry (Some img)) as [g |];
    [| rewrite Hnone; discriminate].
  cbn. intros Ht. injection Ht as <-.
  exists g. repeat split; reflexivity.
Qed.

Lemma suggestion_replaces_text_only (imageRef : HTMLImageElement N)
    (suggestion : string) (s : App.State N) (t0 : ActiveText.t N) :
  App.activeText s = Some t0 ->
  exists t,
    App.activeText (App.handleSelectSuggestion (Some imageRef) suggestion s)
    = Some t /\
    ActiveText.text t = suggestion /\ same_but_text t t0.
Proof.
  intros Hsome. unfold App.handleSelectSuggestion. rewrite Hsome. cbn.
  eexists. split; [reflexivity |]. unfold same_but_text. cbn.
  repeat split; reflexivity.
Qed.

Lemma drag_update_agrees (local : InteractiveText.Local N)
    (textData : ActiveText.t N) (geometry : Geometry N) (e : MouseEvent N) :
  coordinates_agree geometry
    (InteractiveText.dragUpdate local textData geometry e).
Proof. split; reflexivity. Qed.

Lemma resize_update_keeps_agreement (local : InteractiveText.Local N)
    (textData : ActiveText.t N) (geometry : Geometry N) (e : MouseEvent N) :
  coordinates_agree geometry textData ->
  coordinates_agree geometry (InteractiveText.resizeUpdate local textData e).
Proof. intros Hagree. exact Hagree. Qed.

End TextOverlay.

(** C5.  Under the geometry of the image element at the time of the event,
    [x = (displayX - offsetX) * scale] and [y = (displayY - offsetY) * scale]
    hold for the active text that a click creates, for the one that
    selecting a suggestion creates, and for the one a drag hands to
    [setActiveText]; selecting a suggestion for an existing text and a resize
    leave both pairs as they are.  This holds for any arithmetic, binary64
    included: the natural pair is computed from the display pair in the same
    update. *)
Theorem active_text_coordinates_agree (N : Type) `{Number N} :
  (forall imageRef containerRect e (s : App.State N) t,
     App.activeText s = None ->
     App.activeText (App.handleImageClick imageRef containerRect e s) = Some t ->
     exists g, App.getRenderedImageGeometry imageRef = Some g /\
       coordinates_agree g t) /\
  (forall imageRef suggestion (s : App.State N) t,
     App.activeText s = None ->
     App.activeText (App.handleSelectSuggestion imageRef suggestion s) = Some t ->
     exists g, App.getRenderedImageGeometry imageRef = Some g /\
       coordinates_agree g t) /\
  (forall imageRef suggestion (s : App.State N) t0 g,
     App.activeText s = Some t0 -> coordinates_agree g t0 ->
     exists t,
       App.activeText (App.handleSelectSuggestion (Some imageRef) suggestion s)
       = Some t /\ coordinates_agree g t) /\
  (forall local textData imageRef e (s : App.State N),
     InteractiveText.isDragging local = true ->
     InteractiveText.isResizing local = false ->
     exists t g,
       App.activeText
         (App.onTextUpdate
            (InteractiveText.handleMouseMove local textData imageRef e) s)
       = Some t /\
       App.getRenderedImageGeometry (Some imageRef) = Some g /\
       coordinates_agree g t) /\
  (forall local textData imageRef e t g,
     In t (InteractiveText.handleMouseMove local textData imageRef e) ->
     App.getRenderedImageGeometry (Some imageRef) = Some g ->
     coordinates_agree g textData -> coordinates_agree g t).
Proof.
  split; [| split; [| split; [| split]]].
  - intros imageRef containerRect e s t Hnone Ht.
    destruct (click_places_text _ _ _ _ Hnone Ht) as (g & Hg & Hagree & _).
    exists g. split; assumption.
  - intros imageRef suggestion s t Hnone Ht.
    destruct (suggestion_places_text _ _ _ Hnone Ht) as (g & Hg & Hagree & _).
    exists g. split; assumption.
  - intros imageRef suggestion s t0 g Hsome [Hx Hy].
    destruct (suggestion_replaces_text_only imageRef suggestion _ Hsome)
      as (t & Ht & _ & Hsame).
    exists t. split; [exact Ht |].
    destruct Hsame as (_ & _ & _ & _ & _ & Ex & Ey & Edx & Edy).
    unfold coordinates_agree. rewrite Ex, Ey, Edx, Edy. split; assumption.
  - intros local textData imageRef e s Hdrag Hresize.
    unfold InteractiveText.handleMouseMove. rewrite Hdrag, Hresize. cbn.
    eexists. eexists. split; [reflexivity |].
    split; [apply App_geometry_is_InteractiveText_geometry |].
    apply drag_update_agrees.
  - intros local textData imageRef e t g Hin Hg Hagree.
    rewrite App_geometry_is_InteractiveText_geometry in Hg.
    injection Hg as <-.
    unfold InteractiveText.handleMouseMove in Hin.
    apply in_app_or in Hin. destruct Hin as [Hin | Hin].
    + destruct (InteractiveText.isDragging local); [| contradiction].
      destruct Hin as [<- | []]. apply drag_update_agrees.
    + destruct (InteractiveText.isResizing local); [| contradiction].
      destruct Hin as [<- | []].
      apply resize_update_keeps_agreement. exact Hagree.
Qed.

Lemma active_text_coordinates_agree_witness :
  let img := {| naturalWidth := 2000; naturalHeight := 1000;
                clientWidth := 800; clientHeight := 600 |} in
  let s := App.setActiveTool App.text (App.initial (N := Q)) in
  let s' :=
    App.handleImageClick (Some img) {| rectLeft := 10; rectTop := 20 |}
      {| clientX := 410; clientY := 320 |} s in
  exists t g,
    App.activeText s' = Some t /\
    App.getRenderedImageGeometry (Some img) = Some g /\
    coordinates_agree g t /\
    ActiveText.x t == 1000 /\ ActiveText.y t == 500.
Proof.
  intros img s s'.
  edestruct (proj1 (@active_text_coordinates_agree Q _) (Some img)
               {| rectLeft := 10; rectTop := 20 |}
               {| clientX := 410; clientY := 320 |} s)
    as (g & Hg & Hagree); [reflexivity | reflexivity |].
  eexists. exists g. split; [reflexivity |]. split; [exact Hg |].
  split; [exact Hagree |]. split; reflexivity.
Defined.

(** The natural coordinates of the centre of the rendered image. *)
Section CentreFacts.
Variables nw nh cw ch : Q.
Hypothesis Hdims : 0 < nw /\ 0 < nh /\ 0 < cw /\ 0 < ch.

Lemma centre_of_wide_image :
  (0 + cw / 2 - 0) * (nw / cw) == nw / 2 /\
  ((ch - cw / (nw / nh)) / 2 + cw / (nw / nh) / 2 - (ch - cw / (nw / nh)) / 2)
  * (nw / cw) == nh / 2.
Proof.
  destruct Hdims as (Hnw & Hnh & Hcw & Hch).
  split; field; repeat split; lra.
Qed.

Lemma centre_of_tall_image :
  ((cw - ch * (nw / nh)) / 2 + ch * (nw / nh) / 2 - (cw - ch * (nw / nh)) / 2)
  * (nw / (ch * (nw / nh))) == nw / 2 /\
  (0 + ch / 2 - 0) * (nw / (ch * (nw / nh))) == nh / 2.
Proof.
  destruct Hdims as (Hnw & Hnh & Hcw & Hch).
  split; field; repeat split; lra.
Qed.

End CentreFacts.

(** On binary64 the centre comes out beside the half of the natural size:
    for a 483 x 2030 image shown in 921 x 484 the suggestion is placed at
    [x = 241.50000000000006] and [y = 1014.9999999999999], where
    [483 / 2 = 241.5] and [2030 / 2 = 1015]. *)
Lemma suggestion_centre_is_off_on_binary64 :
  let img := {| naturalWidth := 483%float; naturalHeight := 2030%float;
                clientWidth := 921%float; clientHeight := 484%float |} in
  let s := App.setActiveTool App.text (App.initial (N := float)) in
  exists t,
    App.activeText (App.handleSelectSuggestion (Some img) "Summer Sale" s)
    = Some t /\
    PrimFloat.ltb (483 / 2)%float (ActiveText.x t) = true /\
    PrimFloat.ltb (ActiveText.y t) (2030 / 2)%float = true /\
    PrimFloat.eqb (ActiveText.x t) (naturalWidth img / 2)%float = false /\
    PrimFloat.eqb (ActiveText.y t) (naturalHeight img / 2)%float = false /\
    ActiveText.fontSize t = 60%float.
Proof.
  intros img s. eexists. split; [vm_compute; reflexivity |].
  repeat split; vm_compute; reflexivity.
Qed.

(** C10, amended.  With no active text, selecting a suggestion creates one
    that is shown at the centre of the rendered image, with natural
    coordinates computed from that display point as
    [(display - offset) * scale], with font size 60 and the suggestion as its
    text; in exact arithmetic, on positive dimensions, the natural
    coordinates are the centre of the natural image, [naturalWidth/2] and
    [naturalHeight/2].  A click with the text tool and no active text that
    passes the test of [handleImageClick] creates a text of font size 50.
    With an active text, the selection replaces its [text] and leaves every
    other field as it was. *)
Theorem suggestion_places_text_at_rendered_centre (N : Type) `{Number N} :
  (forall (img : HTMLImageElement N) suggestion (s : App.State N),
     App.activeText s = None ->
     let g := InteractiveText.getRenderedImageGeometry img in
     exists t,
       App.activeText (App.handleSelectSuggestion (Some img) suggestion s)
       = Some t /\
       ActiveText.displayX t = (offsetX g + renderedWidth g / ofZ 2)%js /\
       ActiveText.displayY t = (offsetY g + renderedHeight g / ofZ 2)%js /\
       ActiveText.x t = ((ActiveText.displayX t - offsetX g) * scale g)%js /\
       ActiveText.y t = ((ActiveText.displayY t - offsetY g) * scale g)%js /\
       ActiveText.fontSize t = ofZ 60 /\
       ActiveText.text t = suggestion) /\
  (forall (img : HTMLImageElement Q) suggestion (s : App.State Q),
     positive_dimensions img -> App.activeText s = None ->
     exists t,
       App.activeText (App.handleSelectSuggestion (Some img) suggestion s)
       = Some t /\
       ActiveText.x t == naturalWidth img / 2 /\
       ActiveText.y t == naturalHeight img / 2 /\
       ActiveText.fontSize t = 60 /\ ~ ActiveText.fontSize t == 50) /\
  (forall (img : HTMLImageElement N) containerRect e (s : App.State N),
     App.activeTool s = App.text -> App.activeText s = None ->
     let g := InteractiveText.getRenderedImageGeometry img in
     let imageRelativeX :=
       (clientX e - rectLeft containerRect - offsetX g)%js in
     let imageRelativeY :=
       (clientY e - rectTop containerRect - offsetY g)%js in
     (imageRelativeX <? ofZ 0)%js || (imageRelativeX >? renderedWidth g)%js
     || (imageRelativeY <? ofZ 0)%js || (imageRelativeY >? renderedHeight g)%js
     = false ->
     exists t,
       App.activeText (App.handleImageClick (Some img) containerRect e s)
       = Some t /\
       ActiveText.fontSize t = ofZ 50) /\
  (forall (img : HTMLImageElement N) suggestion (s : App.State N) t0,
     App.activeText s = Some t0 ->
     exists t,
       App.activeText (App.handleSelectSuggestion (Some img) suggestion s)
       = Some t /\
       ActiveText.text t = suggestion /\ same_but_text t t0).
Proof.
  split; [| split; [| split]].
  - intros img suggestion s Hnone g.
    unfold App.handleSelectSuggestion.
    rewrite Hnone, App_geometry_is_InteractiveText_geometry. fold g.
    eexists. split; [reflexivity |]. repeat split.
  - intros [nw nh cw ch] suggestion s Hdims Hnone.
    unfold positive_dimensions in Hdims. cbn in Hdims.
    unfold App.handleSelectSuggestion, App.getRenderedImageGeometry.
    rewrite Hnone.
    cbn [naturalWidth naturalHeight clientWidth clientHeight
         ltb div sub mul add ofZ Q_Number].
    destruct (Qltb (cw / ch) (nw / nh)).
    + destruct (centre_of_wide_image Hdims) as [Hx Hy].
      eexists. split; [reflexivity |]. cbn.
      split; [exact Hx |]. split; [exact Hy |].
      split; [reflexivity | discriminate].
    + destruct (centre_of_tall_image Hdims) as [Hx Hy].
      eexists. split; [reflexivity |]. cbn.
      split; [exact Hx |]. split; [exact Hy |].
      split; [reflexivity | discriminate].
  - intros img containerRect e s Htool Hnone g imageRelativeX imageRelativeY
      Hinside.
    unfold App.handleImageClick.
    rewrite Htool, Hnone, App_geometry_is_InteractiveText_geometry.
    cbn [App.isText App.isNull negb orb]. fold g.
    fold imageRelativeX imageRelativeY. rewrite Hinside.
    eexists. split; reflexivity.
  - intros img suggestion s t0 Hsome.
    apply suggestion_replaces_text_only. exact Hsome.
Qed.

Lemma suggestion_places_text_at_rendered_centre_witness :
  let img := {| naturalWidth := 483; naturalHeight := 2030;
                clientWidth := 921; clientHeight := 484 |} in
  let s := App.setActiveTool App.text (App.initial (N := Q)) in
  positive_dimensions img /\
  (exists t,
     App.activeText (App.handleSelectSuggestion (Some img) "Summer Sale" s)
     = Some t /\
     ActiveText.x t == 483 / 2 /\ ActiveText.y t == 1015 /\
     ActiveText.fontSize t = 60) /\
  (exists t,
     App.activeText
       (App.handleImageClick (Some img) {| rectLeft := 10; rectTop := 20 |}
          {| clientX := 470; clientY := 262 |} s) = Some t /\
     ActiveText.fontSize t = 50).
Proof.
  intros img s.
  assert (Hpos : positive_dimensions img)
    by (unfold positive_dimensions; cbn; repeat split; reflexivity).
  split; [exact Hpos |]. split.
  - destruct (proj1 (proj2 (@suggestion_places_text_at_rendered_centre Q _))
                img "Summer Sale" s Hpos eq_refl)
      as (t & Ht & Hx & Hy & Hsize & _).
    exists t. split; [exact Ht |]. split; [exact Hx |].
    split; [rewrite Hy; reflexivity | exact Hsize].
  - destruct (proj1 (proj2 (proj2
                (@suggestion_places_text_at_rendered_centre Q _)))
                img {| rectLeft := 10; rectTop := 20 |}
                {| clientX := 470; clientY := 262 |} s eq_refl eq_refl)
      as (t & Ht & Hsize); [vm_compute; reflexivity |].
    exists t. split; [exact Ht | exact Hsize].
Defined.

(** ** The component overlay *)

Lemma rendered_size_positive (img : HTMLImageElement Q) :
  positive_dimensions img ->
  let g := InteractiveComponent.getRenderedImageGeometry img in
  0 < InteractiveComponent.renderedWidth g /\
  0 < InteractiveComponent.renderedHeight g.
Proof.
  destruct img as [nw nh cw ch]. unfold positive_dimensions. cbn.
  intros (Hnw & Hnh & Hcw & Hch).
  assert (Hratio : 0 < nw / nh) by (apply Qlt_shift_div_l; lra).
  unfold InteractiveComponent.getRenderedImageGeometry. cbn.
  destruct (Qltb (cw / ch) (nw / nh)); cbn; split; try assumption.
  - apply Qlt_shift_div_l; lra.
  - apply Qmult_lt_0_compat; assumption.
Qed.

Lemma clamp_to_unit_interval (v : Q) :
  0 <= Qmax 0 (Qmin 1 v) /\ Qmax 0 (Qmin 1 v) <= 1.
Proof.
  split.
  - apply Q.le_max_l.
  - apply Q.max_lub; [discriminate | apply Q.le_min_l].
Qed.

(** C8.  While a component is dragged over an image of positive dimensions,
    the pointer delta is divided by the rendered width and height, added to
    the position kept at the start of the drag, and each coordinate is
    clamped to [[0,1]]; nothing else of the layer changes.  A delta of 50 at
    a rendered width of 500 puts [x], before the clamp, at the start position
    plus one tenth. *)
Theorem component_drag_fraction
    (local : InteractiveComponent.Local Q) (data : ComponentLayer.t Q)
    (imageRef : HTMLImageElement Q) (e : MouseEvent Q) :
  positive_dimensions imageRef ->
  InteractiveComponent.isDragging local = true ->
  let g := InteractiveComponent.getRenderedImageGeometry imageRef in
  let start := InteractiveComponent.dragStart local in
  let dx := clientX e - InteractiveComponent.mouseX start in
  let dy := clientY e - InteractiveComponent.mouseY start in
  let newX :=
    InteractiveComponent.componentX start
    + dx / InteractiveComponent.renderedWidth g in
  let newY :=
    InteractiveComponent.componentY start
    + dy / InteractiveComponent.renderedHeight g in
  0 < InteractiveComponent.renderedWidth g /\
  0 < InteractiveComponent.renderedHeight g /\
  InteractiveComponent.draggedTo local g e = (newX, newY) /\
  (exists layer,
     InteractiveComponent.handleMouseMove local data imageRef e = Some layer /\
     ComponentLayer.x layer = Qmax 0 (Qmin 1 newX) /\
     ComponentLayer.y layer = Qmax 0 (Qmin 1 newY) /\
     (0 <= ComponentLayer.x layer /\ ComponentLayer.x layer <= 1) /\
     (0 <= ComponentLayer.y layer /\ ComponentLayer.y layer <= 1) /\
     ComponentLayer.id layer = ComponentLayer.id data /\
     ComponentLayer.src layer = ComponentLayer.src data /\
     ComponentLayer.scale layer = ComponentLayer.scale data /\
     ComponentLayer.rotation layer = ComponentLayer.rotation data /\
     ComponentLayer.flipH layer = ComponentLayer.flipH data /\
     ComponentLayer.flipV layer = ComponentLayer.flipV data) /\
  (dx == 50 -> InteractiveComponent.renderedWidth g == 500 ->
   newX == InteractiveComponent.componentX start + 1 / 10).
Proof.
  intros Hpos Hdrag g start dx dy newX newY.
  destruct (rendered_size_positive Hpos) as [Hw Hh].
  split; [exact Hw |]. split; [exact Hh |]. split; [reflexivity |]. split.
  - unfold InteractiveComponent.handleMouseMove. rewrite Hdrag.
    eexists. split; [reflexivity |]. cbn.
    split; [reflexivity |]. split; [reflexivity |].
    split; [apply clamp_to_unit_interval |].
    split; [apply clamp_to_unit_interval |].
    repeat split; reflexivity.
  - intros Hdx Hrw. unfold newX. rewrite Hdx, Hrw.
    apply Qplus_comp; reflexivity.
Qed.

Lemma component_drag_fraction_witness :
  let img := {| naturalWidth := 1000; naturalHeight := 1000;
                clientWidth := 500; clientHeight := 500 |} in
  let data :=
    {| ComponentLayer.id := "comp_1700000000000";
       ComponentLayer.src := "data:image/png;base64,AAAA";
       ComponentLayer.originalFile := {| fileName := "logo.png" |};
       ComponentLayer.x := half; ComponentLayer.y := half;
       ComponentLayer.scale := half; ComponentLayer.rotation := 0;
       ComponentLayer.flipH := false; ComponentLayer.flipV := false |} in
  let local :=
    InteractiveComponent.handleDragStart data
      {| clientX := 100; clientY := 200 |} InteractiveComponent.mount in
  exists layer,
    InteractiveComponent.handleMouseMove local data img
      {| clientX := 150; clientY := 200 |} = Some layer /\
    ComponentLayer.x layer == 6 / 10 /\ ComponentLayer.y layer == 1 / 2.
Proof.
  intros img data local.
  destruct (@component_drag_fraction local data img
              {| clientX := 150; clientY := 200 |})
    as (_ & _ & _ & (layer & Hmove & Hx & Hy & _) & _).
  - unfold positive_dimensions; cbn; repeat split; reflexivity.
  - reflexivity.
  - exists layer. split; [exact Hmove |]. rewrite Hx, Hy.
    split; reflexivity.
Defined.

(** The same drag on binary64: [50 / 500] is the double [0.1], and the
    default position [0.5] moves to the double [0.6]. *)
Example component_drag_binary64 :
  let img := {| naturalWidth := 1000%float; naturalHeight := 1000%float;
                clientWidth := 500%float; clientHeight := 500%float |} in
  let data :=
    {| ComponentLayer.id := "comp_1700000000000";
       ComponentLayer.src := "data:image/png;base64,AAAA";
       ComponentLayer.originalFile := {| fileName := "logo.png" |};
       ComponentLayer.x := half; ComponentLayer.y := half;
       ComponentLayer.scale := half; ComponentLayer.rotation := 0%float;
       ComponentLayer.flipH := false; ComponentLayer.flipV := false |} in
  let local :=
    InteractiveComponent.handleDragStart data
      {| clientX := 100%float; clientY := 200%float |}
      InteractiveComponent.mount in
  (50 / 500 = 0x1.999999999999ap-4)%float /\
  option_map (fun layer => (ComponentLayer.x layer, ComponentLayer.y layer))
    (InteractiveComponent.handleMouseMove local data img
       {| clientX := 150%float; clientY := 200%float |})
  = Some (0x1.3333333333333p-1, 0.5)%float.
Proof. vm_compute. split; reflexivity. Qed.

(** ** The canvas resizer *)

Lemma Qfloor_unique (x : Q) (z : Z) :
  inject_Z z <= x -> x < inject_Z (z + 1) -> Qfloor x = z.
Proof.
  intros Hlo Hhi.
  assert (H1 : (z <= Qfloor x)%Z).
  { rewrite <- (Qfloor_Z z). apply Qfloor_resp_le. exact Hlo. }
  assert (H2 : (Qfloor x < z + 1)%Z).
  { rewrite Zlt_Qlt. apply Qle_lt_trans with x; [apply Qfloor_le | exact Hhi]. }
  lia.
Qed.

Lemma round_of_integer (z : Z) : Qround_half_up (inject_Z z) = inject_Z z.
Proof.
  unfold Qround_half_up. f_equal. apply Qfloor_unique.
  - lra.
  - rewrite inject_Z_plus. change (inject_Z 1) with 1. lra.
Qed.

Lemma round_above_integer (z : Z) (x : Q) :
  inject_Z z <= x -> inject_Z z <= Qround_half_up x.
Proof.
  intros Hle. unfold Qround_half_up. rewrite <- Zle_Qle.
  rewrite <- (Qfloor_Z z). apply Qfloor_resp_le. lra.
Qed.

Lemma Qdiv_lt_mul (a b c : Q) : 0 < b -> a / b < c -> a < c * b.
Proof.
  intros Hb Hlt. assert (E : a == a / b * b) by (field; lra).
  rewrite E. apply Qmult_lt_r; assumption.
Qed.

Lemma Qle_div_mul (a b c : Q) : 0 < b -> c <= a / b -> c * b <= a.
Proof.
  intros Hb Hle. assert (E : a == a / b * b) by (field; lra).
  rewrite E. apply Qmult_le_compat_r; [exact Hle | lra].
Qed.

(** C6, amended.  For a source of [w] by [h] pixels and a positive target
    ratio, the canvas keeps the height and takes the width
    [round (h * ratio)], which is at least [w], when the ratio exceeds [w/h];
    otherwise it keeps the width and takes the height [round (w / ratio)],
    at least [h].  Both dimensions are integers.  The canvas is filled with
    white and the source is drawn at [((newW - w)/2, (newH - h)/2)]: the
    offsets are halves of integers and are not rounded.  Ratio [16/9] on
    1000 by 1000 gives 1778 by 1000 and the offsets 389 and 0. *)
Theorem ratio_canvas_dimensions (w h : Z) (src : string) (ratio : Q) :
  (0 < w)%Z -> (0 < h)%Z -> 0 < ratio ->
  let img := {| imageSrc := src; imageNaturalWidth := inject_Z w;
                imageNaturalHeight := inject_Z h |} in
  let canvas := App.ratioCanvas img ratio in
  let newW := Canvas.width canvas in
  let newH := Canvas.height canvas in
  (inject_Z w / inject_Z h < ratio ->
   newH = inject_Z h /\ newW = Qround_half_up (inject_Z h * ratio) /\
   inject_Z w <= newW) /\
  (ratio <= inject_Z w / inject_Z h ->
   newW = inject_Z w /\ newH = Qround_half_up (inject_Z w / ratio) /\
   inject_Z h <= newH) /\
  (exists wz hz : Z,
     newW = inject_Z wz /\ newH = inject_Z hz /\
     Canvas.calls canvas =
       [Canvas.fillRect "#FFFFFF" Canvas.identity 0 0 newW newH;
        Canvas.drawImage img Canvas.identity
          ((newW - inject_Z w) / 2) ((newH - inject_Z h) / 2) None] /\
     (newW - inject_Z w) / 2 == (wz - w) # 2 /\
     (newH - inject_Z h) / 2 == (hz - h) # 2) /\
  (let square := {| imageSrc := src; imageNaturalWidth := 1000;
                    imageNaturalHeight := 1000 |} in
   Canvas.width (App.ratioCanvas square (16 / 9)) = 1778 /\
   Canvas.height (App.ratioCanvas square (16 / 9)) = 1000 /\
   exists x y,
     nth_error (Canvas.calls (App.ratioCanvas square (16 / 9))) 1
     = Some (Canvas.drawImage square Canvas.identity x y None) /\
     x == 389 /\ y == 0).
Proof.
  intros Hw Hh Hratio img canvas newW newH.
  assert (Hwq : 0 < inject_Z w) by (change 0 with (inject_Z 0); rewrite <- Zlt_Qlt; exact Hw).
  assert (Hhq : 0 < inject_Z h) by (change 0 with (inject_Z 0); rewrite <- Zlt_Qlt; exact Hh).
  assert (Hhalf : forall a b : Z, (inject_Z a - inject_Z b) / 2 == (a - b) # 2).
  { intros a b. unfold Qeq, Qdiv, Qminus, Qplus, Qopp, Qmult, Qinv, inject_Z.
    cbn. lia. }
  unfold newW, newH, canvas, App.ratioCanvas.
  cbn [imageNaturalWidth imageNaturalHeight img ltb div sub mul ofZ
       Math_round Q_Number].
  destruct (Qltb (inject_Z w / inject_Z h) ratio) eqn:Hcmp; cbn.
  - apply Qltb_lt in Hcmp.
    assert (Hgrow : inject_Z w <= inject_Z h * ratio).
    { apply Qlt_le_weak. apply (Qdiv_lt_mul Hhq) in Hcmp.
      rewrite (Qmult_comm (inject_Z h) ratio). exact Hcmp. }
    split; [| split; [| split]].
    + intros _. split; [apply round_of_integer |]. split; [reflexivity |].
      apply round_above_integer. exact Hgrow.
    + intros Hle. apply Qle_not_lt in Hle. contradiction.
    + eexists. exists h. split; [reflexivity |].
      split; [apply round_of_integer |]. split; [reflexivity |].
      rewrite round_of_integer. split; apply Hhalf.
    + split; [reflexivity |]. split; [reflexivity |].
      eexists. eexists. split; [reflexivity |]. split; reflexivity.
  - apply Qltb_ge in Hcmp.
    assert (Hgrow : inject_Z h <= inject_Z w / ratio).
    { apply Qle_shift_div_l; [exact Hratio |].
      rewrite (Qmult_comm (inject_Z h) ratio).
      apply (Qle_div_mul Hhq). exact Hcmp. }
    split; [| split; [| split]].
    + intros Hlt. apply Qlt_not_le in Hlt. contradiction.
    + intros _. split; [apply round_of_integer |]. split; [reflexivity |].
      apply round_above_integer. exact Hgrow.
    + exists w. eexists. split; [apply round_of_integer |].
      split; [reflexivity |]. split; [reflexivity |].
      rewrite round_of_integer. split; apply Hhalf.
    + split; [reflexivity |]. split; [reflexivity |].
      eexists. eexists. split; [reflexivity |]. split; reflexivity.
Qed.

Lemma ratio_canvas_dimensions_witness :
  let img := {| imageSrc := "data:image/png;base64,AAAA";
                imageNaturalWidth := 1001; imageNaturalHeight := 1001 |} in
  Canvas.height (App.ratioCanvas img (16 / 9)) = 1001 /\
  Canvas.width (App.ratioCanvas img (16 / 9)) = 1780.
Proof.
  intro img.
  destruct (@ratio_canvas_dimensions 1001 1001 "data:image/png;base64,AAAA"
              (16 / 9)) as (Hwide & _); try reflexivity.
  destruct Hwide as (HH & HW & _); [reflexivity |].
  split; [exact HH | exact (eq_trans HW eq_refl)].
Defined.

(** Ratio [16/9] on 1001 by 1001: the border of 779 pixels is odd and the
    source is drawn at [x = 389.5]. *)
Lemma ratio_offset_is_not_an_integer :
  let img := {| imageSrc := "data:image/png;base64,AAAA";
                imageNaturalWidth := 1001; imageNaturalHeight := 1001 |} in
  exists x y,
    Canvas.calls (App.ratioCanvas img (16 / 9)) =
      [Canvas.fillRect "#FFFFFF" Canvas.identity 0 0 1780 1001;
       Canvas.drawImage img Canvas.identity x y None] /\
    x == 779 # 2 /\ ~ (exists z : Z, x == inject_Z z).
Proof.
  intro img. eexists. eexists. split; [reflexivity |].
  split; [reflexivity |].
  intros [z Hz]. unfold Qeq in Hz. cbn in Hz. lia.
Qed.

(** On binary64 the preset [16 / 9] gives the same canvases. *)
Example ratio_canvas_binary64 :
  let canvas (side : float) :=
    App.ratioCanvas {| imageSrc := "data:image/png;base64,AAAA";
                       imageNaturalWidth := side;
                       imageNaturalHeight := side |} (16 / 9)%float in
  let offsets (side : float) :=
    match Canvas.calls (canvas side) with
    | [_; Canvas.drawImage _ _ x y _] => Some (x, y)
    | _ => None
    end in
  (Canvas.width (canvas 1000%float), Canvas.height (canvas 1000%float),
   offsets 1000%float)
  = (1778, 1000, Some (389, 0))%float /\
  (Canvas.width (canvas 1001%float), Canvas.height (canvas 1001%float),
   offsets 1001%float)
  = (1780, 1001, Some (389.5, 0))%float.
Proof. vm_compute. split; reflexivity. Qed.

(** ** The compositor *)

Section Merge.
Context {trig : Trig Q}.
Variables baseImage componentImage : LoadedImage Q.
Variable layer : ComponentLayer.t Q.

Let centerX := ComponentLayer.x layer * imageNaturalWidth baseImage.
Let centerY := ComponentLayer.y layer * imageNaturalHeight baseImage.
Let angle := ComponentLayer.rotation layer * Math_PI / 180.
Let drawWidth := imageNaturalWidth baseImage * ComponentLayer.scale layer.
Let drawHeight :=
  drawWidth / (imageNaturalWidth componentImage
               / imageNaturalHeight componentImage).

Lemma merge_calls :
  exists m,
    Canvas.calls (App.mergeCanvas baseImage componentImage layer) =
      [Canvas.drawImage baseImage Canvas.identity 0 0 None;
       Canvas.save;
       Canvas.translate centerX centerY;
       Canvas.rotate angle;
       Canvas.scale (flipFactor (ComponentLayer.flipH layer))
                    (flipFactor (ComponentLayer.flipV layer));
       Canvas.drawImage componentImage m
         ((- drawWidth) / 2) ((- drawHeight) / 2)
         (Some (drawWidth, drawHeight));
       Canvas.restore] /\
    componentTransform (App.mergeCanvas baseImage componentImage layer)
    = Some m /\
    Canvas.transform (App.mergeCanvas baseImage componentImage layer)
    = Canvas.identity.
Proof.
  eexists. split; [| split].
  - reflexivity.
  - reflexivity.
  - reflexivity.
Qed.

Lemma merge_transform_point (m : Canvas.Matrix Q) (p : Q * Q) :
  componentTransform (App.mergeCanvas baseImage componentImage layer) = Some m ->
  point_eq (Canvas.transformPoint m p)
    (flip_then_rotate (centerX, centerY) (Math_cos angle) (Math_sin angle)
       (flipFactor (ComponentLayer.flipH layer))
       (flipFactor (ComponentLayer.flipV layer)) p).
Proof.
  intros Hm. cbn in Hm. injection Hm as <-.
  destruct p as [u v].
  unfold point_eq, flip_then_rotate, placeAt, rotateBy, flipBy, flipFactor.
  unfold centerX, centerY, angle.
  destruct (ComponentLayer.flipH layer), (ComponentLayer.flipV layer);
    cbn; unfold inject_Z; split; ring.
Qed.

End Merge.

(** C7, amended.  The merge draws the base image, then calls [save],
    [translate] to the centre of the layer, [rotate] by its rotation in
    radians, [scale] by [(flipH ? -1 : 1, flipV ? -1 : 1)], draws the
    component centred on the origin and calls [restore].  Each of these calls
    multiplies the current matrix on the right, so a point of the component
    at offset [p] from its centre lands at [centre + R (S p)]: the component
    is mirrored in its own frame and the mirrored image is turned.  For a
    quarter turn with [flipH] the point at offset [(u, v)] lands at
    [(centerX - v, centerY - u)], which is flip then rotate on the pixels. *)
Theorem merge_transform_order (trig : Trig Q)
    (baseImage componentImage : LoadedImage Q) (layer : ComponentLayer.t Q) :
  let canvas := App.mergeCanvas baseImage componentImage layer in
  let centerX := ComponentLayer.x layer * imageNaturalWidth baseImage in
  let centerY := ComponentLayer.y layer * imageNaturalHeight baseImage in
  let angle := ComponentLayer.rotation layer * Math_PI / 180 in
  let drawWidth := imageNaturalWidth baseImage * ComponentLayer.scale layer in
  let drawHeight :=
    drawWidth / (imageNaturalWidth componentImage
                 / imageNaturalHeight componentImage) in
  exists m,
    Canvas.calls canvas =
      [Canvas.drawImage baseImage Canvas.identity 0 0 None;
       Canvas.save;
       Canvas.translate centerX centerY;
       Canvas.rotate angle;
       Canvas.scale (flipFactor (ComponentLayer.flipH layer))
                    (flipFactor (ComponentLayer.flipV layer));
       Canvas.drawImage componentImage m
         ((- drawWidth) / 2) ((- drawHeight) / 2)
         (Some (drawWidth, drawHeight));
       Canvas.restore] /\
    (forall p,
       point_eq (Canvas.transformPoint m p)
         (flip_then_rotate (centerX, centerY) (Math_cos angle) (Math_sin angle)
            (flipFactor (ComponentLayer.flipH layer))
            (flipFactor (ComponentLayer.flipV layer)) p)) /\
    point_eq (Canvas.transformPoint m (0, 0)) (centerX, centerY) /\
    (Math_cos angle == 0 -> Math_sin angle == 1 ->
     ComponentLayer.flipH layer = true -> ComponentLayer.flipV layer = false ->
     forall u v,
       point_eq (Canvas.transformPoint m (u, v)) (centerX - v, centerY - u)).
Proof.
  cbv zeta.
  destruct (merge_calls (trig := trig) baseImage componentImage layer)
    as (m & Hcalls & Hm & _).
  pose proof (fun p => merge_transform_point p Hm) as Hpoint.
  exists m. split; [exact Hcalls |]. split; [exact Hpoint |]. split.
  - destruct (Hpoint (0, 0)) as [Hx Hy]. cbn in Hx, Hy.
    split; [rewrite Hx | rewrite Hy]; cbn; ring.
  - intros Hcos Hsin HflipH HflipV u v.
    destruct (Hpoint (u, v)) as [Hx Hy]. cbn in Hx, Hy.
    rewrite HflipH, HflipV in Hx, Hy. cbn in Hx, Hy.
    rewrite Hcos, Hsin in Hx, Hy.
    split; [rewrite Hx | rewrite Hy]; cbn; ring.
Qed.

Lemma merge_transform_order_witness :
  let baseImage := {| imageSrc := "data:image/png;base64,BASE";
                      imageNaturalWidth := 1000; imageNaturalHeight := 1000 |} in
  let componentImage :=
    {| imageSrc := "data:image/png;base64,COMP";
       imageNaturalWidth := 200; imageNaturalHeight := 100 |} in
  let layer :=
    {| ComponentLayer.id := "comp_1700000000000";
       ComponentLayer.src := "data:image/png;base64,COMP";
       ComponentLayer.originalFile := {| fileName := "arrow.png" |};
       ComponentLayer.x := 1 / 2; ComponentLayer.y := 1 / 2;
       ComponentLayer.scale := 1 / 2; ComponentLayer.rotation := 90;
       ComponentLayer.flipH := true; ComponentLayer.flipV := false |} in
  exists m,
    componentTransform
      (@App.mergeCanvas Q Q_Number quarter_turns baseImage componentImage layer)
    = Some m /\
    point_eq (Canvas.transformPoint m (1, 0)) (500, 499).
Proof.
  intros baseImage componentImage layer.
  destruct (merge_transform_order quarter_turns baseImage componentImage layer)
    as (m & Hcalls & _ & _ & Hquarter).
  exists m. split.
  - unfold componentTransform. rewrite Hcalls. reflexivity.
  - destruct (Hquarter (Qeq_refl _) (Qeq_refl _) eq_refl eq_refl 1 0) as [Hx Hy].
    split; [rewrite Hx | rewrite Hy]; reflexivity.
Defined.

(** A quarter turn with [flipH]: the point one pixel right of the centre of
    the component lands one pixel above the centre of the layer, where
    mirroring the turned image would put it one pixel below. *)
Lemma merge_is_not_rotate_then_flip :
  let baseImage := {| imageSrc := "data:image/png;base64,BASE";
                      imageNaturalWidth := 1000; imageNaturalHeight := 1000 |} in
  let componentImage :=
    {| imageSrc := "data:image/png;base64,COMP";
       imageNaturalWidth := 200; imageNaturalHeight := 100 |} in
  let layer :=
    {| ComponentLayer.id := "comp_1700000000000";
       ComponentLayer.src := "data:image/png;base64,COMP";
       ComponentLayer.originalFile := {| fileName := "arrow.png" |};
       ComponentLayer.x := 1 / 2; ComponentLayer.y := 1 / 2;
       ComponentLayer.scale := 1 / 2; ComponentLayer.rotation := 90;
       ComponentLayer.flipH := true; ComponentLayer.flipV := false |} in
  let angle := ComponentLayer.rotation layer * Math_PI (Trig := quarter_turns) / 180 in
  exists m,
    componentTransform
      (@App.mergeCanvas Q Q_Number quarter_turns baseImage componentImage layer)
    = Some m /\
    quarter_cos angle = 0 /\ quarter_sin angle = 1 /\
    ~ point_eq (Canvas.transformPoint m (1, 0))
        (rotate_then_flip (500, 500) 0 1 (- (1)) 1 (1, 0)) /\
    point_eq (Canvas.transformPoint m (1, 0))
      (flip_then_rotate (500, 500) 0 1 (- (1)) 1 (1, 0)).
Proof.
  intros baseImage componentImage layer angle.
  eexists. split; [reflexivity |].
  split; [reflexivity |]. split; [reflexivity |]. split.
  - intros [_ Hy]. vm_compute in Hy. discriminate Hy.
  - split; reflexivity.
Qed.

(** ** Component ids *)

Lemma toString_inj (m n : Z) : toString m = toString n -> m = n.
Proof.
  unfold toString. intros Heq. apply DecimalZ.to_int_inj.
  assert (Hparse : forall z,
            NilZero.int_of_string (NilZero.string_of_int (Z.to_int z))
            = Some (Z.to_int z)).
  { intros z. apply NilZero.isi; destruct z; cbn; try discriminate.
    - intros [= Hnil]. exact (DecimalPos.Unsigned.to_uint_nonnil _ Hnil).
    - intros [= Hnil]. exact (DecimalPos.Unsigned.to_uint_nonnil _ Hnil). }
  pose proof (Hparse m) as Hm. rewrite Heq, Hparse in Hm.
  injection Hm as Hm. symmetry. exact Hm.
Qed.

Section ComponentIds.
Context {N : Type} `{Number N}.

Lemma upload_appends_id (file : File) (dataUrl : string) (now : Z)
    (s : App.State N) :
  layerIds (App.handleComponentUpload file (App.resolved dataUrl) now s)
  = (layerIds s ++ [("comp_" ++ toString now)%string])%list.
Proof.
  unfold layerIds, App.handleComponentUpload. cbn.
  rewrite map_app. reflexivity.
Qed.

Lemma uploadAll_ids (uploads : list (File * string * Z)) (s : App.State N) :
  layerIds (uploadAll uploads s)
  = (layerIds s
     ++ map (fun u => ("comp_" ++ toString (snd u))%string) uploads)%list.
Proof.
  revert s. induction uploads as [| [[file dataUrl] now] rest IH]; intros s.
  - cbn. rewrite app_nil_r. reflexivity.
  - cbn [uploadAll fold_left].
    fold (uploadAll rest
            (App.handleComponentUpload file (App.resolved dataUrl) now s)).
    rewrite IH, upload_appends_id, <- app_assoc. reflexivity.
Qed.

(** Uploads at pairwise distinct readings of the clock get distinct ids. *)
Lemma distinct_clock_readings_distinct_ids
    (uploads : list (File * string * Z)) (s : App.State N) :
  App.componentLayers s = [] ->
  NoDup (map snd uploads) ->
  NoDup (layerIds (uploadAll uploads s)).
Proof.
  intros Hempty Hclock. rewrite uploadAll_ids.
  unfold layerIds at 1. rewrite Hempty. cbn [map app].
  rewrite <- (map_map snd (fun now => "comp_" ++ toString now)).
  apply NoDup_map_NoDup_ForallPairs; [| exact Hclock].
  intros m n _ _ Heq. apply toString_inj.
  injection Heq as Heq. exact Heq.
Qed.

(** An update and a drag keep the ids of the collection. *)
Lemma update_keeps_ids (updatedLayer : ComponentLayer.t N) (s : App.State N) :
  layerIds (App.handleComponentUpdate updatedLayer s) = layerIds s.
Proof.
  unfold layerIds, App.handleComponentUpdate. cbn.
  rewrite map_map. apply map_ext. intros c.
  destruct (String.eqb_spec (ComponentLayer.id c) (ComponentLayer.id updatedLayer))
    as [Heq |]; [symmetry; exact Heq | reflexivity].
Qed.

End ComponentIds.

(** C3.  The id of a new layer is [comp_] followed by the reading of the
    millisecond clock, so two uploads that complete within one millisecond
    get the same id: the collection then holds two layers with one id, an
    update meant for one of them replaces both, and deleting the active one
    removes both. *)
Theorem component_ids_collide_within_a_millisecond :
  let logo := {| fileName := "logo.png" |} in
  let badge := {| fileName := "badge.png" |} in
  let s1 :=
    App.handleComponentUpload logo (App.resolved "data:image/png;base64,LOGO")
      1700000000000 (App.initial (N := Q)) in
  let s2 :=
    App.handleComponentUpload badge (App.resolved "data:image/png;base64,BADGE")
      1700000000000 s1 in
  let moved :=
    {| ComponentLayer.id := "comp_1700000000000";
       ComponentLayer.src := "data:image/png;base64,BADGE";
       ComponentLayer.originalFile := badge;
       ComponentLayer.x := 1 / 4; ComponentLayer.y := 1 / 2;
       ComponentLayer.scale := 1 / 2; ComponentLayer.rotation := 0;
       ComponentLayer.flipH := false; ComponentLayer.flipV := false |} in
  layerIds s2 = ["comp_1700000000000"; "comp_1700000000000"] /\
  ~ NoDup (layerIds s2) /\
  map (fun c => ComponentLayer.src c) (App.componentLayers s2)
  = ["data:image/png;base64,LOGO"; "data:image/png;base64,BADGE"] /\
  App.activeComponentId s2 = Some "comp_1700000000000" /\
  App.componentLayers (App.handleComponentUpdate moved s2) = [moved; moved] /\
  App.componentLayers (App.handleDeleteComponent s2) = [].
Proof.
  intros logo badge s1 s2 moved.
  split; [reflexivity |]. split.
  - intros Hnodup. inversion Hnodup as [| id ids Hnotin _].
    apply Hnotin. left. reflexivity.
  - repeat split; reflexivity.
Qed.

(** ** Failing operations *)

Section Failures.
Context {N : Type} `{Number N} `{Trig N}.
Variable toDataURL : Canvas.Context2D N -> string.
Variable s : App.State N.

Lemma failed_adjustment (prompt : string) (message : option string) :
  let s' := App.handleApplyAdjustment prompt (App.rejected message) s in
  history_unchanged s s' /\
  (App.originalImage s <> None ->
   App.error s' <> None /\ App.isLoading s' = false).
Proof.
  unfold App.handleApplyAdjustment, history_unchanged.
  destruct (App.originalImage s); cbn.
  - repeat split; discriminate.
  - split; [split; reflexivity | intros Hnone; contradiction].
Qed.

Lemma failed_ratio (aspectRatio : option N) (load : App.ImageLoad N)
    (context2d : bool) :
  load = App.onerror \/ context2d = false ->
  let s' := App.handleApplyRatio toDataURL aspectRatio load context2d s in
  history_unchanged s s' /\
  (App.displayedImage s <> None -> aspectRatio <> None ->
   App.error s' <> None /\ App.isLoading s' = false).
Proof.
  intros Hfail. unfold App.handleApplyRatio, history_unchanged.
  destruct (App.displayedImage s) as [url |];
    [| split; [split; reflexivity | intros Hnone; contradiction]].
  destruct aspectRatio as [ratio |];
    [| split; [split; reflexivity | intros _ Hnone; contradiction]].
  destruct load as [w h |].
  - destruct Hfail as [Hload | ->]; [discriminate Hload |].
    cbn. repeat split; discriminate.
  - cbn. repeat split; discriminate.
Qed.

Lemma failed_merge (imageRef : option (HTMLImageElement N))
    (loadBase loadComponent : App.ImageLoad N) (drawing : App.Drawing) :
  loadBase = App.onerror \/ loadComponent = App.onerror
  \/ drawing <> App.draws ->
  let s' :=
    App.handleMergeComponent toDataURL imageRef loadBase loadComponent
      drawing s in
  history_unchanged s s' /\
  (forall baseWidth baseHeight componentWidth componentHeight,
     loadBase = App.onload baseWidth baseHeight ->
     loadComponent = App.onload componentWidth componentHeight ->
     App.displayedImage s <> None -> App.activeComponent s <> None ->
     imageRef <> None ->
     App.error s' <> None /\ App.isLoading s' = false).
Proof.
  intros Hfail. unfold App.handleMergeComponent, history_unchanged.
  destruct (App.displayedImage s) as [url |];
    [| split; [split; reflexivity | intros ? ? ? ? _ _ Hnone; contradiction]].
  destruct (App.activeComponent s) as [active |];
    [| split; [split; reflexivity | intros ? ? ? ? _ _ _ Hnone; contradiction]].
  destruct imageRef as [img |];
    [| split; [split; reflexivity | intros ? ? ? ? _ _ _ _ Hnone; contradiction]].
  destruct loadBase as [bw bh |];
    [| split; [split; reflexivity | intros ? ? ? ? Hload; discriminate Hload]].
  destruct loadComponent as [cw ch |];
    [| split; [split; reflexivity | intros ? ? ? ? _ Hload; discriminate Hload]].
  destruct drawing.
  - cbn. repeat split; discriminate.
  - cbn. repeat split; discriminate.
  - destruct Hfail as [Hload | [Hload | Hdraw]];
      [discriminate Hload | discriminate Hload | contradiction].
Qed.

Lemma failed_text_bake (imageRef : option (HTMLImageElement N))
    (context2d : bool) (load : App.ImageLoad N) :
  context2d = false \/ load = App.onerror ->
  App.handleAddText toDataURL imageRef context2d load s = s.
Proof.
  intros Hfail. unfold App.handleAddText.
  destruct (App.displayedImage s) as [url |]; [| reflexivity].
  destruct (App.activeText s) as [t |]; [| reflexivity].
  destruct imageRef as [img |]; [| reflexivity].
  destruct context2d; [| reflexivity]. cbn.
  destruct Hfail as [Hctx | ->]; [discriminate Hctx | reflexivity].
Qed.

(** When an image of the merge fails to load the handler never gets past
    [setIsLoading(true)]. *)
Lemma merge_load_failure_stays_busy (imageRef : HTMLImageElement N)
    (loadBase loadComponent : App.ImageLoad N) (drawing : App.Drawing) :
  loadBase = App.onerror \/ loadComponent = App.onerror ->
  App.displayedImage s <> None -> App.activeComponent s <> None ->
  App.handleMergeComponent toDataURL (Some imageRef) loadBase loadComponent
    drawing s
  = App.setIsLoading true s.
Proof.
  intros Hfail Hshown Hactive. unfold App.handleMergeComponent.
  destruct (App.displayedImage s) as [url |]; [| contradiction].
  destruct (App.activeComponent s) as [active |]; [| contradiction].
  destruct loadBase as [bw bh |]; [| reflexivity].
  destruct loadComponent as [cw ch |]; [| reflexivity].
  destruct Hfail as [Hload | Hload]; discriminate Hload.
Qed.

End Failures.

(** What every failing operation has in common: a failed adjustment, ratio
    change, component merge or text bake leaves the history and the cursor
    as they were.  A failed adjustment, a failed ratio change, and a merge
    that fails once both its images are loaded also put a message in the
    error slot and clear the busy flag.  A failed text bake returns the
    state it was given. *)
Theorem failed_commit_leaves_history (N : Type) `{Number N} `{Trig N}
    (toDataURL : Canvas.Context2D N -> string) (s : App.State N) :
  (forall prompt message,
     let s' := App.handleApplyAdjustment prompt (App.rejected message) s in
     history_unchanged s s' /\
     (App.originalImage s <> None ->
      App.error s' <> None /\ App.isLoading s' = false)) /\
  (forall aspectRatio load context2d,
     load = App.onerror \/ context2d = false ->
     let s' := App.handleApplyRatio toDataURL aspectRatio load context2d s in
     history_unchanged s s' /\
     (App.displayedImage s <> None -> aspectRatio <> None ->
      App.error s' <> None /\ App.isLoading s' = false)) /\
  (forall imageRef loadBase loadComponent drawing,
     loadBase = App.onerror \/ loadComponent = App.onerror
     \/ drawing <> App.draws ->
     let s' :=
       App.handleMergeComponent toDataURL imageRef loadBase loadComponent
         drawing s in
     history_unchanged s s' /\
     (forall baseWidth baseHeight componentWidth componentHeight,
        loadBase = App.onload baseWidth baseHeight ->
        loadComponent = App.onload componentWidth componentHeight ->
        App.displayedImage s <> None -> App.activeComponent s <> None ->
        imageRef <> None ->
        App.error s' <> None /\ App.isLoading s' = false)) /\
  (forall imageRef context2d load,
     context2d = false \/ load = App.onerror ->
     App.handleAddText toDataURL imageRef context2d load s = s).
Proof.
  split; [| split; [| split]].
  - intros prompt message. apply failed_adjustment.
  - intros aspectRatio load context2d. apply failed_ratio.
  - intros imageRef loadBase loadComponent drawing. apply failed_merge.
  - intros imageRef context2d load. apply failed_text_bake.
Qed.

Lemma failed_commit_leaves_history_witness :
  let s' :=
    App.handleApplyAdjustment "warmer light"
      (App.rejected (Some "Request was blocked.")) editingSession in
  App.history s' = ["data:image/png;base64,PHOTO"] /\
  App.historyIndex s' = 0%Z /\
  App.error s' <> None /\
  App.handleAddText encodePng (Some editingImage) true App.onerror
    editingSession = editingSession.
Proof.
  intro s'.
  destruct (@failed_commit_leaves_history Q _ quarter_turns encodePng
              editingSession) as (Hadjust & _ & _ & Hbake).
  destruct (Hadjust "warmer light" (Some "Request was blocked."))
    as ((Hhistory & Hindex) & Herror).
  destruct Herror as [Herror _]; [discriminate |].
  split; [exact Hhistory |]. split; [exact Hindex |]. split; [exact Herror |].
  apply Hbake. right. reflexivity.
Defined.

(** C4.  Not every failing operation reaches the error slot.  On one and
    the same session, without a drawing context the ratio change and the
    merge report [Could not create canvas context.] and clear the busy
    flag, while the text bake returns the session untouched, the error slot
    still empty; and when the image fails to load the ratio change reports
    it, while the text bake reports nothing and the merge, whose promises
    never settle, reports nothing and leaves the busy flag set.  The history
    is unchanged in all six cases. *)
Theorem failed_bake_and_merge_load_are_not_reported :
  let s := editingSession in
  let ratio :=
    App.handleApplyRatio encodePng (Some (16 # 9)) (App.onload 1000 1000)
      false s in
  let merge :=
    @App.handleMergeComponent Q _ encodePng quarter_turns (Some editingImage)
      (App.onload 1000 1000) (App.onload 200 100) App.no_context s in
  let bake :=
    App.handleAddText encodePng (Some editingImage) false
      (App.onload 1000 1000) s in
  let ratioLoad :=
    App.handleApplyRatio encodePng (Some (16 # 9)) App.onerror true s in
  let mergeLoad :=
    @App.handleMergeComponent Q _ encodePng quarter_turns (Some editingImage)
      (App.onload 1000 1000) App.onerror App.draws s in
  let bakeLoad :=
    App.handleAddText encodePng (Some editingImage) true App.onerror s in
  (App.displayedImage s <> None /\ App.activeText s <> None /\
   App.activeComponent s <> None /\ App.error s = None /\
   App.isLoading s = false) /\
  (App.error ratio = Some "Could not create canvas context." /\
   App.isLoading ratio = false) /\
  (App.error merge = Some "Could not create canvas context." /\
   App.isLoading merge = false) /\
  (bake = s /\ App.error bake = None) /\
  (App.error ratioLoad = Some "Could not load current image for processing." /\
   App.isLoading ratioLoad = false) /\
  (App.error mergeLoad = None /\ App.isLoading mergeLoad = true) /\
  (bakeLoad = s /\ App.error bakeLoad = None) /\
  Forall (fun s' => history_unchanged s s')
    [ratio; merge; bake; ratioLoad; mergeLoad; bakeLoad].
Proof.
  cbn zeta. split.
  { repeat split; try discriminate; reflexivity. }
  repeat split; repeat constructor; reflexivity.
Qed.

(** ** The session machine *)

Section Reachable.
Context {N : Type} `{Number N} `{Trig N}.
Variable toDataURL : Canvas.Context2D N -> string.
Implicit Types s : App.State N.

Lemma invariant_in_range s : history_invariant s -> cursor_in_range s.
Proof.
  unfold history_invariant, cursor_in_range.
  intros [[Hempty Hidx] | Hrange]; [rewrite Hempty, Hidx; cbn |]; lia.
Qed.

Lemma invariant_transfers s s' :
  App.history s' = App.history s -> App.historyIndex s' = App.historyIndex s ->
  history_invariant s -> history_invariant s'.
Proof.
  unfold history_invariant. intros -> ->. exact (fun Hinv => Hinv).
Qed.

Lemma invariant_after_push (url : string) s s' :
  App.history s' = App.history s -> App.historyIndex s' = App.historyIndex s ->
  history_invariant s -> history_invariant (App.pushToHistory url s').
Proof.
  intros Hh Hi Hinv.
  assert (Hinv' : history_invariant s')
    by (apply invariant_transfers with (s := s); assumption).
  pose proof (invariant_in_range Hinv') as Hr.
  destruct (pushToHistory_spec url Hr) as [Ph Pi].
  right. rewrite Ph, Pi, length_app, length_firstn.
  unfold cursor_in_range in Hr. cbn. lia.
Qed.

Lemma invariant_after_undo s :
  history_invariant s -> history_invariant (App.handleUndo s).
Proof.
  intros Hinv. unfold App.handleUndo.
  destruct (Z.gtb_spec (App.historyIndex s) 0) as [Hpos |]; [| exact Hinv].
  right. cbn. destruct Hinv as [[_ Hidx] | Hrange]; lia.
Qed.

Lemma invariant_after_redo s :
  history_invariant s -> history_invariant (App.handleRedo s).
Proof.
  intros Hinv. unfold App.handleRedo.
  destruct (Z.ltb_spec (App.historyIndex s)
              (Z.of_nat (List.length (App.history s)) - 1)) as [Hlt |];
    [| exact Hinv].
  right. cbn. destruct Hinv as [[Hempty Hidx] | Hrange]; [| lia].
  rewrite Hempty, Hidx in Hlt. cbn in Hlt. lia.
Qed.

Lemma step_keeps_invariant s (ev : Event N) :
  history_invariant s -> history_invariant (step toDataURL s ev).
Proof.
  intros Hinv. destruct ev; cbn [step].
  - left. split; reflexivity.
  - unfold App.handleFileSelect.
    destruct files as [[| file rest] |]; try exact Hinv.
    destruct read; [right; cbn; lia |].
    (apply invariant_transfers with (s := s); [reflexivity | reflexivity | exact Hinv]).
  - apply invariant_after_undo. exact Hinv.
  - apply invariant_after_redo. exact Hinv.
  - unfold App.handleApplyAdjustment.
    destruct (App.originalImage s); [| exact Hinv].
    destruct outcome.
    + apply invariant_transfers
        with (s := App.pushToHistory value
                     (App.setError None (App.setIsLoading true s)));
        [reflexivity | reflexivity |].
      (apply invariant_after_push with (s := s); [reflexivity | reflexivity | exact Hinv]).
    + (apply invariant_transfers with (s := s); [reflexivity | reflexivity | exact Hinv]).
  - unfold App.handleApplyRatio.
    destruct (App.displayedImage s); [| exact Hinv].
    destruct aspectRatio; [| exact Hinv].
    destruct load; [destruct context2d |].
    + match goal with
      | |- history_invariant (App.setIsLoading false (App.pushToHistory ?u ?s0)) =>
        apply invariant_transfers with (s := App.pushToHistory u s0);
          [reflexivity | reflexivity |];
        (apply invariant_after_push with (s := s); [reflexivity | reflexivity | exact Hinv])
      end.
    + (apply invariant_transfers with (s := s); [reflexivity | reflexivity | exact Hinv]).
    + (apply invariant_transfers with (s := s); [reflexivity | reflexivity | exact Hinv]).
  - unfold App.handleImageClick.
    repeat match goal with
           | |- context [if ?b then _ else _] => destruct b
           | |- context [match ?o with Some _ => _ | None => _ end] => destruct o
           end; try exact Hinv;
      (apply invariant_transfers with (s := s); [reflexivity | reflexivity | exact Hinv]).
  - unfold App.handleAddText.
    destruct (App.displayedImage s); [| exact Hinv].
    destruct (App.activeText s); [| exact Hinv].
    destruct imageRef as [img |]; [| exact Hinv].
    destruct context2d; [| exact Hinv]. cbn [negb].
    destruct load; [| exact Hinv].
    destruct (App.getRenderedImageGeometry (Some img)); [| exact Hinv].
    match goal with
    | |- history_invariant (App.setActiveText None (App.pushToHistory ?u ?s0)) =>
      apply invariant_transfers with (s := App.pushToHistory u s0);
        [reflexivity | reflexivity |];
      (apply invariant_after_push with (s := s); [reflexivity | reflexivity | exact Hinv])
    end.
  - unfold App.handleSuggestText.
    destruct (App.originalImage s); [| exact Hinv].
    destruct outcome;
      (apply invariant_transfers with (s := s); [reflexivity | reflexivity | exact Hinv]).
  - unfold App.handleSelectSuggestion.
    destruct imageRef as [img |]; [| exact Hinv].
    destruct (App.activeText s).
    + (apply invariant_transfers with (s := s); [reflexivity | reflexivity | exact Hinv]).
    + destruct (App.getRenderedImageGeometry (Some img)); [| exact Hinv].
      (apply invariant_transfers with (s := s); [reflexivity | reflexivity | exact Hinv]).
  - (apply invariant_transfers with (s := s); [reflexivity | reflexivity | exact Hinv]).
  - (apply invariant_after_push with (s := s); [reflexivity | reflexivity | exact Hinv]).
  - unfold App.handleComponentUpload. destruct read;
      (apply invariant_transfers with (s := s); [reflexivity | reflexivity | exact Hinv]).
  - (apply invariant_transfers with (s := s); [reflexivity | reflexivity | exact Hinv]).
  - (apply invariant_transfers with (s := s); [reflexivity | reflexivity | exact Hinv]).
  - unfold App.handleDeleteComponent.
    destruct (App.activeComponentId s) as [i |]; [| exact Hinv].
    destruct (truthy (Some i)); [| exact Hinv].
    (apply invariant_transfers with (s := s); [reflexivity | reflexivity | exact Hinv]).
  - unfold App.handleMergeComponent.
    destruct (App.displayedImage s); [| exact Hinv].
    destruct (App.activeComponent s); [| exact Hinv].
    destruct imageRef as [img |]; [| exact Hinv].
    destruct loadBase;
      [| (apply invariant_transfers with (s := s); [reflexivity | reflexivity | exact Hinv])].
    destruct loadComponent;
      [| (apply invariant_transfers with (s := s); [reflexivity | reflexivity | exact Hinv])].
    destruct drawing;
      try ((apply invariant_transfers with (s := s); [reflexivity | reflexivity | exact Hinv])).
    match goal with
    | |- history_invariant
           (App.setIsLoading false
              (App.handleDeleteComponent (App.pushToHistory ?u ?s0))) =>
      apply invariant_transfers with (s := App.pushToHistory u s0);
        [| | (apply invariant_after_push with (s := s); [reflexivity | reflexivity | exact Hinv])]
    end.
    + cbn [App.history App.setIsLoading]. unfold App.handleDeleteComponent.
      destruct (App.activeComponentId _) as [i |]; [| reflexivity].
      destruct (truthy (Some i)); reflexivity.
    + cbn [App.historyIndex App.setIsLoading]. unfold App.handleDeleteComponent.
      destruct (App.activeComponentId _) as [i |]; [| reflexivity].
      destruct (truthy (Some i)); reflexivity.
  - (apply invariant_transfers with (s := s); [reflexivity | reflexivity | exact Hinv]).
Qed.

Lemma run_keeps_invariant (events : list (Event N)) s :
  history_invariant s -> history_invariant (run toDataURL events s).
Proof.
  revert s. induction events as [| ev rest IH]; intros s Hinv; [exact Hinv |].
  cbn [run fold_left]. apply IH. apply step_keeps_invariant. exact Hinv.
Qed.

Lemma invariant_shows_a_snapshot s :
  history_invariant s -> App.history s <> [] ->
  exists url, index (App.history s) (App.historyIndex s) = Some url.
Proof.
  intros [[Hempty _] | Hrange] Hne; [contradiction |].
  unfold index. destruct (Z.ltb_spec (App.historyIndex s) 0); [lia |].
  destruct (nth_error (App.history s) (Z.to_nat (App.historyIndex s)))
    as [url |] eqn:Hnth; [exists url; reflexivity |].
  apply nth_error_None in Hnth. lia.
Qed.

End Reachable.

(** X1.  Whatever commands and browser answers follow one another from the
    initial session, the history is empty with the cursor at [-1] or the
    cursor is an index of the history; when the history is not empty the
    cursor selects a snapshot. *)
Theorem reachable_sessions_keep_the_cursor_in_the_history
    (N : Type) `{Number N} `{Trig N}
    (toDataURL : Canvas.Context2D N -> string) (events : list (Event N)) :
  let s := run toDataURL events App.initial in
  history_invariant s /\
  (App.history s <> [] ->
   exists url, index (App.history s) (App.historyIndex s) = Some url).
Proof.
  intro s.
  assert (Hinv : history_invariant s).
  { apply run_keeps_invariant. left. split; reflexivity. }
  split; [exact Hinv | apply invariant_shows_a_snapshot; exact Hinv].
Qed.

Lemma reachable_sessions_keep_the_cursor_in_the_history_witness :
  let s :=
    @run Q _ quarter_turns encodePng
      [FileSelect (Some [{| fileName := "photo.png" |}])
         (App.resolved "data:image/png;base64,PHOTO");
       ApplyRatio (Some (16 / 9)) (App.onload 1000 1000) true;
       ApplyLifestyleImage "data:image/png;base64,SCENE";
       Undo; Undo; Undo; Redo;
       ApplyAdjustment "warmer" (App.rejected None)]
      (App.initial (N := Q)) in
  App.historyIndex s = 1%Z /\ List.length (App.history s) = 3%nat /\
  index (App.history s) (App.historyIndex s)
  = Some "data:image/png;base64,CANVAS".
Proof.
  intro s.
  destruct (@reachable_sessions_keep_the_cursor_in_the_history Q _
              quarter_turns encodePng
              [FileSelect (Some [{| fileName := "photo.png" |}])
                 (App.resolved "data:image/png;base64,PHOTO");
               ApplyRatio (Some (16 / 9)) (App.onload 1000 1000) true;
               ApplyLifestyleImage "data:image/png;base64,SCENE";
               Undo; Undo; Undo; Redo;
               ApplyAdjustment "warmer" (App.rejected None)])
    as [_ Hshown].
  destruct Hshown as [url Hurl]; [discriminate |].
  split; [reflexivity |]. split; [reflexivity |]. reflexivity.
Defined.

(** ** Time travel *)

Section TimeTravel.
Context {N : Type}.
Implicit Types s : App.State N.

Lemma handleRedo_history s : App.history (App.handleRedo s) = App.history s.
Proof.
  unfold App.handleRedo.
  destruct (App.historyIndex s <? _)%Z; reflexivity.
Qed.

Lemma handleUndo_clears s :
  (0 < App.historyIndex s)%Z -> overlays_cleared (App.handleUndo s).
Proof.
  intros Hpos. unfold App.handleUndo.
  destruct (Z.gtb_spec (App.historyIndex s) 0); [| lia].
  unfold overlays_cleared. cbn. repeat split.
Qed.

Lemma handleRedo_clears s :
  (App.historyIndex s < Z.of_nat (List.length (App.history s)) - 1)%Z ->
  overlays_cleared (App.handleRedo s) /\
  App.historyIndex (App.handleRedo s) = (App.historyIndex s + 1)%Z.
Proof.
  intros Hlt. unfold App.handleRedo.
  destruct (Z.ltb_spec (App.historyIndex s)
              (Z.of_nat (List.length (App.history s)) - 1)); [| lia].
  unfold overlays_cleared. cbn. repeat split.
Qed.

Lemma undo_times_clears (K : nat) s :
  (Z.of_nat K <= App.historyIndex s)%Z -> (0 < K)%nat ->
  overlays_cleared (Nat.iter K App.handleUndo s).
Proof.
  destruct K as [| K]; [lia |]. intros HK _.
  change (Nat.iter (S K) App.handleUndo s)
    with (App.handleUndo (Nat.iter K App.handleUndo s)).
  destruct (@undo_times N K s) as [_ Ui]; [lia |].
  apply handleUndo_clears. lia.
Qed.

Lemma redo_times (K : nat) s :
  (App.historyIndex s + Z.of_nat K
   <= Z.of_nat (List.length (App.history s)) - 1)%Z ->
  App.history (Nat.iter K App.handleRedo s) = App.history s /\
  App.historyIndex (Nat.iter K App.handleRedo s)
  = (App.historyIndex s + Z.of_nat K)%Z /\
  ((0 < K)%nat -> overlays_cleared (Nat.iter K App.handleRedo s)).
Proof.
  induction K as [| K IH]; intros HK.
  - cbn. split; [reflexivity |]. split; [lia | intros Hpos; lia].
  - destruct IH as (IHh & IHi & _); [lia |].
    change (Nat.iter (S K) App.handleRedo s)
      with (App.handleRedo (Nat.iter K App.handleRedo s)).
    rewrite handleRedo_history, IHh.
    destruct (@handleRedo_clears (Nat.iter K App.handleRedo s)) as [Hc Hi].
    { rewrite IHh, IHi. lia. }
    split; [reflexivity |]. split; [rewrite Hi, IHi; lia |].
    intros _. exact Hc.
Qed.

End TimeTravel.

(** X2.  From a session whose cursor is in its history, [K] undos followed
    by [K] redos, for [K] at most the cursor, bring back the same history and
    the same cursor, and so do [K] redos followed by [K] undos when [K]
    snapshots lie beyond the cursor; what does not come back are the
    overlays: once a step was taken there is no active text, no layer and no
    selection. *)
Theorem undo_redo_round_trip (N : Type) (s : App.State N) (K : nat) :
  history_invariant s ->
  ((Z.of_nat K <= App.historyIndex s)%Z ->
   let s' := Nat.iter K App.handleRedo (Nat.iter K App.handleUndo s) in
   App.history s' = App.history s /\
   App.historyIndex s' = App.historyIndex s /\
   ((0 < K)%nat -> overlays_cleared s')) /\
  ((App.historyIndex s + Z.of_nat K
    <= Z.of_nat (List.length (App.history s)) - 1)%Z ->
   let s' := Nat.iter K App.handleUndo (Nat.iter K App.handleRedo s) in
   App.history s' = App.history s /\
   App.historyIndex s' = App.historyIndex s /\
   ((0 < K)%nat -> overlays_cleared s')).
Proof.
  intros Hinv. split.
  - intros HK s'.
    destruct (@undo_times N K s HK) as [Uh Ui].
    destruct (@redo_times N K (Nat.iter K App.handleUndo s)) as (Rh & Ri & Rc).
    { rewrite Uh, Ui. destruct Hinv as [[_ Hidx] | Hrange]; lia. }
    unfold s'. rewrite Rh, Ri, Uh, Ui. split; [reflexivity |].
    split; [lia | exact Rc].
  - intros HK s'.
    destruct (Nat.eq_dec K 0) as [-> | Hpos].
    { cbn. split; [reflexivity |]. split; [reflexivity | lia]. }
    destruct (@redo_times N K s HK) as (Rh & Ri & _).
    assert (HK' : (Z.of_nat K
                   <= App.historyIndex (Nat.iter K App.handleRedo s))%Z).
    { rewrite Ri. destruct Hinv as [[Hempty Hidx] | Hrange]; [| lia].
      rewrite Hempty, Hidx in HK.
      change (List.length (@nil string)) with 0%nat in HK. lia. }
    destruct (@undo_times N K _ HK') as [Uh Ui].
    unfold s'. rewrite Uh, Ui, Rh, Ri. split; [reflexivity |].
    split; [lia |]. intros _.
    apply undo_times_clears; [assumption | lia].
Qed.

Lemma undo_redo_round_trip_witness :
  let s := pushAll ["a"; "b"; "c"; "d"] (App.initial (N := Q)) in
  let s' := Nat.iter 3 App.handleRedo (Nat.iter 3 App.handleUndo s) in
  history_invariant s /\
  App.history s' = ["a"; "b"; "c"; "d"] /\ App.historyIndex s' = 3%Z.
Proof.
  intros s s'.
  assert (Hinv : history_invariant s)
    by (right; vm_compute; split; [discriminate | reflexivity]).
  split; [exact Hinv |].
  destruct (proj1 (@undo_redo_round_trip Q s 3 Hinv)) as (Hh & Hi & _).
  - vm_compute. discriminate.
  - split; [exact Hh | exact Hi].
Defined.

(** ** The rendered image *)

Lemma geometry_of_positive (img : HTMLImageElement Q) :
  positive_dimensions img ->
  exists g,
    App.getRenderedImageGeometry (Some img) = Some g /\
    InteractiveText.getRenderedImageGeometry img = g /\
    0 < renderedWidth g /\ 0 < renderedHeight g /\
    0 <= offsetX g /\ 0 <= offsetY g /\
    0 < scale g /\
    scale g * renderedWidth g == naturalWidth img /\
    scale g * renderedHeight g == naturalHeight img /\
    offsetX g * 2 + renderedWidth g == clientWidth img /\
    offsetY g * 2 + renderedHeight g == clientHeight img.
Proof.
  intros Hdims. rewrite App_geometry_is_InteractiveText_geometry.
  eexists. split; [reflexivity |]. split; [reflexivity |].
  destruct img as [nw nh cw ch]. unfold positive_dimensions in Hdims.
  cbn in Hdims. pose proof Hdims as (Hnw & Hnh & Hcw & Hch).
  assert (Hratio : 0 < nw / nh) by (apply Qlt_shift_div_l; lra).
  unfold InteractiveText.getRenderedImageGeometry.
  cbn [naturalWidth naturalHeight clientWidth clientHeight
       ltb div sub mul ofZ Q_Number].
  destruct (Qltb (cw / ch) (nw / nh)) eqn:Hcmp; cbn.
  - apply Qltb_lt in Hcmp.
    destruct (wide_branch_letterbox Hdims Hcmp) as (Hoff & Hsum & _).
    assert (Hrh : 0 < cw / (nw / nh)) by (apply Qlt_shift_div_l; lra).
    split; [exact Hcw |]. split; [exact Hrh |].
    split; [apply Qle_refl |]. split; [apply Qlt_le_weak; exact Hoff |].
    split; [apply Qlt_shift_div_l; lra |].
    split; [field; lra |]. split; [field; repeat split; lra |].
    split; [ring | exact Hsum].
  - apply Qltb_ge in Hcmp.
    destruct (tall_branch_pillarbox Hdims Hcmp) as (Hoff & Hsum & _).
    assert (Hrw : 0 < ch * (nw / nh)) by (apply Qmult_lt_0_compat; assumption).
    split; [exact Hrw |]. split; [exact Hch |].
    split; [exact Hoff |]. split; [apply Qle_refl |].
    split; [apply Qlt_shift_div_l; [exact Hrw | lra] |].
    split; [field; repeat split; lra |]. split; [field; repeat split; lra |].
    split; [exact Hsum | ring].
Qed.

(** X3.  In exact arithmetic, on positive dimensions, the rendered image
    keeps the aspect ratio of the natural image, one of its sides is the
    client's, and the one [scale], which the resolver computes from the
    widths alone, takes the rendered width to the natural width and the
    rendered height to the natural height as well. *)
Theorem rendered_image_keeps_ratio (img : HTMLImageElement Q) :
  positive_dimensions img ->
  exists g,
    App.getRenderedImageGeometry (Some img) = Some g /\
    (renderedWidth g = clientWidth img \/ renderedHeight g = clientHeight img) /\
    renderedWidth g * naturalHeight img == renderedHeight g * naturalWidth img /\
    scale g * renderedWidth g == naturalWidth img /\
    scale g * renderedHeight g == naturalHeight img.
Proof.
  intros Hdims.
  destruct (geometry_of_positive Hdims)
    as (g & Hg & Hgeo & Hrw & Hrh & Hox & Hoy & Hsc & Hsw & Hsh & Hcx & Hcy).
  exists g. split; [exact Hg |]. split.
  - rewrite <- Hgeo. unfold InteractiveText.getRenderedImageGeometry.
    destruct (naturalWidth img / naturalHeight img
              >? clientWidth img / clientHeight img)%js;
      [left | right]; reflexivity.
  - split; [| split; assumption].
    rewrite <- Hsw, <- Hsh. ring.
Qed.

Lemma rendered_image_keeps_ratio_witness :
  let img := {| naturalWidth := 4000; naturalHeight := 3000;
                clientWidth := 800; clientHeight := 500 |} in
  positive_dimensions img /\
  exists g,
    App.getRenderedImageGeometry (Some img) = Some g /\
    renderedHeight g == 500 /\ scale g * renderedHeight g == 3000 /\
    scale g == 6.
Proof.
  intro img.
  assert (Hpos : positive_dimensions img)
    by (unfold positive_dimensions; cbn; repeat split; reflexivity).
  split; [exact Hpos |].
  destruct (rendered_image_keeps_ratio Hpos) as (g & Hg & _ & _ & _ & Hh).
  exists g. split; [exact Hg |].
  split; [injection Hg as Hg; rewrite <- Hg; reflexivity |].
  split; [exact Hh |].
  injection Hg as Hg. rewrite <- Hg. reflexivity.
Defined.

(** ** Placing and moving the text *)

Lemma clamp_between (lo hi v : Q) :
  lo <= hi ->
  lo <= Qmax lo (Qmin v hi) /\ Qmax lo (Qmin v hi) <= hi /\
  (lo <= v -> v <= hi -> Qmax lo (Qmin v hi) == v).
Proof.
  intros Hle. split; [apply Q.le_max_l |]. split.
  - apply Q.max_lub; [exact Hle | apply Q.le_min_r].
  - intros Hlo Hhi. rewrite (Q.min_l v hi Hhi). apply Q.max_r. exact Hlo.
Qed.

(** X4.  While the text is dragged over an image of positive dimensions the
    record handed to [onUpdate] has its display position inside the rendered
    image, and its natural position at the same fraction of the natural
    image as the display position is of the rendered one; as long as the
    pointer keeps the position inside the rendered image, the display
    position is the one at the start of the drag plus the pointer delta.
    The numbers are those of exact arithmetic. *)
Theorem text_drag_stays_on_the_image
    (local : InteractiveText.Local Q) (textData : ActiveText.t Q)
    (imageRef : HTMLImageElement Q) (e : MouseEvent Q) :
  positive_dimensions imageRef ->
  InteractiveText.isDragging local = true ->
  InteractiveText.isResizing local = false ->
  let g := InteractiveText.getRenderedImageGeometry imageRef in
  let start := InteractiveText.dragStart local in
  let targetX :=
    InteractiveText.textX start + (clientX e - InteractiveText.mouseX start) in
  let targetY :=
    InteractiveText.textY start + (clientY e - InteractiveText.mouseY start) in
  exists t,
    InteractiveText.handleMouseMove local textData imageRef e = [t] /\
    (offsetX g <= ActiveText.displayX t /\
     ActiveText.displayX t <= offsetX g + renderedWidth g) /\
    (offsetY g <= ActiveText.displayY t /\
     ActiveText.displayY t <= offsetY g + renderedHeight g) /\
    ActiveText.x t * renderedWidth g
    == (ActiveText.displayX t - offsetX g) * naturalWidth imageRef /\
    ActiveText.y t * renderedHeight g
    == (ActiveText.displayY t - offsetY g) * naturalHeight imageRef /\
    (offsetX g <= targetX -> targetX <= offsetX g + renderedWidth g ->
     ActiveText.displayX t == targetX) /\
    (offsetY g <= targetY -> targetY <= offsetY g + renderedHeight g ->
     ActiveText.displayY t == targetY) /\
    ActiveText.text t = ActiveText.text textData /\
    ActiveText.fontSize t = ActiveText.fontSize textData.
Proof.
  intros Hdims Hdrag Hresize g start targetX targetY.
  destruct (geometry_of_positive Hdims)
    as (g' & _ & Hg & Hrw & Hrh & Hox & Hoy & Hsc & Hsw & Hsh & _).
  fold g in Hg. subst g'.
  unfold InteractiveText.handleMouseMove. rewrite Hdrag, Hresize.
  fold g. eexists. split; [reflexivity |].
  unfold InteractiveText.dragUpdate.
  cbn [ActiveText.displayX ActiveText.displayY ActiveText.x ActiveText.y
       ActiveText.text ActiveText.fontSize
       add sub mul Math_max Math_min Q_Number].
  fold start. fold targetX targetY.
  destruct (@clamp_between (offsetX g) (renderedWidth g + offsetX g) targetX)
    as (HxL & HxU & HxE); [lra |].
  destruct (@clamp_between (offsetY g) (renderedHeight g + offsetY g) targetY)
    as (HyL & HyU & HyE); [lra |].
  set (dX := Qmax (offsetX g) (Qmin targetX (renderedWidth g + offsetX g))) in *.
  set (dY := Qmax (offsetY g) (Qmin targetY (renderedHeight g + offsetY g))) in *.
  clearbody dX dY.
  split; [split; lra |]. split; [split; lra |].
  split; [rewrite <- Hsw; ring |]. split; [rewrite <- Hsh; ring |].
  split; [intros Hlo Hhi; apply HxE; lra |].
  split; [intros Hlo Hhi; apply HyE; lra |].
  split; reflexivity.
Qed.

Lemma text_drag_stays_on_the_image_witness :
  let img := {| naturalWidth := 1000; naturalHeight := 1000;
                clientWidth := 500; clientHeight := 500 |} in
  let textData :=
    {| ActiveText.text := "Summer Sale"; ActiveText.fontFamily := "Roboto";
       ActiveText.fontSize := 50; ActiveText.fontWeight := weight_bold;
       ActiveText.fontStyle := style_normal; ActiveText.color := "#FFFFFF";
       ActiveText.x := 500; ActiveText.y := 500;
       ActiveText.displayX := 250; ActiveText.displayY := 250 |} in
  let local :=
    InteractiveText.handleDragStart textData
      {| clientX := 300; clientY := 300 |} InteractiveText.mount in
  exists t,
    InteractiveText.handleMouseMove local textData img
      {| clientX := 900; clientY := 310 |} = [t] /\
    ActiveText.displayX t <= 500 /\
    ActiveText.x t * 500 == (ActiveText.displayX t - 0) * 1000 /\
    ActiveText.displayY t == 260.
Proof.
  intros img textData local.
  destruct (@text_drag_stays_on_the_image local textData img
              {| clientX := 900; clientY := 310 |})
    as (t & Ht & [_ HdX] & _ & Hx & _ & _ & HyE & _).
  - unfold positive_dimensions; cbn; repeat split; reflexivity.
  - reflexivity.
  - reflexivity.
  - exists t. split; [exact Ht |].
    split; [eapply Qle_trans; [exact HdX | vm_compute; discriminate] |].
    split.
    + assert (Hrw : renderedWidth (InteractiveText.getRenderedImageGeometry img)
                    == 500) by (vm_compute; reflexivity).
      assert (Hox : offsetX (InteractiveText.getRenderedImageGeometry img)
                    == 0) by (vm_compute; reflexivity).
      rewrite Hrw, Hox in Hx. exact Hx.
    + rewrite HyE; [reflexivity | |]; vm_compute; discriminate.
Defined.

(** X5.  With the text tool and no active text, a click on an image of
    positive dimensions that falls outside the rendered image leaves the
    session as it was, and a click inside it creates an active text of font
    size 50 at the clicked display point, with natural coordinates that
    agree with it, changing nothing else; with another tool or with an
    active text the click does nothing.  Inside and outside are those of
    exact arithmetic. *)
Theorem click_places_text_on_the_image_only
    (imageRef : HTMLImageElement Q) (containerRect : DOMRect Q)
    (e : MouseEvent Q) (s : App.State Q) :
  positive_dimensions imageRef ->
  let s' := App.handleImageClick (Some imageRef) containerRect e s in
  (App.activeTool s <> App.text \/ App.activeText s <> None -> s' = s) /\
  (App.activeTool s = App.text -> App.activeText s = None ->
   exists g,
     App.getRenderedImageGeometry (Some imageRef) = Some g /\
     let relX := clientX e - rectLeft containerRect - offsetX g in
     let relY := clientY e - rectTop containerRect - offsetY g in
     (relX < 0 \/ renderedWidth g < relX \/ relY < 0
      \/ renderedHeight g < relY -> s' = s) /\
     (0 <= relX -> relX <= renderedWidth g -> 0 <= relY ->
      relY <= renderedHeight g ->
      exists t,
        s' = App.setActiveText (Some t) s /\
        ActiveText.displayX t = clientX e - rectLeft containerRect /\
        ActiveText.displayY t = clientY e - rectTop containerRect /\
        coordinates_agree g t /\ ActiveText.fontSize t = 50)).
Proof.
  intros Hdims s'. split.
  - intros Hguard. unfold s', App.handleImageClick.
    destruct (App.activeTool s) eqn:Htool, (App.activeText s) eqn:Htext;
      try reflexivity.
    destruct Hguard as [Hguard | Hguard]; contradiction.
  - intros Htool Htext.
    destruct (geometry_of_positive Hdims)
      as (g & Hg & _ & Hrw & Hrh & Hox & Hoy & Hsc & Hsw & Hsh & _).
    exists g. split; [exact Hg |].
    intros relX relY. unfold s', App.handleImageClick.
    rewrite Htool, Htext, Hg.
    cbn [App.isText App.isNull negb orb sub mul ltb ofZ Q_Number].
    fold relX relY. change (inject_Z 0) with 0.
    split.
    + intros Hout.
      destruct (Qltb relX 0) eqn:H1; [reflexivity |].
      destruct (Qltb (renderedWidth g) relX) eqn:H2; [reflexivity |].
      destruct (Qltb relY 0) eqn:H3; [reflexivity |].
      destruct (Qltb (renderedHeight g) relY) eqn:H4; [reflexivity |].
      apply Qltb_ge in H1, H2, H3, H4.
      destruct Hout as [Hout | [Hout | [Hout | Hout]]]; lra.
    + intros Hx0 Hx1 Hy0 Hy1.
      destruct (Qltb relX 0) eqn:H1; [apply Qltb_lt in H1; lra |].
      destruct (Qltb (renderedWidth g) relX) eqn:H2; [apply Qltb_lt in H2; lra |].
      destruct (Qltb relY 0) eqn:H3; [apply Qltb_lt in H3; lra |].
      destruct (Qltb (renderedHeight g) relY) eqn:H4; [apply Qltb_lt in H4; lra |].
      cbn [orb]. eexists. split; [reflexivity |]. cbn.
      split; [reflexivity |]. split; [reflexivity |].
      split; [split; reflexivity | reflexivity].
Qed.

Lemma click_places_text_on_the_image_only_witness :
  let img := {| naturalWidth := 2000; naturalHeight := 1000;
                clientWidth := 800; clientHeight := 600 |} in
  let s := App.setActiveTool App.text (App.initial (N := Q)) in
  let rect := {| rectLeft := 10; rectTop := 20 |} in
  positive_dimensions img /\
  App.handleImageClick (Some img) rect {| clientX := 410; clientY := 70 |} s = s /\
  App.activeText
    (App.handleImageClick (Some img) rect {| clientX := 410; clientY := 320 |} s)
  <> None.
Proof.
  intros img s rect.
  assert (Hpos : positive_dimensions img)
    by (unfold positive_dimensions; cbn; repeat split; reflexivity).
  split; [exact Hpos |]. split.
  - destruct (proj2 (@click_places_text_on_the_image_only img rect
                       {| clientX := 410; clientY := 70 |} s Hpos)
                eq_refl eq_refl) as (g & Hg & Hout & _).
    apply Hout. injection Hg as <-. right. right. left. reflexivity.
  - destruct (proj2 (@click_places_text_on_the_image_only img rect
                       {| clientX := 410; clientY := 320 |} s Hpos)
                eq_refl eq_refl) as (g & Hg & _ & Hin).
    injection Hg as <-.
    destruct Hin as (t & Ht & _);
      [vm_compute; discriminate | vm_compute; discriminate
       | vm_compute; discriminate | vm_compute; discriminate |].
    rewrite Ht. discriminate.
Defined.

(** X6.  A resize hands [onUpdate] the text with a font size of at least 8
    and with its text, style and both coordinate pairs as they were; the
    size is the one at the start of the resize plus half the pointer delta
    along the axis that moved more, the vertical one on a tie, whenever that
    is at least 8. *)
Theorem text_resize_keeps_position_and_floor
    (local : InteractiveText.Local Q) (textData : ActiveText.t Q)
    (e : MouseEvent Q) :
  let start := InteractiveText.resizeStart local in
  let dx := clientX e - InteractiveText.x start in
  let dy := clientY e - InteractiveText.y start in
  let t := InteractiveText.resizeUpdate local textData e in
  8 <= ActiveText.fontSize t /\
  ActiveText.text t = ActiveText.text textData /\
  (ActiveText.x t, ActiveText.y t, ActiveText.displayX t, ActiveText.displayY t)
  = (ActiveText.x textData, ActiveText.y textData,
     ActiveText.displayX textData, ActiveText.displayY textData) /\
  (ActiveText.fontFamily t, ActiveText.fontWeight t, ActiveText.fontStyle t,
   ActiveText.color t)
  = (ActiveText.fontFamily textData, ActiveText.fontWeight textData,
     ActiveText.fontStyle textData, ActiveText.color textData) /\
  (Qabs dy < Qabs dx ->
   8 <= InteractiveText.fontSize start + dx / 2 ->
   ActiveText.fontSize t == InteractiveText.fontSize start + dx / 2) /\
  (Qabs dx <= Qabs dy ->
   8 <= InteractiveText.fontSize start + dy / 2 ->
   ActiveText.fontSize t == InteractiveText.fontSize start + dy / 2).
Proof.
  intros start dx dy t.
  unfold t, InteractiveText.resizeUpdate.
  cbn [ActiveText.fontSize ActiveText.text ActiveText.fontFamily
       ActiveText.fontWeight ActiveText.fontStyle ActiveText.color
       ActiveText.x ActiveText.y ActiveText.displayX ActiveText.displayY
       add sub mul ltb ofZ Math_abs Math_max half div Q_Number].
  fold start. fold dx dy. change (inject_Z 8) with 8.
  split; [apply Q.le_max_l |]. split; [reflexivity |].
  split; [reflexivity |]. split; [reflexivity |].
  assert (Ehalf : forall d, d * (inject_Z 1 / inject_Z 2) == d / 2)
    by (intros d; field).
  split.
  - intros Hdom Hfloor.
    destruct (Qltb (Qabs dy) (Qabs dx)) eqn:Hcmp;
      [| apply Qltb_ge in Hcmp; lra].
    rewrite Ehalf. apply Q.max_r. exact Hfloor.
  - intros Hdom Hfloor.
    destruct (Qltb (Qabs dy) (Qabs dx)) eqn:Hcmp;
      [apply Qltb_lt in Hcmp; lra |].
    rewrite Ehalf. apply Q.max_r. exact Hfloor.
Qed.

Lemma text_resize_keeps_position_and_floor_witness :
  let textData :=
    {| ActiveText.text := "Summer Sale"; ActiveText.fontFamily := "Roboto";
       ActiveText.fontSize := 50; ActiveText.fontWeight := weight_bold;
       ActiveText.fontStyle := style_normal; ActiveText.color := "#FFFFFF";
       ActiveText.x := 500; ActiveText.y := 500;
       ActiveText.displayX := 250; ActiveText.displayY := 250 |} in
  let local :=
    InteractiveText.handleResizeStart textData
      {| clientX := 300; clientY := 300 |} InteractiveText.mount in
  ActiveText.fontSize
    (InteractiveText.resizeUpdate local textData
       {| clientX := 320; clientY := 290 |}) == 60 /\
  ActiveText.fontSize
    (InteractiveText.resizeUpdate local textData
       {| clientX := 300; clientY := 100 |}) == 8.
Proof.
  intros textData local. split.
  - destruct (@text_resize_keeps_position_and_floor local textData
                {| clientX := 320; clientY := 290 |})
      as (_ & _ & _ & _ & Hx & _).
    rewrite Hx; [reflexivity | reflexivity | vm_compute; discriminate].
  - reflexivity.
Defined.

(** ** The layer collection *)

Section Layers.
Context {N : Type} `{Number N}.
Implicit Types s : App.State N.
Implicit Types layers : list (ComponentLayer.t N).

Lemma filter_of_absent_id layers (i : string) :
  ~ In i (map (fun c => ComponentLayer.id c) layers) ->
  filter (fun c => negb (idIs i c)) layers = layers.
Proof.
  induction layers as [| c rest IH]; intros Hnotin; [reflexivity |].
  cbn. unfold idIs at 1.
  destruct (String.eqb_spec (ComponentLayer.id c) i) as [Heq | Hne]; cbn.
  - exfalso. apply Hnotin. left. exact Heq.
  - f_equal. apply IH. intros Hin. apply Hnotin. right. exact Hin.
Qed.

Lemma filter_removes_one layers (i : string) :
  NoDup (map (fun c => ComponentLayer.id c) layers) ->
  In i (map (fun c => ComponentLayer.id c) layers) ->
  S (List.length (filter (fun c => negb (idIs i c)) layers))
  = List.length layers.
Proof.
  induction layers as [| c rest IH]; intros Hnodup Hin; [contradiction |].
  cbn in Hnodup, Hin. inversion Hnodup as [| ? ? Hnotin Hrest]; subst.
  cbn [filter]. unfold idIs at 1.
  destruct (String.eqb_spec (ComponentLayer.id c) i) as [Heq | Hne]; cbn.
  - rewrite filter_of_absent_id; [reflexivity |]. rewrite <- Heq. exact Hnotin.
  - f_equal. apply IH; [exact Hrest |].
    destruct Hin as [Heq | Hin]; [contradiction | exact Hin].
Qed.

Lemma find_never layers :
  find (fun _ : ComponentLayer.t N => false) layers = None.
Proof. induction layers as [| c rest IH]; [reflexivity | exact IH]. Qed.

Lemma no_selection_no_component s :
  App.activeComponentId s = None -> App.activeComponent s = None.
Proof.
  unfold App.activeComponent. intros ->.
  induction (App.componentLayers s) as [| c rest IH]; [reflexivity | exact IH].
Qed.

Lemma activeComponent_found s (c : ComponentLayer.t N) :
  App.activeComponent s = Some c ->
  In c (App.componentLayers s) /\
  App.activeComponentId s = Some (ComponentLayer.id c).
Proof.
  unfold App.activeComponent. intros Hfind.
  apply find_some in Hfind. destruct Hfind as [Hin Hid].
  split; [exact Hin |].
  destruct (App.activeComponentId s) as [i |]; [| discriminate].
  apply String.eqb_eq in Hid. rewrite Hid. reflexivity.
Qed.

Lemma update_of_absent_id (updatedLayer : ComponentLayer.t N) layers :
  ~ In (ComponentLayer.id updatedLayer)
       (map (fun c => ComponentLayer.id c) layers) ->
  map (fun c => if String.eqb (ComponentLayer.id c)
                              (ComponentLayer.id updatedLayer)
                then updatedLayer else c) layers = layers.
Proof.
  induction layers as [| c rest IH]; intros Hnotin; [reflexivity |].
  cbn. destruct (String.eqb_spec (ComponentLayer.id c)
                   (ComponentLayer.id updatedLayer)) as [Heq | Hne].
  - exfalso. apply Hnotin. left. exact Heq.
  - f_equal. apply IH. intros Hin. apply Hnotin. right. exact Hin.
Qed.

Lemma update_at_position (updatedLayer : ComponentLayer.t N) layers (k : nat)
    (c : ComponentLayer.t N) :
  NoDup (map (fun c => ComponentLayer.id c) layers) ->
  nth_error layers k = Some c ->
  ComponentLayer.id c = ComponentLayer.id updatedLayer ->
  map (fun c => if String.eqb (ComponentLayer.id c)
                              (ComponentLayer.id updatedLayer)
                then updatedLayer else c) layers
  = (firstn k layers ++ updatedLayer :: skipn (S k) layers)%list.
Proof.
  revert k. induction layers as [| c' rest IH]; intros k Hnodup Hnth Hid.
  - destruct k; discriminate.
  - cbn in Hnodup. inversion Hnodup as [| ? ? Hnotin Hrest]; subst.
    destruct k as [| k].
    + cbn in Hnth. injection Hnth as ->. cbn.
      rewrite Hid, String.eqb_refl. f_equal.
      apply update_of_absent_id. rewrite <- Hid. exact Hnotin.
    + cbn in Hnth. cbn [map firstn skipn app].
      destruct (String.eqb_spec (ComponentLayer.id c')
                  (ComponentLayer.id updatedLayer)) as [Heq | Hne].
      * exfalso. apply Hnotin. rewrite Heq, <- Hid.
        apply in_map. apply nth_error_In with (n := k). exact Hnth.
      * f_equal. apply IH; assumption.
Qed.

Lemma find_after_fresh_append layers (c : ComponentLayer.t N) :
  ~ In (ComponentLayer.id c) (map (fun c => ComponentLayer.id c) layers) ->
  find (idIs (ComponentLayer.id c)) (layers ++ [c]) = Some c.
Proof.
  induction layers as [| c' rest IH]; intros Hfresh.
  - cbn. unfold idIs. rewrite String.eqb_refl. reflexivity.
  - cbn. unfold idIs at 1.
    destruct (String.eqb_spec (ComponentLayer.id c') (ComponentLayer.id c))
      as [Heq | Hne].
    + exfalso. apply Hfresh. left. exact Heq.
    + apply IH. intros Hin. apply Hfresh. right. exact Hin.
Qed.

End Layers.

(** X7.  Deleting with a selected, non-empty id removes every layer with
    that id and no other, keeps the order of the rest, and leaves no
    selection and no active component; when the ids of the collection are
    distinct and the selected one is present, exactly one layer goes.
    Without a selection the session is unchanged. *)
Theorem delete_removes_the_selected_layer
    (N : Type) `{Number N} (s : App.State N) :
  (App.activeComponentId s = None -> App.handleDeleteComponent s = s) /\
  (forall i,
     App.activeComponentId s = Some i -> i <> EmptyString ->
     let s' := App.handleDeleteComponent s in
     App.componentLayers s'
     = filter (fun c => negb (String.eqb (ComponentLayer.id c) i))
              (App.componentLayers s) /\
     ~ In i (layerIds s') /\
     App.activeComponentId s' = None /\
     App.activeComponent s' = None /\
     history_unchanged s s' /\
     (NoDup (layerIds s) -> In i (layerIds s) ->
      S (List.length (App.componentLayers s'))
      = List.length (App.componentLayers s))).
Proof.
  split.
  - intros Hnone. unfold App.handleDeleteComponent. rewrite Hnone. reflexivity.
  - intros i Hsel Hne s'.
    assert (Hs' : s' = App.setActiveComponentId None
                         (App.setComponentLayers
                            (filter (fun c => negb (String.eqb (ComponentLayer.id c) i))
                                    (App.componentLayers s)) s)).
    { unfold s', App.handleDeleteComponent. rewrite Hsel. unfold truthy.
      destruct (String.eqb_spec i EmptyString); [contradiction | reflexivity]. }
    rewrite Hs'. cbn.
    split; [reflexivity |]. split.
    + unfold layerIds. cbn. intros Hin. apply in_map_iff in Hin.
      destruct Hin as (c & Hid & Hin). apply filter_In in Hin.
      destruct Hin as [_ Hkeep]. rewrite Hid, String.eqb_refl in Hkeep.
      discriminate.
    + split; [reflexivity |]. split.
      * apply find_never.
      * split; [split; reflexivity |].
        intros Hnodup Hin. apply filter_removes_one; assumption.
Qed.

Lemma delete_removes_the_selected_layer_witness :
  let s := App.setActiveTool App.component editingSession in
  App.componentLayers (App.handleDeleteComponent s) = [] /\
  App.activeComponentId (App.handleDeleteComponent s) = None /\
  S (List.length (App.componentLayers (App.handleDeleteComponent s))) = 1%nat.
Proof.
  intro s.
  destruct (proj2 (delete_removes_the_selected_layer s) "comp_1700000000000"
              eq_refl) as (Hlayers & _ & Hsel & _ & _ & Hcount).
  - discriminate.
  - split; [rewrite Hlayers; reflexivity |]. split; [exact Hsel |].
    apply Hcount.
    + repeat constructor. intros [].
    + left. reflexivity.
Defined.

(** X8.  An update keeps the length, the ids and the order of the
    collection, the selection, and the history.  With an id that no layer
    has it changes nothing; with distinct ids it replaces the layer at the
    position of that id and no other. *)
Theorem update_replaces_one_layer
    (N : Type) `{Number N} (updatedLayer : ComponentLayer.t N)
    (s : App.State N) :
  let s' := App.handleComponentUpdate updatedLayer s in
  layerIds s' = layerIds s /\
  List.length (App.componentLayers s') = List.length (App.componentLayers s) /\
  App.activeComponentId s' = App.activeComponentId s /\
  history_unchanged s s' /\
  (~ In (ComponentLayer.id updatedLayer) (layerIds s) -> s' = s) /\
  (forall k c,
     NoDup (layerIds s) ->
     nth_error (App.componentLayers s) k = Some c ->
     ComponentLayer.id c = ComponentLayer.id updatedLayer ->
     App.componentLayers s'
     = (firstn k (App.componentLayers s)
        ++ updatedLayer :: skipn (S k) (App.componentLayers s))%list).
Proof.
  intro s'. split; [apply update_keeps_ids |].
  split; [unfold s', App.handleComponentUpdate; cbn; apply length_map |].
  split; [reflexivity |]. split; [split; reflexivity |]. split.
  - intros Habsent. unfold s', App.handleComponentUpdate.
    rewrite (update_of_absent_id updatedLayer _ Habsent).
    destruct s; reflexivity.
  - intros k c Hnodup Hnth Hid. unfold s', App.handleComponentUpdate. cbn.
    apply update_at_position with (c := c); assumption.
Qed.

Lemma update_replaces_one_layer_witness :
  let logo :=
    {| ComponentLayer.id := "comp_1700000000000";
       ComponentLayer.src := "data:image/png;base64,LOGO";
       ComponentLayer.originalFile := {| fileName := "logo.png" |};
       ComponentLayer.x := 1 / 2; ComponentLayer.y := 1 / 2;
       ComponentLayer.scale := 1 / 2; ComponentLayer.rotation := 0;
       ComponentLayer.flipH := false; ComponentLayer.flipV := false |} in
  let turned :=
    {| ComponentLayer.id := "comp_1700000000000";
       ComponentLayer.src := "data:image/png;base64,LOGO";
       ComponentLayer.originalFile := {| fileName := "logo.png" |};
       ComponentLayer.x := 1 / 2; ComponentLayer.y := 1 / 2;
       ComponentLayer.scale := 1 / 2; ComponentLayer.rotation := 90;
       ComponentLayer.flipH := false; ComponentLayer.flipV := false |} in
  let s :=
    App.handleComponentUpload {| fileName := "badge.png" |}
      (App.resolved "data:image/png;base64,BADGE") 1700000000500
      editingSession in
  map (fun c => ComponentLayer.rotation c)
      (App.componentLayers (App.handleComponentUpdate turned s))
  = [90; inject_Z 0].
Proof.
  intros logo turned s.
  destruct (update_replaces_one_layer turned s) as (_ & _ & _ & _ & _ & Hone).
  rewrite (Hone 0%nat logo).
  - reflexivity.
  - repeat constructor; [intros [Heq | []]; discriminate Heq | intros []].
  - reflexivity.
  - reflexivity.
Defined.

(** X9.  An upload that loads appends one layer at the centre, at half
    scale, unrotated and unflipped, selects its id and leaves history and
    error slot alone; when no layer had that id before, the new layer is the
    active component.  An upload that fails to load only writes the error
    slot. *)
Theorem upload_appends_and_selects
    (N : Type) `{Number N} (file : File) (now : Z) (s : App.State N) :
  (forall dataUrl,
     let s' := App.handleComponentUpload file (App.resolved dataUrl) now s in
     exists layer,
       App.componentLayers s' = (App.componentLayers s ++ [layer])%list /\
       ComponentLayer.id layer = ("comp_" ++ toString now)%string /\
       ComponentLayer.src layer = dataUrl /\
       (ComponentLayer.x layer, ComponentLayer.y layer,
        ComponentLayer.scale layer, ComponentLayer.rotation layer)
       = (half, half, half, ofZ 0) /\
       (ComponentLayer.flipH layer, ComponentLayer.flipV layer)
       = (false, false) /\
       App.activeComponentId s' = Some (ComponentLayer.id layer) /\
       history_unchanged s s' /\ App.error s' = App.error s /\
       (~ In (ComponentLayer.id layer) (layerIds s) ->
        App.activeComponent s' = Some layer)) /\
  (forall message,
     App.handleComponentUpload file (App.rejected message) now s
     = App.setError (Some "Could not load component image file.") s).
Proof.
  split; [| reflexivity].
  intros dataUrl s'. eexists. split; [reflexivity |].
  split; [reflexivity |]. split; [reflexivity |]. split; [reflexivity |].
  split; [reflexivity |]. split; [reflexivity |].
  split; [split; reflexivity |]. split; [reflexivity |].
  intros Hfresh. unfold App.activeComponent. cbn.
  apply (find_after_fresh_append _ _ Hfresh).
Qed.

Lemma upload_appends_and_selects_witness :
  let s' :=
    App.handleComponentUpload {| fileName := "badge.png" |}
      (App.resolved "data:image/png;base64,BADGE") 1700000000500
      editingSession in
  option_map (fun c => ComponentLayer.src c) (App.activeComponent s')
  = Some "data:image/png;base64,BADGE".
Proof.
  intro s'.
  destruct (proj1 (@upload_appends_and_selects Q _ {| fileName := "badge.png" |}
                     1700000000500 editingSession)
              "data:image/png;base64,BADGE")
    as (layer & _ & Hid & Hsrc & _ & _ & _ & _ & _ & Hactive).
  fold s' in Hactive. rewrite Hactive.
  - cbn. rewrite Hsrc. reflexivity.
  - rewrite Hid. intros [Heq | []]. discriminate Heq.
Defined.

(** ** Dragging a layer on screen *)

(** X10.  On an image of positive dimensions the centre of a dragged layer
    is shown on the rendered image, and as long as the clamp does not act
    it is shown where it was at the start of the drag plus the pointer
    delta. *)
Theorem component_follows_the_pointer
    (data : ComponentLayer.t Q) (imageRef : HTMLImageElement Q)
    (e0 e : MouseEvent Q) :
  positive_dimensions imageRef ->
  let local :=
    InteractiveComponent.handleDragStart data e0 InteractiveComponent.mount in
  let g := InteractiveComponent.getRenderedImageGeometry imageRef in
  let dx := clientX e - clientX e0 in
  let dy := clientY e - clientY e0 in
  exists layer,
    InteractiveComponent.handleMouseMove local data imageRef e = Some layer /\
    (InteractiveComponent.offsetX g
     <= InteractiveComponent.displayX layer g /\
     InteractiveComponent.displayX layer g
     <= InteractiveComponent.offsetX g + InteractiveComponent.renderedWidth g) /\
    (InteractiveComponent.offsetY g
     <= InteractiveComponent.displayY layer g /\
     InteractiveComponent.displayY layer g
     <= InteractiveComponent.offsetY g + InteractiveComponent.renderedHeight g) /\
    (0 <= ComponentLayer.x data + dx / InteractiveComponent.renderedWidth g ->
     ComponentLayer.x data + dx / InteractiveComponent.renderedWidth g <= 1 ->
     InteractiveComponent.displayX layer g
     == InteractiveComponent.displayX data g + dx) /\
    (0 <= ComponentLayer.y data + dy / InteractiveComponent.renderedHeight g ->
     ComponentLayer.y data + dy / InteractiveComponent.renderedHeight g <= 1 ->
     InteractiveComponent.displayY layer g
     == InteractiveComponent.displayY data g + dy).
Proof.
  intros Hdims local g dx dy.
  destruct (rendered_size_positive Hdims) as [Hrw Hrh]. fold g in Hrw, Hrh.
  unfold InteractiveComponent.handleMouseMove.
  change (InteractiveComponent.isDragging local) with true. cbv iota.
  fold g. eexists. split; [reflexivity |].
  unfold InteractiveComponent.displayX, InteractiveComponent.displayY.
  cbn [ComponentLayer.x ComponentLayer.y InteractiveComponent.draggedTo
       InteractiveComponent.dragStart InteractiveComponent.mouseX
       InteractiveComponent.mouseY InteractiveComponent.componentX
       InteractiveComponent.componentY local
       InteractiveComponent.handleDragStart
       add sub mul div ofZ Math_max Math_min Q_Number].
  fold dx dy. change (inject_Z 0) with 0. change (inject_Z 1) with 1.
  set (rw := InteractiveComponent.renderedWidth g) in *.
  set (rh := InteractiveComponent.renderedHeight g) in *.
  pose proof (clamp_to_unit_interval (ComponentLayer.x data + dx / rw)) as [Hx0 Hx1].
  pose proof (clamp_to_unit_interval (ComponentLayer.y data + dy / rh)) as [Hy0 Hy1].
  assert (Hmove : forall v d r, 0 < r -> 0 <= v + d / r -> v + d / r <= 1 ->
            Qmax 0 (Qmin 1 (v + d / r)) * r == v * r + d).
  { intros v d r Hr H0 H1. rewrite (Q.min_r 1 _ H1), (Q.max_r 0 _ H0).
    field. lra. }
  assert (Hin : forall c r, 0 < r -> 0 <= c -> c <= 1 ->
            0 <= c * r /\ c * r <= r).
  { intros c r Hr H0 H1. split; [apply Qmult_le_0_compat; lra |].
    rewrite <- (Qmult_1_l r) at 2. apply Qmult_le_compat_r; lra. }
  destruct (Hin _ rw Hrw Hx0 Hx1) as [Hxa Hxb].
  destruct (Hin _ rh Hrh Hy0 Hy1) as [Hya Hyb].
  split; [split; lra |]. split; [split; lra |]. split.
  - intros H0 H1. rewrite (Hmove _ _ _ Hrw H0 H1). ring.
  - intros H0 H1. rewrite (Hmove _ _ _ Hrh H0 H1). ring.
Qed.

Lemma component_follows_the_pointer_witness :
  let img := {| naturalWidth := 1000; naturalHeight := 1000;
                clientWidth := 500; clientHeight := 500 |} in
  let data :=
    {| ComponentLayer.id := "comp_1700000000000";
       ComponentLayer.src := "data:image/png;base64,LOGO";
       ComponentLayer.originalFile := {| fileName := "logo.png" |};
       ComponentLayer.x := 1 / 2; ComponentLayer.y := 1 / 2;
       ComponentLayer.scale := 1 / 2; ComponentLayer.rotation := 0;
       ComponentLayer.flipH := false; ComponentLayer.flipV := false |} in
  let g := InteractiveComponent.getRenderedImageGeometry img in
  exists layer,
    InteractiveComponent.handleMouseMove
      (InteractiveComponent.handleDragStart data
         {| clientX := 100; clientY := 200 |} InteractiveComponent.mount)
      data img {| clientX := 150; clientY := 200 |} = Some layer /\
    InteractiveComponent.displayX layer g == 300.
Proof.
  intros img data g.
  destruct (@component_follows_the_pointer data img
              {| clientX := 100; clientY := 200 |}
              {| clientX := 150; clientY := 200 |})
    as (layer & Hmove & _ & _ & Hx & _).
  - unfold positive_dimensions; cbn; repeat split; reflexivity.
  - exists layer. split; [exact Hmove |].
    fold g in Hx. rewrite Hx; [reflexivity | |]; vm_compute; discriminate.
Defined.

(** ** The resized canvas *)

Lemma round_half_up_near (x : Q) :
  x - (1 # 2) < Qround_half_up x /\ Qround_half_up x <= x + (1 # 2).
Proof.
  unfold Qround_half_up. split.
  - pose proof (Qlt_floor (x + (1 # 2))) as Hlt.
    rewrite inject_Z_plus in Hlt. change (inject_Z 1) with 1 in Hlt. lra.
  - apply Qfloor_le.
Qed.

(** X11.  A target ratio equal to the ratio of the source gives a canvas of
    the size of the source, with the source drawn at [(0, 0)]: no border is
    added. *)
Theorem ratio_of_the_source_adds_no_border
    (w h : Z) (src : string) (ratio : Q) :
  (0 < w)%Z -> (0 < h)%Z -> ratio == inject_Z w / inject_Z h ->
  let img := {| imageSrc := src; imageNaturalWidth := inject_Z w;
                imageNaturalHeight := inject_Z h |} in
  let canvas := App.ratioCanvas img ratio in
  Canvas.width canvas = inject_Z w /\ Canvas.height canvas = inject_Z h /\
  exists x y,
    Canvas.calls canvas =
      [Canvas.fillRect "#FFFFFF" Canvas.identity 0 0 (inject_Z w) (inject_Z h);
       Canvas.drawImage img Canvas.identity x y None] /\
    x == 0 /\ y == 0.
Proof.
  intros Hw Hh Hratio img canvas.
  assert (Hwq : 0 < inject_Z w)
    by (change 0 with (inject_Z 0); rewrite <- Zlt_Qlt; exact Hw).
  assert (Hhq : 0 < inject_Z h)
    by (change 0 with (inject_Z 0); rewrite <- Zlt_Qlt; exact Hh).
  assert (Hheight : Qround_half_up (inject_Z w / ratio) = inject_Z h).
  { rewrite <- (round_of_integer h). unfold Qround_half_up. f_equal.
    apply Qfloor_comp. rewrite Hratio. field. split; lra. }
  unfold canvas, App.ratioCanvas.
  cbn [imageNaturalWidth imageNaturalHeight img ltb div sub mul ofZ
       Math_round Q_Number].
  destruct (Qltb (inject_Z w / inject_Z h) ratio) eqn:Hcmp.
  { apply Qltb_lt in Hcmp. rewrite Hratio in Hcmp.
    exfalso. exact (Qlt_irrefl _ Hcmp). }
  cbn. rewrite Hheight, round_of_integer.
  split; [reflexivity |]. split; [reflexivity |].
  eexists. eexists. split; [reflexivity |].
  split; unfold Qeq; cbn; lia.
Qed.

Lemma ratio_of_the_source_adds_no_border_witness :
  let img := {| imageSrc := "data:image/png;base64,PHOTO";
                imageNaturalWidth := 1920; imageNaturalHeight := 1080 |} in
  Canvas.width (App.ratioCanvas img (16 / 9)) = 1920 /\
  Canvas.height (App.ratioCanvas img (16 / 9)) = 1080.
Proof.
  intro img.
  destruct (@ratio_of_the_source_adds_no_border 1920 1080
              "data:image/png;base64,PHOTO" (16 / 9))
    as (Hw & Hh & _); try reflexivity.
  split; [exact Hw | exact Hh].
Defined.

Lemma ratio_canvas_cases (w h : Z) (src : string) (ratio : Q) :
  (0 < w)%Z -> (0 < h)%Z -> 0 < ratio ->
  let img := {| imageSrc := src; imageNaturalWidth := inject_Z w;
                imageNaturalHeight := inject_Z h |} in
  let canvas := App.ratioCanvas img ratio in
  let newW := Canvas.width canvas in
  let newH := Canvas.height canvas in
  ((newH = inject_Z h /\ newW = Qround_half_up (inject_Z h * ratio) /\
    inject_Z w <= newW) \/
   (newW = inject_Z w /\ newH = Qround_half_up (inject_Z w / ratio) /\
    inject_Z h <= newH)) /\
  Canvas.calls canvas =
    [Canvas.fillRect "#FFFFFF" Canvas.identity 0 0 newW newH;
     Canvas.drawImage img Canvas.identity
       ((newW - inject_Z w) / 2) ((newH - inject_Z h) / 2) None].
Proof.
  intros Hw Hh Hratio img canvas newW newH.
  assert (Hwq : 0 < inject_Z w)
    by (change 0 with (inject_Z 0); rewrite <- Zlt_Qlt; exact Hw).
  assert (Hhq : 0 < inject_Z h)
    by (change 0 with (inject_Z 0); rewrite <- Zlt_Qlt; exact Hh).
  unfold newW, newH, canvas, App.ratioCanvas.
  cbn [imageNaturalWidth imageNaturalHeight img ltb div sub mul ofZ
       Math_round Q_Number].
  destruct (Qltb (inject_Z w / inject_Z h) ratio) eqn:Hcmp; cbn.
  - apply Qltb_lt in Hcmp. split; [left | reflexivity].
    split; [apply round_of_integer |]. split; [reflexivity |].
    apply round_above_integer. apply Qlt_le_weak.
    apply (Qdiv_lt_mul Hhq) in Hcmp.
    rewrite (Qmult_comm (inject_Z h) ratio). exact Hcmp.
  - apply Qltb_ge in Hcmp. split; [right | reflexivity].
    split; [apply round_of_integer |]. split; [reflexivity |].
    apply round_above_integer. apply Qle_shift_div_l; [exact Hratio |].
    rewrite (Qmult_comm (inject_Z h) ratio).
    apply (Qle_div_mul Hhq). exact Hcmp.
Qed.

(** X12.  For a positive target ratio the resized canvas misses the ratio
    by half a pixel at most - its width differs from [height * ratio], or its
    height from [width / ratio], by at most [1/2] - and the two borders on
    each axis are equal: twice the offset plus the size of the source is the
    size of the canvas. *)
Theorem resized_canvas_is_within_half_a_pixel
    (w h : Z) (src : string) (ratio : Q) :
  (0 < w)%Z -> (0 < h)%Z -> 0 < ratio ->
  let img := {| imageSrc := src; imageNaturalWidth := inject_Z w;
                imageNaturalHeight := inject_Z h |} in
  let canvas := App.ratioCanvas img ratio in
  let newW := Canvas.width canvas in
  let newH := Canvas.height canvas in
  ((newH * ratio - (1 # 2) < newW /\ newW <= newH * ratio + (1 # 2)) \/
   (newW / ratio - (1 # 2) < newH /\ newH <= newW / ratio + (1 # 2))) /\
  exists x y,
    nth_error (Canvas.calls canvas) 1
    = Some (Canvas.drawImage img Canvas.identity x y None) /\
    x * 2 + inject_Z w == newW /\ y * 2 + inject_Z h == newH /\
    0 <= x /\ 0 <= y.
Proof.
  intros Hw Hh Hratio img canvas newW newH.
  destruct (@ratio_canvas_cases w h src ratio Hw Hh Hratio) as (Hcases & Hcalls).
  fold img canvas newW newH in Hcases, Hcalls.
  destruct Hcases as [(EH & EW & Hgrow) | (EW & EH & Hgrow)].
  - split.
    + left. rewrite EW, EH. apply round_half_up_near.
    + eexists. eexists. rewrite Hcalls. split; [reflexivity |].
      split; [field |]. split; [field |].
      rewrite EH. halves. split; lra.
  - split.
    + right. rewrite EW, EH. apply round_half_up_near.
    + eexists. eexists. rewrite Hcalls. split; [reflexivity |].
      split; [field |]. split; [field |].
      rewrite EW. halves. split; lra.
Qed.

Lemma resized_canvas_is_within_half_a_pixel_witness :
  let img := {| imageSrc := "data:image/png;base64,PHOTO";
                imageNaturalWidth := 1001; imageNaturalHeight := 1001 |} in
  exists x y,
    nth_error (Canvas.calls (App.ratioCanvas img (16 / 9))) 1
    = Some (Canvas.drawImage img Canvas.identity x y None) /\
    x * 2 + 1001 == 1780 /\ 0 <= y.
Proof.
  intro img.
  destruct (@resized_canvas_is_within_half_a_pixel 1001 1001
              "data:image/png;base64,PHOTO" (16 / 9))
    as (_ & x & y & Hcall & Hx & _ & _ & Hy); try reflexivity.
  exists x, y. split; [exact Hcall |]. split; [exact Hx | exact Hy].
Defined.

(** ** Operations that succeed *)

Section Commits.
Context {N : Type} `{Number N}.
Implicit Types s : App.State N.

Lemma pushToHistory_pushed (url : string) s s0 :
  history_invariant s ->
  App.history s0 = App.history s -> App.historyIndex s0 = App.historyIndex s ->
  pushed url s (App.pushToHistory url s0).
Proof.
  intros Hinv Hh Hi.
  assert (Hr : cursor_in_range s0).
  { apply invariant_in_range.
    apply invariant_transfers with (s := s); assumption. }
  destruct (pushToHistory_spec url Hr) as [Ph Pi].
  unfold pushed. rewrite Ph, Pi, Hh, Hi.
  split; [reflexivity |]. split; [reflexivity |]. split; [| reflexivity].
  unfold cursor_in_range in Hr. rewrite Hh, Hi in Hr.
  unfold index. destruct (Z.ltb_spec (App.historyIndex s + 1) 0); [lia |].
  rewrite nth_error_app2 by (rewrite length_firstn; lia).
  rewrite length_firstn.
  replace (Z.to_nat (App.historyIndex s + 1)
           - Nat.min (Z.to_nat (App.historyIndex s + 1))
                     (List.length (App.history s)))%nat
    with 0%nat by lia.
  reflexivity.
Qed.

Lemma pushed_transfers (url : string) s s1 s2 :
  App.history s2 = App.history s1 -> App.historyIndex s2 = App.historyIndex s1 ->
  App.error s2 = App.error s1 -> pushed url s s1 -> pushed url s s2.
Proof.
  unfold pushed. intros -> -> ->. exact (fun Hp => Hp).
Qed.

Lemma filter_drops_the_id layers (i : string) :
  ~ In i (map (fun c : ComponentLayer.t N => ComponentLayer.id c)
              (filter (fun c => negb (idIs i c)) layers)).
Proof.
  intros Hin. apply in_map_iff in Hin. destruct Hin as (c & Hid & Hc).
  apply filter_In in Hc. destruct Hc as [_ Hkeep].
  unfold idIs in Hkeep. rewrite Hid, String.eqb_refl in Hkeep.
  discriminate Hkeep.
Qed.

End Commits.

(** X13.  An adjustment that succeeds, made on a session whose cursor is in
    its history, keeps the snapshots up to the cursor, appends the returned
    image as the one shown, leaves no error and no busy flag, and does not
    touch the overlays. *)
Theorem successful_adjustment_appends_one_snapshot
    (N : Type) `{Number N} (prompt url : string) (s : App.State N) :
  history_invariant s -> App.originalImage s <> None ->
  let s' := App.handleApplyAdjustment prompt (App.resolved url) s in
  pushed url s s' /\ App.isLoading s' = false /\
  App.activeText s' = App.activeText s /\
  App.componentLayers s' = App.componentLayers s /\
  App.activeComponentId s' = App.activeComponentId s.
Proof.
  intros Hinv Horig s'. unfold s', App.handleApplyAdjustment.
  destruct (App.originalImage s); [| contradiction].
  split; [| repeat split].
  apply pushed_transfers
    with (s1 := App.pushToHistory url
                  (App.setError None (App.setIsLoading true s)));
    try reflexivity.
  apply pushToHistory_pushed; [exact Hinv | reflexivity | reflexivity].
Qed.

Lemma successful_adjustment_appends_one_snapshot_witness :
  let s' :=
    App.handleApplyAdjustment "warmer light"
      (App.resolved "data:image/png;base64,WARM") editingSession in
  App.history s'
  = ["data:image/png;base64,PHOTO"; "data:image/png;base64,WARM"] /\
  App.historyIndex s' = 1%Z /\
  App.componentLayers s' = App.componentLayers editingSession.
Proof.
  intro s'.
  destruct (@successful_adjustment_appends_one_snapshot Q _ "warmer light"
              "data:image/png;base64,WARM" editingSession)
    as ((Hh & Hi & _) & _ & _ & Hlayers & _).
  - right. vm_compute. split; [discriminate | reflexivity].
  - discriminate.
  - fold s' in Hh, Hi, Hlayers. rewrite Hh, Hi, Hlayers.
    split; [reflexivity |]. split; reflexivity.
Defined.

(** X14.  A ratio change whose image loads and whose canvas has a context
    appends the encoded canvas of [ratioCanvas] after the snapshots up to the
    cursor and shows it, with no error and no busy flag; the overlays stay as
    they were. *)
Theorem successful_ratio_appends_the_canvas
    (N : Type) `{Number N} (toDataURL : Canvas.Context2D N -> string)
    (shown : string) (ratio w h : N) (s : App.State N) :
  history_invariant s -> App.displayedImage s = Some shown ->
  let s' :=
    App.handleApplyRatio toDataURL (Some ratio) (App.onload w h) true s in
  let img := {| imageSrc := shown; imageNaturalWidth := w;
                imageNaturalHeight := h |} in
  pushed (toDataURL (App.ratioCanvas img ratio)) s s' /\
  App.isLoading s' = false /\
  App.activeText s' = App.activeText s /\
  App.componentLayers s' = App.componentLayers s /\
  App.activeComponentId s' = App.activeComponentId s.
Proof.
  intros Hinv Hshown s' img. unfold s', App.handleApplyRatio.
  rewrite Hshown. split; [| repeat split].
  apply pushed_transfers
    with (s1 := App.pushToHistory (toDataURL (App.ratioCanvas img ratio))
                  (App.setError None (App.setIsLoading true s)));
    try reflexivity.
  apply pushToHistory_pushed; [exact Hinv | reflexivity | reflexivity].
Qed.

Lemma successful_ratio_appends_the_canvas_witness :
  let s' :=
    App.handleApplyRatio encodePng (Some (16 # 9)) (App.onload 1000 1000)
      true editingSession in
  App.history s'
  = ["data:image/png;base64,PHOTO"; "data:image/png;base64,CANVAS"] /\
  App.historyIndex s' = 1%Z.
Proof.
  intro s'.
  destruct (@successful_ratio_appends_the_canvas Q _ encodePng
              "data:image/png;base64,PHOTO" (16 # 9) 1000 1000 editingSession)
    as ((Hh & Hi & _) & _).
  - right. vm_compute. split; [discriminate | reflexivity].
  - reflexivity.
  - fold s' in Hh, Hi. rewrite Hh, Hi. split; reflexivity.
Defined.

(** X15.  A text bake that goes through (an image element with a geometry, a
    context, the snapshot loads) appends the encoded canvas of [textCanvas]
    after the snapshots up to the cursor, shows it and removes the active
    text; the layers, the selection and the busy flag are as before. *)
Theorem successful_bake_appends_and_drops_the_text
    (N : Type) `{Number N} (toDataURL : Canvas.Context2D N -> string)
    (shown : string) (t : ActiveText.t N) (imageRef : HTMLImageElement N)
    (w h : N) (s : App.State N) :
  history_invariant s ->
  App.displayedImage s = Some shown -> App.activeText s = Some t ->
  let s' :=
    App.handleAddText toDataURL (Some imageRef) true (App.onload w h) s in
  let img := {| imageSrc := shown; imageNaturalWidth := w;
                imageNaturalHeight := h |} in
  exists g,
    App.getRenderedImageGeometry (Some imageRef) = Some g /\
    pushed (toDataURL (App.textCanvas img t g)) s s' /\
    App.activeText s' = None /\
    App.componentLayers s' = App.componentLayers s /\
    App.activeComponentId s' = App.activeComponentId s /\
    App.isLoading s' = App.isLoading s.
Proof.
  intros Hinv Hshown Htext s' img. unfold s', App.handleAddText.
  rewrite Hshown, Htext. cbn [negb].
  destruct (App.getRenderedImageGeometry (Some imageRef)) as [g |] eqn:Hg.
  2: { unfold App.getRenderedImageGeometry in Hg.
       destruct (ltb _ _) in Hg; discriminate Hg. }
  exists g. split; [reflexivity |]. split; [| repeat split].
  apply pushed_transfers
    with (s1 := App.pushToHistory (toDataURL (App.textCanvas img t g)) s);
    try reflexivity.
  apply pushToHistory_pushed; [exact Hinv | reflexivity | reflexivity].
Qed.

Lemma successful_bake_appends_and_drops_the_text_witness :
  let s' :=
    App.handleAddText encodePng (Some editingImage) true
      (App.onload 1000 1000) editingSession in
  App.history s'
  = ["data:image/png;base64,PHOTO"; "data:image/png;base64,CANVAS"] /\
  App.historyIndex s' = 1%Z /\ App.activeText s' = None.
Proof.
  intro s'.
  destruct (@successful_bake_appends_and_drops_the_text Q _ encodePng
              "data:image/png;base64,PHOTO"
              {| ActiveText.text := "Summer Sale";
                 ActiveText.fontFamily := "Roboto";
                 ActiveText.fontSize := 50;
                 ActiveText.fontWeight := weight_bold;
                 ActiveText.fontStyle := style_normal;
                 ActiveText.color := "#FFFFFF";
                 ActiveText.x := 500; ActiveText.y := 500;
                 ActiveText.displayX := 250; ActiveText.displayY := 250 |}
              editingImage 1000 1000 editingSession)
    as (g & _ & (Hh & Hi & _) & Htext & _).
  - right. vm_compute. split; [discriminate | reflexivity].
  - reflexivity.
  - reflexivity.
  - fold s' in Hh, Hi, Htext. rewrite Hh, Hi, Htext.
    split; [reflexivity |]. split; reflexivity.
Defined.

(** X16.  A merge that goes through (both images load, the drawing returns)
    of a selected layer with a non-empty id appends the encoded canvas of
    [mergeCanvas] after the snapshots up to the cursor and shows it, removes
    every layer with the merged id, and leaves no selection, no selected
    layer, no error and no busy flag; the active text is as before. *)
Theorem successful_merge_appends_and_removes_the_layer
    (N : Type) `{Number N} `{Trig N}
    (toDataURL : Canvas.Context2D N -> string)
    (shown : string) (layer : ComponentLayer.t N)
    (imageRef : HTMLImageElement N) (bw bh cw ch : N) (s : App.State N) :
  history_invariant s ->
  App.displayedImage s = Some shown -> App.activeComponent s = Some layer ->
  ComponentLayer.id layer <> EmptyString ->
  let s' :=
    App.handleMergeComponent toDataURL (Some imageRef)
      (App.onload bw bh) (App.onload cw ch) App.draws s in
  let baseImage := {| imageSrc := shown; imageNaturalWidth := bw;
                      imageNaturalHeight := bh |} in
  let componentImage :=
    {| imageSrc := ComponentLayer.src layer; imageNaturalWidth := cw;
       imageNaturalHeight := ch |} in
  pushed (toDataURL (App.mergeCanvas baseImage componentImage layer)) s s' /\
  App.isLoading s' = false /\
  App.componentLayers s'
  = filter (fun c => negb (idIs (ComponentLayer.id layer) c))
           (App.componentLayers s) /\
  ~ In (ComponentLayer.id layer) (layerIds s') /\
  App.activeComponentId s' = None /\
  App.activeComponent s' = None /\
  App.activeText s' = App.activeText s.
Proof.
  intros Hinv Hshown Hactive Hid s' baseImage componentImage.
  destruct (activeComponent_found _ Hactive) as [_ Hsel].
  assert (Hs' : s' = App.setIsLoading false
                  (App.setActiveComponentId None
                     (App.setComponentLayers
                        (filter (fun c => negb (idIs (ComponentLayer.id layer) c))
                                (App.componentLayers s))
                        (App.pushToHistory
                           (toDataURL (App.mergeCanvas baseImage componentImage
                                         layer))
                           (App.setIsLoading true s))))).
  { unfold s', App.handleMergeComponent. rewrite Hshown, Hactive.
    unfold App.handleDeleteComponent. cbn. rewrite Hsel. cbn.
    destruct (String.eqb_spec (ComponentLayer.id layer) EmptyString)
      as [Heq | _]; [contradiction |].
    reflexivity. }
  assert (Hlayers : App.componentLayers s'
                    = filter (fun c => negb (idIs (ComponentLayer.id layer) c))
                             (App.componentLayers s)).
  { rewrite Hs'. reflexivity. }
  split; [| split; [| split; [| split; [| split; [| split]]]]].
  - rewrite Hs'.
    apply pushed_transfers
      with (s1 := App.pushToHistory
                    (toDataURL (App.mergeCanvas baseImage componentImage layer))
                    (App.setIsLoading true s));
      try reflexivity.
    apply pushToHistory_pushed; [exact Hinv | reflexivity | reflexivity].
  - rewrite Hs'. reflexivity.
  - exact Hlayers.
  - unfold layerIds. rewrite Hlayers. apply filter_drops_the_id.
  - rewrite Hs'. reflexivity.
  - apply no_selection_no_component. rewrite Hs'. reflexivity.
  - rewrite Hs'. reflexivity.
Qed.

Lemma successful_merge_appends_and_removes_the_layer_witness :
  let s' :=
    @App.handleMergeComponent Q _ encodePng quarter_turns
      (Some editingImage) (App.onload 1000 1000) (App.onload 200 100)
      App.draws editingSession in
  App.history s'
  = ["data:image/png;base64,PHOTO"; "data:image/png;base64,CANVAS"] /\
  App.historyIndex s' = 1%Z /\ App.componentLayers s' = [].
Proof.
  intro s'.
  destruct (@successful_merge_appends_and_removes_the_layer Q _ quarter_turns
              encodePng "data:image/png;base64,PHOTO"
              {| ComponentLayer.id := "comp_1700000000000";
                 ComponentLayer.src := "data:image/png;base64,LOGO";
                 ComponentLayer.originalFile := {| fileName := "logo.png" |};
                 ComponentLayer.x := 1 / 2; ComponentLayer.y := 1 / 2;
                 ComponentLayer.scale := 1 / 2; ComponentLayer.rotation := 0;
                 ComponentLayer.flipH := false;
                 ComponentLayer.flipV := false |}
              editingImage 1000 1000 200 100 editingSession)
    as ((Hh & Hi & _) & _ & Hlayers & _).
  - right. vm_compute. split; [discriminate | reflexivity].
  - reflexivity.
  - reflexivity.
  - discriminate.
  - fold s' in Hh, Hi, Hlayers. rewrite Hh, Hi, Hlayers.
    split; [reflexivity |]. split; reflexivity.
Defined.

(** ** Opening a file *)

(** X17.  Choosing a file replaces [originalImage] and clears the busy flag
    whether or not the file can be read.  When it can, the history is the one
    data URL with the cursor on it, the overlays, the suggestions and the
    error are cleared, the tool is the ratio tool, nothing can be undone or
    redone, and nothing of the previous session is left but the
    [isSuggestingText] flag.  When it cannot, the error is set and the
    history, the cursor and the overlays of the previous session stay.  An
    absent or empty file list changes nothing. *)
Theorem file_select_starts_a_new_session
    (N : Type) `{Number N} (file : File) (others : list File)
    (dataUrl : string) (message : option string) (s : App.State N) :
  let opened :=
    App.handleFileSelect (Some (file :: others)) (App.resolved dataUrl) s in
  let failed :=
    App.handleFileSelect (Some (file :: others)) (App.rejected message) s in
  (App.originalImage opened = Some file /\ App.isLoading opened = false /\
   App.history opened = [dataUrl] /\ App.historyIndex opened = 0%Z /\
   history_invariant opened /\
   index (App.history opened) (App.historyIndex opened) = Some dataUrl /\
   overlays_cleared opened /\ App.textSuggestions opened = [] /\
   App.error opened = None /\ App.activeTool opened = App.ratio /\
   App.handleUndo opened = opened /\ App.handleRedo opened = opened /\
   forall s0 : App.State N,
     App.isSuggestingText s0 = App.isSuggestingText s ->
     App.handleFileSelect (Some (file :: others)) (App.resolved dataUrl) s0
     = opened) /\
  (App.originalImage failed = Some file /\ App.isLoading failed = false /\
   App.error failed = Some "Could not load image file." /\
   history_unchanged s failed /\
   App.activeText failed = App.activeText s /\
   App.componentLayers failed = App.componentLayers s /\
   App.activeComponentId failed = App.activeComponentId s /\
   App.activeTool failed = App.activeTool s) /\
  App.handleFileSelect None (App.resolved dataUrl) s = s /\
  App.handleFileSelect (Some []) (App.resolved dataUrl) s = s.
Proof.
  intros opened failed. split; [| split; [| split; reflexivity]].
  - repeat split.
    + right. cbn. lia.
    + intros s0 Hflag. unfold opened. destruct s0, s. cbn in Hflag.
      subst. reflexivity.
  - repeat split.
Qed.

Lemma file_select_starts_a_new_session_witness :
  App.handleFileSelect (Some [{| fileName := "shoe.jpg" |}])
    (App.resolved "data:image/jpeg;base64,SHOE") (App.initial (N := Q))
  = App.handleFileSelect (Some [{| fileName := "shoe.jpg" |}])
      (App.resolved "data:image/jpeg;base64,SHOE") editingSession.
Proof.
  apply (@file_select_starts_a_new_session Q _ {| fileName := "shoe.jpg" |} []
           "data:image/jpeg;base64,SHOE" None editingSession).
  reflexivity.
Defined.

(** ** Strings: [split], [join] and [slice(0, -1)] *)

Lemma split_not_empty (sep : ascii) (s : string) : split sep s <> [].
Proof.
  destruct s as [| c rest]; cbn; [discriminate |].
  destruct (Ascii.eqb c sep); [discriminate |].
  destruct (split sep rest); discriminate.
Qed.

Lemma split_lacks (sep : ascii) (s : string) :
  lacks sep s = true -> split sep s = [s].
Proof.
  induction s as [| c rest IH]; cbn; [reflexivity |].
  intros Hl. apply andb_prop in Hl. destruct Hl as [Hc Hrest].
  apply negb_true_iff in Hc. rewrite Hc, (IH Hrest). reflexivity.
Qed.

Lemma split_append (sep : ascii) (a b : string) :
  split sep (a ++ String sep b) = (split sep a ++ split sep b)%list.
Proof.
  induction a as [| c rest IH]; cbn.
  - rewrite Ascii.eqb_refl. reflexivity.
  - destruct (Ascii.eqb c sep); [rewrite IH; reflexivity |].
    rewrite IH. destruct (split sep rest) as [| piece pieces] eqn:Hs.
    + exfalso. exact (split_not_empty sep rest Hs).
    + reflexivity.
Qed.

Lemma join_split (sep : ascii) (s : string) :
  join (String sep EmptyString) (split sep s) = s.
Proof.
  induction s as [| c rest IH]; [reflexivity |]. cbn [split].
  destruct (Ascii.eqb_spec c sep) as [-> | Hne].
  - destruct (split sep rest) as [| piece pieces] eqn:Hs.
    + exfalso. exact (split_not_empty sep rest Hs).
    + rewrite <- IH. reflexivity.
  - destruct (split sep rest) as [| piece pieces] eqn:Hs.
    + exfalso. exact (split_not_empty sep rest Hs).
    + rewrite <- IH. destruct pieces; reflexivity.
Qed.

Lemma slice_all_but_last {A : Type} (a : list A) (x : A) :
  slice (a ++ [x]) 0 (-1) = a.
Proof.
  unfold slice. rewrite length_app. cbn [List.length].
  change (0 <? 0)%Z with false. change (-1 <? 0)%Z with true. cbv iota.
  replace (Z.min 0 (Z.of_nat (List.length a + 1))) with 0%Z by lia.
  replace (Z.to_nat (Z.max (Z.of_nat (List.length a + 1) + -1) 0 - 0))
    with (List.length a) by lia.
  cbn [Z.to_nat skipn]. rewrite firstn_app, firstn_all, Nat.sub_diag.
  cbn. apply app_nil_r.
Qed.

(** ** Downloading the result *)

(** X18.  With an image shown, the download links to that image and is
    named after the file: for a name [stem.ext] whose last piece [ext] has no
    dot, the name is [stem] followed by [-editphoto-edited.png], and
    [image-editphoto-edited.png] when [stem] is empty; a file name without
    any dot also gives [image-editphoto-edited.png]. *)
Theorem download_name_drops_the_last_extension
    (N : Type) `{Number N} (shown : string) (file : File) (s : App.State N) :
  App.displayedImage s = Some shown -> App.originalImage s = Some file ->
  (forall stem ext : string,
     fileName file = (stem ++ "." ++ ext)%string -> lacks "." ext = true ->
     App.handleDownload s
     = Some {| App.href := shown;
               App.download :=
                 ((if String.eqb stem EmptyString then "image" else stem)
                  ++ "-editphoto-edited.png")%string |}) /\
  (lacks "." (fileName file) = true ->
   App.handleDownload s
   = Some {| App.href := shown;
             App.download := "image-editphoto-edited.png" |}).
Proof.
  intros Hshown Hfile. split.
  - intros stem ext Hname Hext. unfold App.handleDownload.
    rewrite Hshown, Hfile, Hname.
    change (stem ++ "." ++ ext)%string with (stem ++ String "." ext)%string.
    rewrite split_append, (split_lacks _ _ Hext), slice_all_but_last.
    change "."%string with (String "."%char EmptyString).
    rewrite join_split. unfold truthy.
    destruct (String.eqb stem EmptyString); reflexivity.
  - intros Hname. unfold App.handleDownload.
    rewrite Hshown, Hfile, (split_lacks _ _ Hname). reflexivity.
Qed.

Lemma download_name_drops_the_last_extension_witness :
  option_map App.download (App.handleDownload editingSession)
  = Some "photo-editphoto-edited.png" /\
  option_map App.download
    (App.handleDownload
       (App.setOriginalImage (Some {| fileName := "holiday.2024.jpeg" |})
          editingSession))
  = Some "holiday.2024-editphoto-edited.png".
Proof.
  split.
  - rewrite (proj1 (@download_name_drops_the_last_extension Q _
                      "data:image/png;base64,PHOTO" {| fileName := "photo.png" |}
                      editingSession eq_refl eq_refl) "photo" "png"
               eq_refl eq_refl).
    reflexivity.
  - rewrite (proj1 (@download_name_drops_the_last_extension Q _
                      "data:image/png;base64,PHOTO"
                      {| fileName := "holiday.2024.jpeg" |}
                      (App.setOriginalImage
                         (Some {| fileName := "holiday.2024.jpeg" |})
                         editingSession) eq_refl eq_refl)
               "holiday.2024" "jpeg" eq_refl eq_refl).
    reflexivity.
Defined.

(** ** The ratio panel *)

(** X19.  Whatever the panel holds, a click on Apply passes [onApplyRatio] a
    ratio that is a number and positive, or makes no call; with no operation
    running the button is disabled exactly when the click would make no
    call, and it is disabled while one is running. *)
Theorem apply_passes_a_positive_ratio_or_nothing (s : RatioPanel.State) :
  (forall passed : option Q,
     RatioPanel.handleApply s = Some passed ->
     exists ratio : Q, passed = Some ratio /\ 0 < ratio) /\
  (RatioPanel.isApplyDisabled false s = true <->
   RatioPanel.handleApply (N := Q) s = None) /\
  RatioPanel.isApplyDisabled true s = true.
Proof.
  destruct s as [[[| | |] |] w h];
    unfold RatioPanel.handleApply, RatioPanel.isApplyDisabled; cbn;
    (split; [| split; [| reflexivity]]);
    try (intros passed [= <-]; eexists; split; [reflexivity | reflexivity]);
    try (split; discriminate);
    try (split; reflexivity);
    try discriminate.
  - intros passed.
    destruct (Z.gtb_spec w 0) as [Hw | Hw]; [| discriminate].
    destruct (Z.gtb_spec h 0) as [Hh | Hh]; [| discriminate].
    cbn. intros [= <-]. eexists. split; [reflexivity |].
    apply Qlt_shift_div_l.
    + change 0 with (inject_Z 0). rewrite <- Zlt_Qlt. exact Hh.
    + rewrite Qmult_0_l. change 0 with (inject_Z 0). rewrite <- Zlt_Qlt.
      exact Hw.
  - destruct (Z.gtb_spec w 0) as [Hw | Hw];
      destruct (Z.gtb_spec h 0) as [Hh | Hh]; cbn;
      destruct (Z.eqb_spec w 0); destruct (Z.eqb_spec h 0);
      destruct (Z.leb_spec w 0); destruct (Z.leb_spec h 0); cbn;
      try lia; split; try discriminate; try reflexivity.
Qed.

Lemma apply_passes_a_positive_ratio_or_nothing_witness :
  let four_by_three :=
    RatioPanel.onCustomHeightChange (Some 3%Z)
      (RatioPanel.onCustomWidthChange (Some 4%Z)
         (RatioPanel.setActivePreset (Some RatioPanel.custom)
            RatioPanel.initial)) in
  let four_by_nothing :=
    RatioPanel.onCustomHeightChange None four_by_three in
  (exists ratio : Q, Some (4 / 3) = Some ratio /\ 0 < ratio) /\
  RatioPanel.handleApply (N := Q) four_by_nothing = None.
Proof.
  intros four_by_three four_by_nothing. split.
  - apply (proj1 (apply_passes_a_positive_ratio_or_nothing four_by_three)).
    reflexivity.
  - apply (proj1 (proj2 (apply_passes_a_positive_ratio_or_nothing
                           four_by_nothing))).
    reflexivity.
Defined.

(** ** The remote service *)

Lemma append_not_empty (a b : string) : a <> EmptyString -> (a ++ b)%string <> EmptyString.
Proof. destruct a; [contradiction | discriminate]. Qed.

Lemma find_first {A : Type} (f : A -> bool) (l : list A) (x : A) :
  find f l = Some x ->
  exists before after,
    l = (before ++ x :: after)%list /\
    Forall (fun y => f y = false) before /\ f x = true.
Proof.
  induction l as [| y rest IH]; [discriminate |]. cbn.
  destruct (f y) eqn:Hy.
  - intros [= ->]. exists [], rest. repeat split; [constructor | exact Hy].
  - intros Hfind. destruct (IH Hfind) as (before & after & -> & Hall & Hx).
    exists (y :: before), after. repeat split; [constructor; assumption | exact Hx].
Qed.

Lemma lacks_append (c : ascii) (a b : string) :
  lacks c (a ++ b) = lacks c a && lacks c b.
Proof.
  induction a as [| d rest IH]; [reflexivity |]. cbn. rewrite IH.
  apply andb_assoc.
Qed.

Lemma append_assoc (a b c : string) :
  ((a ++ b) ++ c)%string = (a ++ (b ++ c))%string.
Proof. induction a as [| d rest IH]; [reflexivity |]. cbn. rewrite IH. reflexivity. Qed.

Lemma upToSemicolon_stops (mime rest : string) :
  lacks ";" mime = true -> lacks "010" mime = true -> lacks "013" mime = true ->
  geminiService.upToSemicolon (mime ++ String ";" rest) = Some mime.
Proof.
  induction mime as [| c more IH]; cbn; [reflexivity |].
  intros Hs Hn Hr.
  apply andb_prop in Hs. destruct Hs as [Hs Hs'].
  apply andb_prop in Hn. destruct Hn as [Hn Hn'].
  apply andb_prop in Hr. destruct Hr as [Hr Hr'].
  apply negb_true_iff in Hs, Hn, Hr.
  unfold geminiService.isLineTerminator. rewrite Hs, Hn, Hr. cbn.
  rewrite (IH Hs' Hn' Hr'). reflexivity.
Qed.

Lemma plainMime_parts (mime : string) :
  plainMime mime = true ->
  mime <> EmptyString /\ lacks ";" mime = true /\ lacks "," mime = true /\
  lacks "010" mime = true /\ lacks "013" mime = true.
Proof.
  unfold plainMime. intros Hp.
  repeat (apply andb_prop in Hp; destruct Hp as [Hp ?]).
  apply negb_true_iff in Hp. repeat split; try assumption.
  intros ->. discriminate Hp.
Qed.

Lemma fileToPart_of_dataUrl (mime data : string) :
  plainMime mime = true ->
  geminiService.fileToPart (App.resolved (dataUrlOf mime data))
  = App.resolved
      {| geminiService.inlineData :=
           Some {| geminiService.mimeType := Some mime;
                   geminiService.data :=
                     Some (hd EmptyString (split "," data)) |} |}.
Proof.
  intros Hp. destruct (plainMime_parts _ Hp) as (Hne & Hs & Hc & Hn & Hr).
  unfold geminiService.fileToPart, dataUrlOf.
  replace ("data:" ++ mime ++ ";base64," ++ data)%string
    with (("data:" ++ mime ++ ";base64") ++ String "," data)%string.
  2: { rewrite !append_assoc. reflexivity. }
  rewrite split_append.
  rewrite (split_lacks "," ("data:" ++ mime ++ ";base64")).
  2: { rewrite !lacks_append, Hc. reflexivity. }
  destruct (split "," data) as [| piece pieces] eqn:Hsplit.
  { exfalso. exact (split_not_empty _ _ Hsplit). }
  cbn [app hd].
  assert (Hm : geminiService.mimeMatch ("data:" ++ mime ++ ";base64")
               = Some mime).
  { cbn. change (mime ++ ";base64")%string with (mime ++ String ";" "base64")%string.
    rewrite (@upToSemicolon_stops mime "base64" Hs Hn Hr). reflexivity. }
  rewrite Hm. unfold truthy.
  destruct (String.eqb_spec mime EmptyString); [contradiction | reflexivity].
Qed.

Lemma thrown_message_not_empty (trim : string -> string)
    (response : geminiService.GenerateContentResponse)
    (context message : string) :
  geminiService.handleApiResponse trim response context
  = geminiService.throws message ->
  message <> EmptyString.
Proof.
  unfold geminiService.handleApiResponse.
  destruct (match geminiService.promptFeedback response with
            | Some feedback =>
              if truthy (geminiService.blockReason feedback)
              then Some feedback else None
            | None => None
            end).
  - intros [= <-]. discriminate.
  - destruct (geminiService.chain _ geminiService.inlineData);
      [discriminate |].
    destruct (_ && _); intros [= <-]; discriminate.
Qed.

Lemma messageOr_of_message (message fallback : string) :
  message <> EmptyString -> App.messageOr (Some message) fallback = message.
Proof.
  intros Hne. unfold App.messageOr, truthy.
  destruct (String.eqb_spec message EmptyString); [contradiction | reflexivity].
Qed.

Lemma find_at_first {A : Type} (f : A -> bool) (before after : list A)
    (x : A) :
  Forall (fun y => f y = false) before -> f x = true ->
  find f (before ++ x :: after) = Some x.
Proof.
  intros Hall Hx. induction Hall as [| y rest Hy _ IH]; cbn.
  - rewrite Hx. reflexivity.
  - rewrite Hy. exact IH.
Qed.

Lemma returns_the_first_inline_part (trim : string -> string)
    (response : geminiService.GenerateContentResponse)
    (context url : string) :
  geminiService.handleApiResponse trim response context
  = geminiService.returns url <->
  blocked response = false /\
  exists c ct before part after blob,
    firstCandidate response = Some c /\
    geminiService.content c = Some ct /\
    geminiService.parts ct = Some (before ++ part :: after)%list /\
    Forall (fun p => geminiService.inlineData p = None) before /\
    geminiService.inlineData part = Some blob /\
    url = dataUrlOf (geminiService.template (geminiService.mimeType blob))
                    (geminiService.template (geminiService.data blob)).
Proof.
  unfold geminiService.handleApiResponse, blocked, firstCandidate. split.
  - destruct (geminiService.promptFeedback response) as [feedback |].
    + destruct (truthy (geminiService.blockReason feedback));
        [discriminate |].
      destruct (geminiService.candidates response) as [[| c others] |];
        cbn; try (destruct (truthy _); discriminate).
      destruct (geminiService.content c) as [ct |] eqn:Hct; cbn.
      2: { destruct (_ && _); discriminate. }
      destruct (geminiService.parts ct) as [ps |] eqn:Hps; cbn.
      2: { destruct (_ && _); discriminate. }
      destruct (find _ ps) as [part |] eqn:Hfind; cbn.
      2: { destruct (_ && _); discriminate. }
      destruct (find_first _ _ Hfind) as (before & after & -> & Hall & Hpart).
      destruct (geminiService.inlineData part) as [blob |] eqn:Hblob;
        [| discriminate Hpart].
      intros [= <-]. split; [reflexivity |].
      exists c, ct, before, part, after, blob.
      repeat split; try assumption; try reflexivity.
      eapply Forall_impl; [| exact Hall]. cbn. intros p Hp.
      destruct (geminiService.inlineData p); [discriminate Hp | reflexivity].
    + destruct (geminiService.candidates response) as [[| c others] |];
        cbn; try (destruct (truthy _); discriminate).
      destruct (geminiService.content c) as [ct |] eqn:Hct; cbn.
      2: { destruct (_ && _); discriminate. }
      destruct (geminiService.parts ct) as [ps |] eqn:Hps; cbn.
      2: { destruct (_ && _); discriminate. }
      destruct (find _ ps) as [part |] eqn:Hfind; cbn.
      2: { destruct (_ && _); discriminate. }
      destruct (find_first _ _ Hfind) as (before & after & -> & Hall & Hpart).
      destruct (geminiService.inlineData part) as [blob |] eqn:Hblob;
        [| discriminate Hpart].
      intros [= <-]. split; [reflexivity |].
      exists c, ct, before, part, after, blob.
      repeat split; try assumption; try reflexivity.
      eapply Forall_impl; [| exact Hall]. cbn. intros p Hp.
      destruct (geminiService.inlineData p); [discriminate Hp | reflexivity].
  - intros (Hfree & c & ct & before & part & after & blob & Hc & Hct & Hps
            & Hall & Hblob & ->).
    assert (Hnone : match geminiService.promptFeedback response with
                    | Some feedback =>
                      if truthy (geminiService.blockReason feedback)
                      then Some feedback else None
                    | None => None
                    end = None).
    { destruct (geminiService.promptFeedback response) as [feedback |];
        [rewrite Hfree |]; reflexivity. }
    rewrite Hnone.
    destruct (geminiService.candidates response) as [[| c' others] |];
      try discriminate Hc.
    injection Hc as ->. cbn. rewrite Hct. cbn. rewrite Hps. cbn.
    rewrite find_at_first.
    + cbn. rewrite Hblob. reflexivity.
    + eapply Forall_impl; [| exact Hall]. cbn. intros p Hp. rewrite Hp.
      reflexivity.
    + rewrite Hblob. reflexivity.
Qed.

(** X20.  [handleApiResponse] judges a response in a fixed order.  A block
    reason wins over everything else, an image included.  Otherwise it
    returns exactly when the parts of the first candidate hold an inline
    blob, and what it returns is the data URL of the first such part.
    Candidates after the first are never read.  Every message it throws is
    non-empty. *)
Theorem api_response_is_judged_in_order
    (trim : string -> string)
    (response : geminiService.GenerateContentResponse) (context : string) :
  let outcome := geminiService.handleApiResponse trim response context in
  (forall feedback,
     geminiService.promptFeedback response = Some feedback ->
     truthy (geminiService.blockReason feedback) = true ->
     exists detail,
       outcome
       = geminiService.throws
           ("Request was blocked. Reason: "
            ++ geminiService.template (geminiService.blockReason feedback)
            ++ ". " ++ detail)%string) /\
  (forall url,
     outcome = geminiService.returns url <->
     blocked response = false /\
     exists c ct before part after blob,
       firstCandidate response = Some c /\
       geminiService.content c = Some ct /\
       geminiService.parts ct = Some (before ++ part :: after)%list /\
       Forall (fun p => geminiService.inlineData p = None) before /\
       geminiService.inlineData part = Some blob /\
       url = dataUrlOf (geminiService.template (geminiService.mimeType blob))
                       (geminiService.template (geminiService.data blob))) /\
  (forall c others others',
     geminiService.candidates response = Some (c :: others) ->
     geminiService.handleApiResponse trim
       {| geminiService.promptFeedback := geminiService.promptFeedback response;
          geminiService.candidates := Some (c :: others');
          geminiService.text := geminiService.text response |} context
     = outcome) /\
  (forall message,
     outcome = geminiService.throws message -> message <> EmptyString).
Proof.
  intro outcome. split; [| split; [| split]].
  - unfold outcome, geminiService.handleApiResponse.
    intros feedback -> Hblock. rewrite Hblock. eexists. reflexivity.
  - intros url. apply returns_the_first_inline_part.
  - unfold outcome, geminiService.handleApiResponse.
    intros c others others' ->. reflexivity.
  - intros message. apply thrown_message_not_empty.
Qed.

Lemma api_response_is_judged_in_order_witness :
  let image :=
    {| geminiService.inlineData :=
         Some {| geminiService.mimeType := Some "image/png";
                 geminiService.data := Some "AAAA" |} |} in
  let words := {| geminiService.inlineData := None |} in
  let answer :=
    Some [{| geminiService.content :=
               Some {| geminiService.parts := Some [words; image] |};
             geminiService.finishReason := Some "STOP" |}] in
  let blocked_with_image :=
    {| geminiService.promptFeedback :=
         Some {| geminiService.blockReason := Some "SAFETY";
                 geminiService.blockReasonMessage := None |};
       geminiService.candidates := answer;
       geminiService.text := None |} in
  let with_image :=
    {| geminiService.promptFeedback := None;
       geminiService.candidates := answer;
       geminiService.text := Some "Here is your image." |} in
  geminiService.handleApiResponse (fun t => t) blocked_with_image "adjustment"
  = geminiService.throws "Request was blocked. Reason: SAFETY. " /\
  geminiService.handleApiResponse (fun t => t) with_image "adjustment"
  = geminiService.returns "data:image/png;base64,AAAA".
Proof.
  intros image words answer blocked_with_image with_image. split.
  - destruct (proj1 (api_response_is_judged_in_order (fun t => t)
                       blocked_with_image "adjustment")
                {| geminiService.blockReason := Some "SAFETY";
                   geminiService.blockReasonMessage := None |}
                eq_refl eq_refl) as [detail Hthrown].
    rewrite Hthrown. injection Hthrown as <-. reflexivity.
  - apply (proj1 (proj2 (api_response_is_judged_in_order (fun t => t)
                           with_image "adjustment"))).
    split; [reflexivity |].
    exists {| geminiService.content :=
                Some {| geminiService.parts := Some [words; image] |};
              geminiService.finishReason := Some "STOP" |},
           {| geminiService.parts := Some [words; image] |},
           [words], image, [],
           {| geminiService.mimeType := Some "image/png";
              geminiService.data := Some "AAAA" |}.
    repeat split. constructor; [reflexivity | constructor].
Defined.

(** X21.  [fileToPart] reads a data URL back into its parts: from
    [data:<mime>;base64,<data>] with a plain MIME type and data without a
    comma it gives the part with that MIME type and that data.  A URL
    without a comma is refused as invalid, one with an empty MIME type as
    unparsable, and a file that cannot be read is passed on as it failed. *)
Theorem file_part_reads_back_the_data_url
    (mime data dataUrl : string) (error : option string) :
  (plainMime mime = true -> lacks "," data = true ->
   geminiService.fileToPart (App.resolved (dataUrlOf mime data))
   = App.resolved
       {| geminiService.inlineData :=
            Some {| geminiService.mimeType := Some mime;
                    geminiService.data := Some data |} |}) /\
  (lacks "," dataUrl = true ->
   geminiService.fileToPart (App.resolved dataUrl)
   = App.rejected (Some "Invalid data URL")) /\
  geminiService.fileToPart (App.resolved (dataUrlOf EmptyString data))
  = App.rejected (Some "Could not parse MIME type from data URL") /\
  geminiService.fileToPart (App.rejected error) = App.rejected error.
Proof.
  split; [| split; [| split]].
  - intros Hp Hdata. rewrite (@fileToPart_of_dataUrl mime data Hp).
    rewrite (split_lacks _ _ Hdata). reflexivity.
  - intros Hurl. unfold geminiService.fileToPart.
    rewrite (split_lacks _ _ Hurl). reflexivity.
  - unfold geminiService.fileToPart, dataUrlOf.
    change ("data:" ++ EmptyString ++ ";base64," ++ data)%string
      with ("data:;base64" ++ String "," data)%string.
    rewrite split_append.
    destruct (split "," data) as [| piece pieces] eqn:Hsplit.
    { exfalso. exact (split_not_empty _ _ Hsplit). }
    reflexivity.
  - reflexivity.
Qed.

Lemma file_part_reads_back_the_data_url_witness :
  geminiService.fileToPart (App.resolved "data:image/jpeg;base64,/9j/4AAQ")
  = App.resolved
      {| geminiService.inlineData :=
           Some {| geminiService.mimeType := Some "image/jpeg";
                   geminiService.data := Some "/9j/4AAQ" |} |} /\
  geminiService.fileToPart (App.resolved "image/jpeg;base64")
  = App.rejected (Some "Invalid data URL").
Proof.
  split.
  - exact (proj1 (file_part_reads_back_the_data_url "image/jpeg" "/9j/4AAQ"
                    EmptyString None) eq_refl eq_refl).
  - exact (proj1 (proj2 (file_part_reads_back_the_data_url EmptyString
                           EmptyString "image/jpeg;base64" None)) eq_refl).
Defined.

(** X22.  An adjustment shows what the service decided.  When the file is
    read into a part and the model answers, an image in the answer is pushed
    after the snapshots up to the cursor, and a refusal leaves history and
    cursor alone and puts the message of the service, never the fallback
    text, in the error slot; the busy flag is cleared either way.  When the
    file cannot be read into a part the answer of the model plays no role
    and the history stays. *)
Theorem adjustment_shows_what_the_service_decided
    (N : Type) `{Number N} (trim : string -> string) (prompt : string)
    (read : App.Settled string) (s : App.State N) :
  history_invariant s -> App.originalImage s <> None ->
  let after answer :=
    App.handleApplyAdjustment prompt
      (geminiService.generateAdjustedImage trim read answer) s in
  (forall part response,
     geminiService.fileToPart read = App.resolved part ->
     let s' := after (App.resolved response) in
     match geminiService.handleApiResponse trim response "adjustment" with
     | geminiService.returns url => pushed url s s'
     | geminiService.throws message =>
       App.error s' = Some message /\ history_unchanged s s'
     end /\
     App.isLoading s' = false) /\
  (forall error answer,
     geminiService.fileToPart read = App.rejected error ->
     after answer = after (App.rejected error) /\
     history_unchanged s (after answer) /\
     App.error (after answer)
     = Some (App.messageOr error
               "An unknown error occurred while applying the adjustment.")).
Proof.
  intros Hinv Horig after. unfold after, geminiService.generateAdjustedImage.
  split.
  - intros part response ->. cbn zeta.
    unfold App.handleApplyAdjustment.
    destruct (App.originalImage s); [| contradiction].
    destruct (geminiService.handleApiResponse trim response "adjustment")
      as [url | message] eqn:Houtcome; cbn [geminiService.settle].
    + split; [| reflexivity].
      apply pushed_transfers
        with (s1 := App.pushToHistory url
                      (App.setError None (App.setIsLoading true s)));
        try reflexivity.
      apply pushToHistory_pushed; [exact Hinv | reflexivity | reflexivity].
    + split; [| reflexivity]. split; [| split; reflexivity].
      unfold App.setIsLoading, App.setError. cbn [App.error].
      rewrite messageOr_of_message; [reflexivity |].
      exact (thrown_message_not_empty _ _ _ Houtcome).
  - intros error answer ->. unfold App.handleApplyAdjustment.
    destruct (App.originalImage s); [| contradiction].
    repeat split.
Qed.

Lemma adjustment_shows_what_the_service_decided_witness :
  let refusal :=
    {| geminiService.promptFeedback := None;
       geminiService.candidates :=
         Some [{| geminiService.content := None;
                  geminiService.finishReason := Some "SAFETY" |}];
       geminiService.text := None |} in
  let s' :=
    App.handleApplyAdjustment "warmer light"
      (geminiService.generateAdjustedImage (fun t => t)
         (App.resolved "data:image/png;base64,PHOTO") (App.resolved refusal))
      editingSession in
  App.error s'
  = Some "Image generation for adjustment stopped unexpectedly. Reason: SAFETY. This often relates to safety settings." /\
  App.history s' = App.history editingSession.
Proof.
  intros refusal s'.
  assert (Hinv : history_invariant editingSession).
  { right. vm_compute. split; [discriminate | reflexivity]. }
  assert (Horig : App.originalImage editingSession <> None) by discriminate.
  destruct (proj1 (@adjustment_shows_what_the_service_decided Q _ (fun t => t)
                     "warmer light"
                     (App.resolved "data:image/png;base64,PHOTO")
                     editingSession Hinv Horig)
              _ refusal eq_refl) as [Hrefused _].
  cbn in Hrefused. destruct Hrefused as [Herror [Hhistory _]].
  split; [exact Herror | exact Hhistory].
Defined.

(** ** The lifestyle panel *)

(** X23.  With a detailed prompt at hand, a lifestyle image that is
    generated is pushed after the snapshots up to the cursor of the session
    and shown, with the rest of the session as it was and no error in the
    panel; a generation that fails leaves the whole session as it was and
    puts its message, or the fallback text, in the error slot of the panel
    only.  The panel is not busy afterwards in either case. *)
Theorem lifestyle_image_commits_or_stays_in_the_panel
    (N : Type) (url : string) (message : option string)
    (p : LifestylePanel.State) (s : App.State N) :
  history_invariant s -> LifestylePanel.detailedPrompt p <> EmptyString ->
  let done := LifestylePanel.handleGenerateImage (App.resolved url) p s in
  let failed := LifestylePanel.handleGenerateImage (App.rejected message) p s in
  (pushed url s (snd done) /\
   App.isLoading (snd done) = App.isLoading s /\
   App.activeText (snd done) = App.activeText s /\
   App.componentLayers (snd done) = App.componentLayers s /\
   LifestylePanel.error (fst done) = None /\
   LifestylePanel.isGeneratingImage (fst done) = false) /\
  (snd failed = s /\
   LifestylePanel.error (fst failed)
   = Some (App.messageOr message "Failed to generate the lifestyle image.") /\
   LifestylePanel.isGeneratingImage (fst failed) = false /\
   LifestylePanel.detailedPrompt (fst failed) = LifestylePanel.detailedPrompt p).
Proof.
  intros Hinv Hprompt done failed.
  unfold done, failed, LifestylePanel.handleGenerateImage, truthy.
  destruct (String.eqb_spec (LifestylePanel.detailedPrompt p) EmptyString)
    as [Heq | _]; [contradiction |].
  cbn [negb fst snd]. split; [| repeat split].
  split; [| repeat split].
  unfold App.handleApplyLifestyleImage.
  apply pushToHistory_pushed; [exact Hinv | reflexivity | reflexivity].
Qed.

Lemma lifestyle_image_commits_or_stays_in_the_panel_witness :
  let p :=
    LifestylePanel.setDetailedPrompt "a walnut desk at golden hour"
      LifestylePanel.initial in
  let done :=
    LifestylePanel.handleGenerateImage
      (App.resolved "data:image/png;base64,SCENE") p editingSession in
  let failed :=
    LifestylePanel.handleGenerateImage (App.rejected None) p editingSession in
  App.history (snd done)
  = ["data:image/png;base64,PHOTO"; "data:image/png;base64,SCENE"] /\
  snd failed = editingSession /\
  LifestylePanel.error (fst failed)
  = Some "Failed to generate the lifestyle image.".
Proof.
  intros p done failed.
  assert (Hinv : history_invariant editingSession).
  { right. vm_compute. split; [discriminate | reflexivity]. }
  assert (Hprompt : LifestylePanel.detailedPrompt p <> EmptyString)
    by discriminate.
  destruct (@lifestyle_image_commits_or_stays_in_the_panel Q
              "data:image/png;base64,SCENE" None p editingSession Hinv Hprompt)
    as [((Hhistory & _) & _) (Hsession & Herror & _)].
  fold done in Hhistory. fold failed in Hsession, Herror.
  rewrite Hhistory. split; [reflexivity |].
  split; [exact Hsession | exact Herror].
Defined.

(** X24.  The steps of the panel gate one another.  Asking for ideas
    empties the detailed prompt, so that until an idea is turned into a
    prompt a click on Generate changes neither the panel nor the session; an
    idea can only be selected once ideas have arrived, so after a failed
    request for ideas selecting changes nothing; and a prompt that arrives
    empty leaves Generate without effect as well.  No step leaves its own
    busy flag set. *)
Theorem lifestyle_steps_gate_one_another
    (N : Type) (ideas : App.Settled LifestylePanel.AnalysisResult)
    (prompt image : App.Settled string) (idea : string)
    (message : option string) (p : LifestylePanel.State) (s : App.State N) :
  let asked := LifestylePanel.handleGetIdeas ideas p in
  LifestylePanel.handleGenerateImage image asked s = (asked, s) /\
  LifestylePanel.handleSelectIdea idea prompt
    (LifestylePanel.handleGetIdeas (App.rejected message) p)
  = LifestylePanel.handleGetIdeas (App.rejected message) p /\
  LifestylePanel.handleGenerateImage image
    (LifestylePanel.handleSelectIdea idea (App.resolved EmptyString) asked) s
  = (LifestylePanel.handleSelectIdea idea (App.resolved EmptyString) asked, s) /\
  LifestylePanel.isAnalyzing asked = false /\
  (LifestylePanel.analysis p <> None ->
   LifestylePanel.isGeneratingPrompt
     (LifestylePanel.handleSelectIdea idea prompt p) = false).
Proof.
  intro asked. unfold asked. repeat split.
  - destruct ideas; reflexivity.
  - destruct ideas; reflexivity.
  - unfold LifestylePanel.handleSelectIdea.
    destruct (LifestylePanel.analysis p); [| contradiction].
    destruct prompt; reflexivity.
Qed.

Lemma lifestyle_steps_gate_one_another_witness :
  let p :=
    LifestylePanel.setIsGeneratingPrompt true
      (LifestylePanel.handleGetIdeas
         (App.resolved
            {| LifestylePanel.description := "A leather wallet.";
               LifestylePanel.ideas := ["On a cafe table"] |})
         LifestylePanel.initial) in
  LifestylePanel.isGeneratingPrompt
    (LifestylePanel.handleSelectIdea "On a cafe table" (App.rejected None) p)
  = false.
Proof.
  intro p.
  apply (@lifestyle_steps_gate_one_another Q (App.rejected None)
           (App.rejected None) (App.rejected None) "On a cafe table" None p
           editingSession).
  discriminate.
Defined.

(** ** The component panel *)

Section PanelEdits.
Context {N : Type}.
Implicit Types layers : list (ComponentLayer.t N).

Lemma same_id_same_layer layers (a c : ComponentLayer.t N) :
  NoDup (map (fun c => ComponentLayer.id c) layers) ->
  In a layers -> In c layers -> ComponentLayer.id c = ComponentLayer.id a ->
  c = a.
Proof.
  induction layers as [| d rest IH]; intros Hnodup Ha Hc Hid; [contradiction |].
  cbn in Hnodup. inversion Hnodup as [| ? ? Hnotin Hrest]; subst.
  destruct Ha as [-> | Ha]; destruct Hc as [-> | Hc].
  - reflexivity.
  - exfalso. apply Hnotin. rewrite <- Hid. apply in_map. exact Hc.
  - exfalso. apply Hnotin. rewrite Hid. apply in_map. exact Ha.
  - apply IH; assumption.
Qed.

Lemma find_after_update layers (a a' : ComponentLayer.t N) (i : string) :
  find (idIs i) layers = Some a -> ComponentLayer.id a' = i ->
  find (idIs i)
       (map (fun c => if String.eqb (ComponentLayer.id c) (ComponentLayer.id a')
                      then a' else c) layers)
  = Some a'.
Proof.
  intros Hfind <-. induction layers as [| c rest IH]; [discriminate |].
  cbn in Hfind |- *. unfold idIs in Hfind at 1.
  destruct (String.eqb_spec (ComponentLayer.id c) (ComponentLayer.id a'))
    as [Heq | Hne].
  - unfold idIs at 1. rewrite String.eqb_refl. reflexivity.
  - unfold idIs at 1.
    destruct (String.eqb_spec (ComponentLayer.id c) (ComponentLayer.id a'));
      [contradiction |].
    apply IH. exact Hfind.
Qed.

Lemma update_and_back layers (a a' : ComponentLayer.t N) :
  NoDup (map (fun c => ComponentLayer.id c) layers) -> In a layers ->
  ComponentLayer.id a' = ComponentLayer.id a ->
  map (fun c => if String.eqb (ComponentLayer.id c) (ComponentLayer.id a)
                then a else c)
      (map (fun c => if String.eqb (ComponentLayer.id c) (ComponentLayer.id a')
                     then a' else c) layers)
  = layers.
Proof.
  intros Hnodup Ha Hid. rewrite map_map.
  rewrite <- (map_id layers) at 2. apply map_ext_in. intros c Hc.
  rewrite Hid.
  destruct (String.eqb_spec (ComponentLayer.id c) (ComponentLayer.id a))
    as [Heq | Hne].
  - rewrite Hid, String.eqb_refl. symmetry.
    apply same_id_same_layer with (layers := layers); assumption.
  - destruct (String.eqb_spec (ComponentLayer.id c) (ComponentLayer.id a));
      [contradiction | reflexivity].
Qed.

Lemma update_and_back_session (s : App.State N) (a a' : ComponentLayer.t N) :
  NoDup (layerIds s) -> App.activeComponent s = Some a ->
  ComponentLayer.id a' = ComponentLayer.id a ->
  App.activeComponent (App.handleComponentUpdate a' s) = Some a' /\
  App.handleComponentUpdate a (App.handleComponentUpdate a' s) = s.
Proof.
  intros Hnodup Hactive Hid. split.
  - unfold App.activeComponent in *. cbn.
    destruct (App.activeComponentId s) as [i |] eqn:Hsel.
    + apply find_some in Hactive as Hfound. destruct Hfound as [_ Hi].
      apply String.eqb_eq in Hi.
      exact (@find_after_update (App.componentLayers s) a a' i Hactive
               (eq_trans Hid Hi)).
    + rewrite find_never in Hactive. discriminate Hactive.
  - unfold App.activeComponent in Hactive. apply find_some in Hactive.
    destruct Hactive as [Hin _].
    unfold App.handleComponentUpdate. cbn.
    rewrite (@update_and_back (App.componentLayers s) a a' Hnodup Hin Hid).
    destruct s; reflexivity.
Qed.

End PanelEdits.

(** X25.  An edit made in the component panel reaches the selected layer and
    no other: with distinct ids the layer at the position of the active
    component is replaced by the component with the changed key and stays
    the active component, and ids, selection and history are as before.
    Clicking a flip button twice brings the session back.  Without an
    active component the panel changes nothing. *)
Theorem panel_edit_reaches_the_selected_layer_only
    (N : Type) `{Number N} (change : ComponentPanel.Change)
    (s : App.State N) :
  (App.activeComponent s = None -> panelChange change s = s) /\
  (forall a,
     NoDup (layerIds s) -> App.activeComponent s = Some a ->
     let s' := panelChange change s in
     let a' := ComponentPanel.assign a change in
     App.activeComponent s' = Some a' /\
     layerIds s' = layerIds s /\
     App.activeComponentId s' = App.activeComponentId s /\
     history_unchanged s s' /\
     (exists k,
        nth_error (App.componentLayers s) k = Some a /\
        App.componentLayers s'
        = (firstn k (App.componentLayers s)
           ++ a' :: skipn (S k) (App.componentLayers s))%list) /\
     panelFlipH (panelFlipH s) = s /\ panelFlipV (panelFlipV s) = s).
Proof.
  split.
  - intros Hnone. unfold panelChange. rewrite Hnone. reflexivity.
  - intros a Hnodup Hactive s' a'.
    assert (Hs' : s' = App.handleComponentUpdate a' s).
    { unfold s', panelChange. rewrite Hactive. reflexivity. }
    assert (Hin : In a (App.componentLayers s)).
    { unfold App.activeComponent in Hactive. apply find_some in Hactive.
      exact (proj1 Hactive). }
    split; [| split; [| split; [| split; [| split; [| split]]]]].
    + rewrite Hs'.
      exact (proj1 (@update_and_back_session N s a a' Hnodup Hactive eq_refl)).
    + rewrite Hs'. apply update_keeps_ids.
    + rewrite Hs'. reflexivity.
    + rewrite Hs'. split; reflexivity.
    + destruct (In_nth_error _ _ Hin) as [k Hk]. exists k.
      split; [exact Hk |]. rewrite Hs'.
      unfold App.handleComponentUpdate, App.setComponentLayers.
      cbn [App.componentLayers].
      apply update_at_position with (updatedLayer := a') (c := a);
        [exact Hnodup | exact Hk | reflexivity].
    + unfold panelFlipH at 2. rewrite Hactive.
      cbn [ComponentPanel.onFlipHClick ComponentPanel.handleTransformChange
           onComponentChange].
      set (flipped := ComponentPanel.assign a _).
      destruct (@update_and_back_session N s a flipped Hnodup Hactive eq_refl)
        as [Hflipped Hback].
      unfold panelFlipH. rewrite Hflipped.
      cbn [ComponentPanel.onFlipHClick ComponentPanel.handleTransformChange
           onComponentChange].
      replace (ComponentPanel.assign flipped _) with a; [exact Hback |].
      unfold flipped. destruct a as [? ? ? ? ? ? ? fh fv]. cbn.
      rewrite Bool.negb_involutive. reflexivity.
    + unfold panelFlipV at 2. rewrite Hactive.
      cbn [ComponentPanel.onFlipVClick ComponentPanel.handleTransformChange
           onComponentChange].
      set (flipped := ComponentPanel.assign a _).
      destruct (@update_and_back_session N s a flipped Hnodup Hactive eq_refl)
        as [Hflipped Hback].
      unfold panelFlipV. rewrite Hflipped.
      cbn [ComponentPanel.onFlipVClick ComponentPanel.handleTransformChange
           onComponentChange].
      replace (ComponentPanel.assign flipped _) with a; [exact Hback |].
      unfold flipped. destruct a as [? ? ? ? ? ? ? fh fv]. cbn.
      rewrite Bool.negb_involutive. reflexivity.
Qed.

Lemma panel_edit_reaches_the_selected_layer_only_witness :
  let s :=
    App.setActiveComponentId (Some "comp_1700000000000")
      (App.handleComponentUpload {| fileName := "badge.png" |}
         (App.resolved "data:image/png;base64,BADGE") 1700000000500
         editingSession) in
  map (fun c => ComponentLayer.rotation c)
      (App.componentLayers (panelChange (ComponentPanel.rotation 90) s))
  = [90; inject_Z 0] /\
  panelFlipH (panelFlipH s) = s.
Proof.
  intro s.
  assert (Hnodup : NoDup (layerIds s)).
  { vm_compute. constructor; [| constructor; [| constructor]].
    - intros [Heq | []]. discriminate Heq.
    - intros []. }
  destruct (proj2 (@panel_edit_reaches_the_selected_layer_only Q _
                     (ComponentPanel.rotation 90) s) _ Hnodup eq_refl)
    as (_ & _ & _ & _ & (k & Hk & Hlayers) & Hflip & _).
  split; [| exact Hflip].
  destruct k as [| [| k]];
    [| vm_compute in Hk; discriminate Hk | destruct k; discriminate Hk].
  rewrite Hlayers. reflexivity.
Defined.

(** ** The toolbar *)

(** X26.  Each of the undo, redo and download buttons is disabled exactly
    when a click on it would do nothing: undo and redo when the handler
    would give the session back unchanged, download when there is nothing
    to download.  An enabled undo or redo moves the cursor by one. *)
Theorem toolbar_buttons_are_disabled_when_idle
    (N : Type) `{Number N} (s : App.State N) :
  (App.undoDisabled s = true <-> App.handleUndo s = s) /\
  (App.redoDisabled s = true <-> App.handleRedo s = s) /\
  (App.downloadDisabled s = true <-> App.handleDownload s = None) /\
  (App.undoDisabled s = false ->
   App.historyIndex (App.handleUndo s) = (App.historyIndex s - 1)%Z) /\
  (App.redoDisabled s = false ->
   App.historyIndex (App.handleRedo s) = (App.historyIndex s + 1)%Z).
Proof.
  unfold App.undoDisabled, App.redoDisabled, App.downloadDisabled,
    App.handleUndo, App.handleRedo, App.handleDownload.
  split; [| split; [| split; [| split]]].
  - destruct (Z.leb_spec (App.historyIndex s) 0) as [Hle | Hgt];
      destruct (Z.gtb_spec (App.historyIndex s) 0) as [Hgt' | Hle'];
      try lia; split; try reflexivity; try discriminate.
    intros Hsame. apply (f_equal (@App.historyIndex N)) in Hsame.
    cbn in Hsame. lia.
  - destruct (Z.geb_spec (App.historyIndex s)
                (Z.of_nat (List.length (App.history s)) - 1)) as [Hge | Hlt];
      destruct (Z.ltb_spec (App.historyIndex s)
                  (Z.of_nat (List.length (App.history s)) - 1))
        as [Hlt' | Hge'];
      try lia; split; try reflexivity; try discriminate.
    intros Hsame. apply (f_equal (@App.historyIndex N)) in Hsame.
    cbn in Hsame. lia.
  - unfold App.displayedImage.
    destruct (index (App.history s) (App.historyIndex s)) as [url |];
      [| split; reflexivity].
    destruct (truthy (Some url)) eqn:Hurl.
    + rewrite Hurl. split; discriminate.
    + split; reflexivity.
  - destruct (Z.leb_spec (App.historyIndex s) 0) as [Hle | Hgt];
      [discriminate |].
    destruct (Z.gtb_spec (App.historyIndex s) 0); [reflexivity | lia].
  - destruct (Z.geb_spec (App.historyIndex s)
                (Z.of_nat (List.length (App.history s)) - 1)) as [Hge | Hlt];
      [discriminate |].
    destruct (Z.ltb_spec (App.historyIndex s)
                (Z.of_nat (List.length (App.history s)) - 1));
      [reflexivity | lia].
Qed.

Lemma toolbar_buttons_are_disabled_when_idle_witness :
  App.handleUndo editingSession = editingSession /\
  App.historyIndex
    (App.handleUndo
       (App.handleApplyLifestyleImage "data:image/png;base64,SCENE"
          editingSession)) = 0%Z.
Proof.
  split.
  - apply (proj1 (@toolbar_buttons_are_disabled_when_idle Q _ editingSession)).
    reflexivity.
  - rewrite (proj1 (proj2 (proj2 (proj2
               (@toolbar_buttons_are_disabled_when_idle Q _
                  (App.handleApplyLifestyleImage "data:image/png;base64,SCENE"
                     editingSession))))) eq_refl).
    reflexivity.
Defined.

(** ** Where the merge puts the component *)

(** X27.  Whatever the rotation and the flips, the merge keeps the canvas at
    the size of the base image and draws the component with the width
    [scale] times the base width, at the component's own aspect ratio, in a
    rectangle centred on the origin of a frame whose origin lies at
    [(x * width, y * height)] of the base image: the centre of the component
    lands there, inside the canvas when [x] and [y] are in [[0, 1]].  That
    point is the one the preview shows: the displayed centre of the layer,
    taken back to natural coordinates, is the centre of the merge. *)
Theorem merged_component_is_centred_where_it_is_shown
    (trig : Trig Q) (baseImage componentImage : LoadedImage Q)
    (layer : ComponentLayer.t Q) :
  0 < imageNaturalWidth baseImage -> 0 < imageNaturalHeight baseImage ->
  0 < imageNaturalWidth componentImage ->
  0 < imageNaturalHeight componentImage ->
  let canvas := App.mergeCanvas baseImage componentImage layer in
  let centerX := ComponentLayer.x layer * imageNaturalWidth baseImage in
  let centerY := ComponentLayer.y layer * imageNaturalHeight baseImage in
  Canvas.width canvas = imageNaturalWidth baseImage /\
  Canvas.height canvas = imageNaturalHeight baseImage /\
  (exists m x y w h,
     componentTransform canvas = Some m /\
     In (Canvas.drawImage componentImage m x y (Some (w, h)))
        (Canvas.calls canvas) /\
     w == imageNaturalWidth baseImage * ComponentLayer.scale layer /\
     w * imageNaturalHeight componentImage
     == h * imageNaturalWidth componentImage /\
     x * 2 == - w /\ y * 2 == - h /\
     point_eq (Canvas.transformPoint m (0, 0)) (centerX, centerY)) /\
  (0 <= ComponentLayer.x layer <= 1 -> 0 <= ComponentLayer.y layer <= 1 ->
   (0 <= centerX <= Canvas.width canvas) /\
   (0 <= centerY <= Canvas.height canvas)) /\
  (forall img : HTMLImageElement Q,
     positive_dimensions img ->
     naturalWidth img = imageNaturalWidth baseImage ->
     naturalHeight img = imageNaturalHeight baseImage ->
     let g := InteractiveComponent.getRenderedImageGeometry img in
     (InteractiveComponent.displayX layer g - InteractiveComponent.offsetX g)
     * (naturalWidth img / InteractiveComponent.renderedWidth g) == centerX /\
     (InteractiveComponent.displayY layer g - InteractiveComponent.offsetY g)
     * (naturalHeight img / InteractiveComponent.renderedHeight g)
     == centerY).
Proof.
  intros Hbw Hbh Hcw Hch canvas centerX centerY.
  split; [reflexivity |]. split; [reflexivity |]. split; [| split].
  - eexists. eexists. eexists. eexists. eexists.
    split; [reflexivity |].
    split; [cbn; right; right; right; right; right; left; reflexivity |].
    split; [reflexivity |]. split; [| split; [| split]].
    + cbn. field. split; lra.
    + cbn. field.
    + cbn. field. split; lra.
    + unfold point_eq, centerX, centerY. cbn. unfold inject_Z. split; ring.
  - intros [Hx0 Hx1] [Hy0 Hy1]. unfold centerX, centerY.
    change (Canvas.width canvas) with (imageNaturalWidth baseImage).
    change (Canvas.height canvas) with (imageNaturalHeight baseImage).
    repeat split; nra.
  - intros img Hpos Hw Hh g.
    destruct (rendered_size_positive Hpos) as [Hrw Hrh]. fold g in Hrw, Hrh.
    unfold InteractiveComponent.displayX, InteractiveComponent.displayY,
      centerX, centerY.
    rewrite <- Hw, <- Hh. cbn [add sub mul Q_Number].
    split; field; lra.
Qed.

Lemma merged_component_is_centred_where_it_is_shown_witness :
  let baseImage := {| imageSrc := "data:image/png;base64,PHOTO";
                      imageNaturalWidth := 1000; imageNaturalHeight := 800 |} in
  let componentImage := {| imageSrc := "data:image/png;base64,LOGO";
                           imageNaturalWidth := 200;
                           imageNaturalHeight := 100 |} in
  let layer :=
    {| ComponentLayer.id := "comp_1700000000000";
       ComponentLayer.src := "data:image/png;base64,LOGO";
       ComponentLayer.originalFile := {| fileName := "logo.png" |};
       ComponentLayer.x := 1 / 4; ComponentLayer.y := 1 / 2;
       ComponentLayer.scale := 1 / 2; ComponentLayer.rotation := 90;
       ComponentLayer.flipH := true; ComponentLayer.flipV := false |} in
  let img := {| naturalWidth := 1000; naturalHeight := 800;
                clientWidth := 500; clientHeight := 500 |} in
  let g := InteractiveComponent.getRenderedImageGeometry img in
  (InteractiveComponent.displayX layer g - InteractiveComponent.offsetX g)
  * (1000 / InteractiveComponent.renderedWidth g) == 250 /\
  (InteractiveComponent.displayY layer g - InteractiveComponent.offsetY g)
  * (800 / InteractiveComponent.renderedHeight g) == 400.
Proof.
  intros baseImage componentImage layer img g.
  assert (Hpos : positive_dimensions img).
  { unfold positive_dimensions. cbn. repeat split; reflexivity. }
  destruct (@merged_component_is_centred_where_it_is_shown quarter_turns
              baseImage componentImage layer
              eq_refl eq_refl eq_refl eq_refl)
    as (_ & _ & _ & _ & Hshown).
  destruct (Hshown img Hpos eq_refl eq_refl) as [Hx Hy].
  fold g in Hx, Hy. split.
  - apply Qeq_trans
      with (y := ComponentLayer.x layer * imageNaturalWidth baseImage);
      [exact Hx | reflexivity].
  - apply Qeq_trans
      with (y := ComponentLayer.y layer * imageNaturalHeight baseImage);
      [exact Hy | reflexivity].
Defined.

(** ** Where the bake puts the text *)

(** X28.  A text whose two coordinate pairs agree is baked where it is
    shown: the canvas has the natural size, the image is drawn at the origin
    and the text once, under the identity transform, centred on its natural
    coordinates; in exact arithmetic, on positive dimensions, that point
    lies at the same fraction of the natural width and height as the display
    point lies of the rendered image, and the font size is the same fraction
    of the natural width as the displayed size is of the rendered width. *)
Theorem text_is_baked_where_it_is_shown
    (imageRef : HTMLImageElement Q) (t : ActiveText.t Q) (src : string) :
  positive_dimensions imageRef ->
  let g := InteractiveText.getRenderedImageGeometry imageRef in
  coordinates_agree g t ->
  let img := {| imageSrc := src;
                imageNaturalWidth := naturalWidth imageRef;
                imageNaturalHeight := naturalHeight imageRef |} in
  let canvas := App.textCanvas img t g in
  Canvas.width canvas = naturalWidth imageRef /\
  Canvas.height canvas = naturalHeight imageRef /\
  exists font x y,
    Canvas.calls canvas
    = [Canvas.drawImage img Canvas.identity 0 0 None;
       Canvas.fillText (ActiveText.color t) font "center" "middle"
         Canvas.identity (ActiveText.text t) x y] /\
    x * renderedWidth g
    == (ActiveText.displayX t - offsetX g) * naturalWidth imageRef /\
    y * renderedHeight g
    == (ActiveText.displayY t - offsetY g) * naturalHeight imageRef /\
    x = ActiveText.x t /\ y = ActiveText.y t /\
    Canvas.fontSizePx font * renderedWidth g
    == ActiveText.fontSize t * naturalWidth imageRef /\
    Canvas.fontFamily font = ActiveText.fontFamily t.
Proof.
  intros Hdims g [Hx Hy] img canvas.
  destruct (geometry_of_positive Hdims)
    as (g' & _ & Hg & Hrw & Hrh & _ & _ & Hsc & Hw & Hh & _).
  fold g in Hg. subst g'.
  split; [reflexivity |]. split; [reflexivity |].
  exists {| Canvas.fontStyle := FontStyle_toString (ActiveText.fontStyle t);
            Canvas.fontWeight := FontWeight_toString (ActiveText.fontWeight t);
            Canvas.fontSizePx := ActiveText.fontSize t * scale g;
            Canvas.fontFamily := ActiveText.fontFamily t |},
         (ActiveText.x t), (ActiveText.y t).
  split; [reflexivity |].
  cbn [sub mul Q_Number] in Hx, Hy. rewrite Hx, Hy.
  split; [rewrite <- Hw; ring |]. split; [rewrite <- Hh; ring |].
  split; [reflexivity |]. split; [reflexivity |].
  split; [| reflexivity].
  cbn [Canvas.fontSizePx]. rewrite <- Hw. ring.
Qed.

Lemma text_is_baked_where_it_is_shown_witness :
  let g := InteractiveText.getRenderedImageGeometry editingImage in
  let t :=
    {| ActiveText.text := "Summer Sale"; ActiveText.fontFamily := "Roboto";
       ActiveText.fontSize := 50; ActiveText.fontWeight := weight_bold;
       ActiveText.fontStyle := style_normal; ActiveText.color := "#FFFFFF";
       ActiveText.x := (125 - offsetX g) * scale g;
       ActiveText.y := (250 - offsetY g) * scale g;
       ActiveText.displayX := 125; ActiveText.displayY := 250 |} in
  let img := {| imageSrc := "data:image/png;base64,PHOTO";
                imageNaturalWidth := 1000; imageNaturalHeight := 1000 |} in
  exists font x y,
    Canvas.calls (App.textCanvas img t g)
    = [Canvas.drawImage img Canvas.identity 0 0 None;
       Canvas.fillText "#FFFFFF" font "center" "middle" Canvas.identity
         "Summer Sale" x y] /\
    x == 250 /\ y == 500 /\ Canvas.fontSizePx font == 100.
Proof.
  intros g t img.
  assert (Hdims : positive_dimensions editingImage).
  { unfold positive_dimensions. cbn. repeat split; reflexivity. }
  destruct (@text_is_baked_where_it_is_shown editingImage t
              "data:image/png;base64,PHOTO" Hdims)
    as (_ & _ & font & x & y & Hcalls & Hx & Hy & _ & _ & Hfont & _).
  - split; reflexivity.
  - exists font, x, y. split; [exact Hcalls |].
    fold g in Hx, Hy, Hfont.
    assert (Hrw : renderedWidth g == 500) by (vm_compute; reflexivity).
    assert (Hrh : renderedHeight g == 500) by (vm_compute; reflexivity).
    assert (Hox : offsetX g == 0) by (vm_compute; reflexivity).
    assert (Hoy : offsetY g == 0) by (vm_compute; reflexivity).
    rewrite Hrw, Hox in Hx. rewrite Hrh, Hoy in Hy. rewrite Hrw in Hfont.
    cbn [ActiveText.displayX ActiveText.displayY ActiveText.fontSize t
         naturalWidth naturalHeight editingImage] in Hx, Hy, Hfont.
    repeat split; lra.
Defined.

(** ** Starting over and changing tool *)

(** X29.  A reset gives exactly the initial session, whatever the session
    was, so that what follows a reset is what follows a fresh start.
    Switching tool drops the active text and the selection, so that there is
    no active component, and keeps the history, the cursor and the layers;
    only the last of two switches counts. *)
Theorem reset_gives_the_initial_session
    (N : Type) `{Number N} `{Trig N}
    (toDataURL : Canvas.Context2D N -> string) (events : list (Event N))
    (tool tool' : App.Tool) (s : App.State N) :
  App.handleReset s = App.initial /\
  run toDataURL (Reset :: events) s = run toDataURL events App.initial /\
  (let s' := App.switchTool tool s in
   App.activeTool s' = tool /\ App.activeText s' = None /\
   App.activeComponent s' = None /\
   App.componentLayers s' = App.componentLayers s /\
   history_unchanged s s' /\ App.error s' = App.error s) /\
  App.switchTool tool (App.switchTool tool' s) = App.switchTool tool s.
Proof.
  split; [reflexivity |]. split; [reflexivity |]. split; [| reflexivity].
  cbn zeta. split; [reflexivity |]. split; [reflexivity |].
  split; [apply no_selection_no_component; reflexivity |].
  split; [reflexivity |]. split; [split; reflexivity | reflexivity].
Qed.

(** ** Asking for suggestions *)

(** X30.  A request for suggestions needs an original image; without one the
    session stays.  With one, the list afterwards is what the service
    returned, or empty when it failed, the old list being dropped either way,
    and the request is no longer marked as running.  A request never
    touches the history, the cursor, the overlays or the busy flag; one that
    succeeds leaves the error slot as it was, an earlier error included,
    and one that fails puts its message, or the fallback text, there.
    Selecting a suggestion on an image element leaves an active text with
    that suggestion as its text and empties the list. *)
Theorem suggestions_replace_the_list_and_keep_the_image
    (N : Type) `{Number N} (suggestions : list string)
    (message : option string) (imageRef : HTMLImageElement N)
    (suggestion : string) (s : App.State N) :
  (App.originalImage s = None ->
   App.handleSuggestText (App.resolved suggestions) s = s) /\
  (App.originalImage s <> None ->
   let got := App.handleSuggestText (App.resolved suggestions) s in
   let failed := App.handleSuggestText (App.rejected message) s in
   (App.textSuggestions got = suggestions /\ App.error got = App.error s /\
    App.isSuggestingText got = false /\ history_unchanged s got /\
    App.activeText got = App.activeText s /\
    App.componentLayers got = App.componentLayers s /\
    App.isLoading got = App.isLoading s) /\
   (App.textSuggestions failed = [] /\
    App.error failed
    = Some (App.messageOr message "Failed to get AI suggestions.") /\
    App.isSuggestingText failed = false /\ history_unchanged s failed /\
    App.activeText failed = App.activeText s /\
    App.componentLayers failed = App.componentLayers s /\
    App.isLoading failed = App.isLoading s)) /\
  (let picked := App.handleSelectSuggestion (Some imageRef) suggestion s in
   App.textSuggestions picked = [] /\ history_unchanged s picked /\
   exists t, App.activeText picked = Some t /\ ActiveText.text t = suggestion) /\
  App.handleSelectSuggestion None suggestion s = s.
Proof.
  split; [| split; [| split; [| reflexivity]]].
  - intros Hnone. unfold App.handleSuggestText. rewrite Hnone. reflexivity.
  - intros Horig got failed. unfold got, failed, App.handleSuggestText.
    destruct (App.originalImage s); [| contradiction].
    repeat split.
  - cbn zeta. unfold App.handleSelectSuggestion.
    destruct (App.activeText s) as [t |].
    + split; [reflexivity |]. split; [split; reflexivity |].
      eexists. split; reflexivity.
    + rewrite App_geometry_is_InteractiveText_geometry.
      split; [reflexivity |]. split; [split; reflexivity |].
      eexists. split; reflexivity.
Qed.

Lemma suggestions_replace_the_list_and_keep_the_image_witness :
  let stale :=
    App.setTextSuggestions ["Old idea"]
      (App.setError (Some "Could not create canvas context.") editingSession) in
  let got :=
    App.handleSuggestText (App.resolved ["Golden hour"; "Stay wild"]) stale in
  App.textSuggestions got = ["Golden hour"; "Stay wild"] /\
  App.error got = Some "Could not create canvas context.".
Proof.
  intros stale got.
  assert (Horig : App.originalImage stale <> None) by discriminate.
  destruct (proj1 (proj2 (@suggestions_replace_the_list_and_keep_the_image Q _
                            ["Golden hour"; "Stay wild"] None editingImage
                            "Stay wild" stale)) Horig)
    as [(Hlist & Herror & _) _].
  fold got in Hlist, Herror. rewrite Hlist, Herror. split; reflexivity.
Defined.
